(** * snipSmart: extraction of JSON values and tag snippets from noisy text

    A shallow embedding of the JavaScript sources of the repository and
    the verification of its design document against them.

    The sources:
      - [src/snipJson.js], the JSON engine (module [SrcSnipJson]);
      - a second revision of that file, kept without a file name, whose
        messages and control flow are those the design document and
        [examples/use-snipSmart.js] describe (module [SnipJson]);
      - [src/snipByTag.js], the tag engine (module [SnipByTag]);
      - [src/index.js], the dispatcher and the strict wrapper (module
        [Index]).

    The part of the JavaScript run-time they rely on is modelled first:
    strings as sequences of UTF-16 code units with [indexOf],
    [lastIndexOf], [slice], [trim] and [replace] for the regular
    expressions of the sources (module [JS]); values, thrown errors and
    completions; [JSON.parse] and [JSON.stringify] (module [JSON]).

    Definitions come first, then the facts about them and the
    properties of the design document that are checked, numbered C1 to
    C10, then the documented examples, and last the further properties
    of the engines and of the dispatcher that are read off the sources,
    numbered from X1 on (X16 and X17 stand with the facts about the scan
    of the revision without a file name; the amended C3 stands with the
    facts about [src/snipJson.js] it rests on). *)

From Stdlib Require Import String Ascii.
From Stdlib Require Import List NArith ZArith Lia Bool.
Import ListNotations.

Local Open Scope Z_scope.

(* ===================================================================== *)
(** * JavaScript strings                                                  *)
(* ===================================================================== *)

Module JS.

(** A string is a sequence of 16-bit code units; nothing below depends on
    the bound, so a code unit is an [N]. *)
Definition jsstring := list N.

(** Literals: [js "abc"] is the JavaScript string ["abc"]. *)
Definition ch (a : ascii) : N := N_of_ascii a.
Definition js (s : string) : jsstring := map N_of_ascii (list_ascii_of_string s).

(** [jq] reads a literal in which each apostrophe stands for a double
    quote, so [jq "{'a':1}"] is the text of a JSON object with the single
    key [a]. *)
Definition jq (s : string) : jsstring :=
  map (fun c => if N.eqb c 39 then 34%N else c) (js s).

Definition isEmpty (s : jsstring) : bool :=
  match s with
  | [] => true
  | _ :: _ => false
  end.

Definition jsstring_eqb (a b : jsstring) : bool :=
  if list_eq_dec N.eq_dec a b then true else false.

(** [s.length] *)
Definition len (s : jsstring) : Z := Z.of_nat (length s).

(** [s[i]]: [None] stands for [undefined]. *)
Definition charAt (s : jsstring) (i : Z) : option N :=
  if i <? 0 then None else nth_error s (Z.to_nat i).

(** [s[i] === c] for a one-character literal [c]. *)
Definition charIs (s : jsstring) (i : Z) (c : N) : bool :=
  match charAt s i with
  | Some x => N.eqb x c
  | None => false
  end.

(** The part of [s] from index [i] on ([i] is never negative where this is
    used); the loops below read [s] through it. *)
Definition from (s : jsstring) (i : Z) : jsstring := skipn (Z.to_nat i) s.

(** [s.slice(a, b)], with the clamping of ECMA-262 22.1.3.22. *)
Definition clampIndex (s : jsstring) (k : Z) : Z :=
  if k <? 0 then Z.max (len s + k) 0 else Z.min k (len s).

Definition slice (s : jsstring) (a b : Z) : jsstring :=
  let k := clampIndex s a in
  let e := clampIndex s b in
  firstn (Z.to_nat (e - k)) (skipn (Z.to_nat k) s).

(** [s.slice(a)] *)
Definition sliceFrom (s : jsstring) (a : Z) : jsstring := slice s a (len s).

(** [s.indexOf(c)] for a one-character string [c]; [-1] when absent. *)
Fixpoint indexOfFrom (c : N) (s : jsstring) (i : Z) : Z :=
  match s with
  | [] => -1
  | x :: t => if N.eqb x c then i else indexOfFrom c t (i + 1)
  end.

Definition indexOf (s : jsstring) (c : N) : Z := indexOfFrom c s 0.

(** [needle] is a prefix of [s]. *)
Fixpoint startsWith (needle s : jsstring) : bool :=
  match needle, s with
  | [], _ => true
  | _ :: _, [] => false
  | a :: n', b :: s' => N.eqb a b && startsWith n' s'
  end.

(** [s.lastIndexOf(needle)]: the greatest position at which [needle]
    occurs, [-1] when there is none. *)
Fixpoint lastIndexOfFrom (needle s : jsstring) (i : Z) : Z :=
  match s with
  | [] => if startsWith needle [] then i else -1
  | _ :: t =>
      let r := lastIndexOfFrom needle t (i + 1) in
      if r =? -1 then (if startsWith needle s then i else -1) else r
  end.

Definition lastIndexOf (s needle : jsstring) : Z := lastIndexOfFrom needle s 0.

(** ** Character classes *)

Definition inRange (lo hi c : N) : bool := (N.leb lo c && N.leb c hi)%bool.

(** LineTerminator (ECMA-262 12.3): LF, CR, LS, PS. *)
Definition isLineTerminator (c : N) : bool :=
  (N.eqb c 10 || N.eqb c 13 || N.eqb c 8232 || N.eqb c 8233)%bool.

(** The class [\s] of regular expressions, which is also what [trim]
    strips: WhiteSpace (TAB, VT, FF, ZWNBSP and the Unicode space
    separators) and LineTerminator. *)
Definition isSpace (c : N) : bool :=
  (N.eqb c 9 || N.eqb c 11 || N.eqb c 12 || N.eqb c 32 || N.eqb c 160
   || N.eqb c 5760 || inRange 8192 8202 c || N.eqb c 8239 || N.eqb c 8287
   || N.eqb c 12288 || N.eqb c 65279 || isLineTerminator c)%bool.

(** The class [\w]: [A-Za-z0-9_]. *)
Definition isWord (c : N) : bool :=
  (inRange 65 90 c || inRange 97 122 c || inRange 48 57 c || N.eqb c 95)%bool.

(** The class of the two quote characters, apostrophe and double quote. *)
Definition isQuote (c : N) : bool := (N.eqb c 39 || N.eqb c 34)%bool.

(** ** [trim] *)

Fixpoint trimStart (s : jsstring) : jsstring :=
  match s with
  | c :: t => if isSpace c then trimStart t else s
  | [] => []
  end.

Definition trimEnd (s : jsstring) : jsstring := rev (trimStart (rev s)).

Definition trim (s : jsstring) : jsstring := trimEnd (trimStart s).

(** ** [toLowerCase]

    The only caller passes a tag name, a string over [[A-Za-z0-9_:-]]
    (see [SnipByTag.isTagNameChar]); on those code units
    [String.prototype.toLowerCase] is the ASCII mapping below.  Code units
    outside ASCII are left alone by this model. *)
Definition lowerUnit (c : N) : N := if inRange 65 90 c then (c + 32)%N else c.
Definition toLowerCase (s : jsstring) : jsstring := map lowerUnit s.

(** ** [replace] with a global regular expression

    [s.replace(re, rep)] with the [g] flag walks [s] from left to right;
    at each position it tries the expression, and on a match it emits
    [rep] and resumes after the match, otherwise it copies one code unit.
    A regular expression is given by its matcher: [m prev rest] is the
    length of the match at the position whose preceding code unit is
    [prev] ([None] at the start of the input) and whose remaining input is
    [rest].  None of the expressions of the sources matches the empty
    string.  [skip] counts the code units of the current match that are
    still to be dropped. *)
Definition matcher := option N -> jsstring -> option nat.

Fixpoint replaceFrom (m : matcher) (rep : jsstring) (prev : option N)
         (skip : nat) (s : jsstring) : jsstring :=
  match s with
  | [] => []
  | c :: t =>
      match skip with
      | S k => replaceFrom m rep (Some c) k t
      | O =>
          match m prev s with
          | Some (S k) => rep ++ replaceFrom m rep (Some c) k t
          | _ => c :: replaceFrom m rep (Some c) O t
          end
      end
  end.

Definition replaceAll (m : matcher) (rep : jsstring) (s : jsstring) : jsstring :=
  replaceFrom m rep None O s.

(** Number of leading code units of [s] that satisfy [p]: a greedy [p*]. *)
Fixpoint spanLength (p : N -> bool) (s : jsstring) : nat :=
  match s with
  | c :: t => if p c then S (spanLength p t) else O
  | [] => O
  end.

End JS.

Import JS.

(* ===================================================================== *)
(** * Values, results and completions                                    *)
(* ===================================================================== *)

(** The values that reach the functions below: what a caller can pass as
    [content], what [JSON.parse] yields, and what ends up in the [data]
    and [raw] fields of a result.  They are the values of JSON together
    with [undefined]: [VString] is a primitive string, [VObject] a plain
    object without methods of its own.  Objects that carry methods
    ([String] objects, objects with a [replace] property) and functions
    are not among them, so a statement over every [Value] speaks of these
    seven kinds only.  A number is carried as the literal text the
    decoder accepted (rounding to binary64 is outside the model).  The
    properties of an object are listed in the order in which JavaScript
    enumerates them. *)
Unset Elimination Schemes.
Inductive Value : Type :=
| VUndefined
| VNull
| VBool (b : bool)
| VNumber (lit : jsstring)
| VString (s : jsstring)
| VArray (items : list Value)
| VObject (props : list (jsstring * Value)).
Set Elimination Schemes.

(** Objects and arrays. *)
Definition isContainer (v : Value) : bool :=
  match v with
  | VArray _ | VObject _ => true
  | _ => false
  end.

(** What an engine stores in a field it leaves unset is [null]; a field
    is populated when it holds neither [null] nor [undefined]. *)
Definition populated (v : Value) : bool :=
  match v with
  | VUndefined | VNull => false
  | _ => true
  end.

(** ** The result record shared by the engines and the dispatcher *)

Inductive Status : Type := Success | Check | Fail.

Record Result : Type := mkResult {
  status : Status;
  comments : jsstring;
  data : Value;
  raw : Value
}.

(** The object every engine starts from:
    [{ status: "fail", comments: "", data: null, raw: null }]. *)
Definition initialResult : Result :=
  {| status := Fail; comments := []; data := VNull; raw := VNull |}.

(** That object with [comments] and [raw] assigned, as the failure
    branches return it. *)
Definition failWith (msg : jsstring) (r : Value) : Result :=
  {| status := status initialResult; comments := msg;
     data := data initialResult; raw := r |}.

(** ** Errors and completions *)

Inductive Error : Type :=
| TypeError (message : jsstring)
| SyntaxError (message : jsstring)
| SnipSmartError (message : jsstring) (result : Result).

Definition message (e : Error) : jsstring :=
  match e with
  | TypeError m => m
  | SyntaxError m => m
  | SnipSmartError m _ => m
  end.

(** The outcome of running a function: it returns, it throws, or the
    bound on the number of loop iterations of the model was too small
    (shown below never to happen). *)
Inductive Completion (A : Type) : Type :=
| Normal (a : A)
| Throw (e : Error)
| Diverge.

Arguments Normal {A} a.
Arguments Throw {A} e.
Arguments Diverge {A}.

Definition bind {A B : Type} (c : Completion A) (k : A -> Completion B)
  : Completion B :=
  match c with
  | Normal a => k a
  | Throw e => Throw e
  | Diverge => Diverge
  end.

Notation "x <- c ;; k" := (bind c (fun x => k))
  (at level 61, c at next level, right associativity).

(* ===================================================================== *)
(** * The JSON decoder and encoder                                         *)
(* ===================================================================== *)

Module JSON.

(** ** [JSON.parse]

    The grammar is that of ECMA-404, which is what [JSON.parse] accepts.
    The text of the [SyntaxError] it throws is implementation-defined;
    the model uses the two messages below.  *)

Inductive parsed (A : Type) : Type :=
| Parsed (a : A) (rest : jsstring)
| Failed (msg : jsstring)
| NoFuel.

Arguments Parsed {A} a rest.
Arguments Failed {A} msg.
Arguments NoFuel {A}.

Definition unexpectedEnd : jsstring := js "Unexpected end of JSON input".
Definition unexpectedToken : jsstring := js "Unexpected token in JSON".

(** JSON white space: space, tab, line feed, carriage return. *)
Definition isJsonSpace (c : N) : bool :=
  (N.eqb c 32 || N.eqb c 9 || N.eqb c 10 || N.eqb c 13)%bool.

Fixpoint skipSpace (s : jsstring) : jsstring :=
  match s with
  | c :: t => if isJsonSpace c then skipSpace t else s
  | [] => []
  end.

Definition isDigit (c : N) : bool := inRange 48 57 c.

Definition hexValue (c : N) : option N :=
  if inRange 48 57 c then Some (c - 48)%N
  else if inRange 97 102 c then Some (c - 87)%N
  else if inRange 65 70 c then Some (c - 55)%N
  else None.

Definition hex4 (a b c d : N) : option N :=
  match hexValue a, hexValue b, hexValue c, hexValue d with
  | Some x, Some y, Some z, Some w => Some (x * 4096 + y * 256 + z * 16 + w)%N
  | _, _, _, _ => None
  end.

(** The one-character escapes: quote, backslash, slash, b, f, n, r, t. *)
Definition simpleEscape (e : N) : option N :=
  if N.eqb e 34 then Some 34%N
  else if N.eqb e 92 then Some 92%N
  else if N.eqb e 47 then Some 47%N
  else if N.eqb e 98 then Some 8%N
  else if N.eqb e 102 then Some 12%N
  else if N.eqb e 110 then Some 10%N
  else if N.eqb e 114 then Some 13%N
  else if N.eqb e 116 then Some 9%N
  else None.

Definition consParsed (c : N) (p : parsed jsstring) : parsed jsstring :=
  match p with
  | Parsed body rest => Parsed (c :: body) rest
  | other => other
  end.

(** The characters of a string literal after its opening quote, up to and
    including the closing quote. *)
Fixpoint parseStringBody (s : jsstring) : parsed jsstring :=
  match s with
  | [] => Failed unexpectedEnd
  | c :: t =>
      if N.eqb c 34 then Parsed [] t
      else if N.eqb c 92 then
        match t with
        | [] => Failed unexpectedEnd
        | e :: t1 =>
            if N.eqb e 117 then
              match t1 with
              | h1 :: h2 :: h3 :: h4 :: t2 =>
                  match hex4 h1 h2 h3 h4 with
                  | Some u => consParsed u (parseStringBody t2)
                  | None => Failed unexpectedToken
                  end
              | _ => Failed unexpectedEnd
              end
            else
              match simpleEscape e with
              | Some u => consParsed u (parseStringBody t1)
              | None => Failed unexpectedToken
              end
        end
      else if N.ltb c 32 then Failed unexpectedToken
      else consParsed c (parseStringBody t)
  end.

(** A number literal: an optional minus sign; an integer part that is
    either a single zero or a non-zero digit followed by digits; an
    optional fraction (a dot and at least one digit); an optional exponent
    (e or E, an optional sign, at least one digit).  Each part returns the
    number of code units it takes. *)
Definition intPart (s : jsstring) : option nat :=
  match s with
  | c :: t =>
      if N.eqb c 48 then Some 1%nat
      else if inRange 49 57 c then Some (S (spanLength isDigit t))
      else None
  | [] => None
  end.

Definition fracPart (s : jsstring) : option nat :=
  match s with
  | c :: t =>
      if N.eqb c 46 then
        match spanLength isDigit t with
        | O => None
        | S k => Some (S (S k))
        end
      else Some O
  | [] => Some O
  end.

Definition expPart (s : jsstring) : option nat :=
  match s with
  | c :: t =>
      if (N.eqb c 101 || N.eqb c 69)%bool then
        let sign :=
          match t with
          | g :: _ => if (N.eqb g 43 || N.eqb g 45)%bool then 1%nat else O
          | [] => O
          end in
        match spanLength isDigit (skipn sign t) with
        | O => None
        | S k => Some (S (sign + S k))
        end
      else Some O
  | [] => Some O
  end.

Definition numberLength (s : jsstring) : option nat :=
  let sign :=
    match s with
    | c :: _ => if N.eqb c 45 then 1%nat else O
    | [] => O
    end in
  match intPart (skipn sign s) with
  | None => None
  | Some i =>
      match fracPart (skipn (sign + i) s) with
      | None => None
      | Some f =>
          match expPart (skipn (sign + i + f) s) with
          | None => None
          | Some e => Some (sign + i + f + e)%nat
          end
      end
  end.

Definition parseNumber (s : jsstring) : parsed Value :=
  match numberLength s with
  | Some n => Parsed (VNumber (firstn n s)) (skipn n s)
  | None => match s with
            | [] | [_] => Failed unexpectedEnd
            | _ => Failed unexpectedToken
            end
  end.

(** ** Property definition

    [JSON.parse] defines the members of an object in source order.  A
    repeated key keeps its place and takes the new value.  JavaScript
    enumerates the keys that are array indices (canonical decimal numbers
    below 2^32 - 1) first, in increasing order, then the other keys in
    order of creation. *)
Fixpoint decimalValue (s : jsstring) (acc : N) : N :=
  match s with
  | c :: t => decimalValue t (acc * 10 + (c - 48))%N
  | [] => acc
  end.

Definition arrayIndex (k : jsstring) : option N :=
  match k with
  | [] => None
  | c :: t =>
      if (forallb isDigit k && (negb (N.eqb c 48) || match t with [] => true | _ => false end))%bool
      then
        if (Nat.leb (length k) 10 && N.ltb (decimalValue k 0) 4294967295)%bool
        then Some (decimalValue k 0)
        else None
      else None
  end.

Fixpoint hasKey (k : jsstring) (ps : list (jsstring * Value)) : bool :=
  match ps with
  | (k', _) :: t => (jsstring_eqb k k' || hasKey k t)%bool
  | [] => false
  end.

Fixpoint overwrite (k : jsstring) (v : Value) (ps : list (jsstring * Value))
  : list (jsstring * Value) :=
  match ps with
  | (k', v') :: t =>
      if jsstring_eqb k k' then (k', v) :: t else (k', v') :: overwrite k v t
  | [] => []
  end.

(** Insert an array-index key [k] (of value [n]) before the first key
    that is not a smaller array index. *)
Fixpoint insertIndex (n : N) (k : jsstring) (v : Value)
         (ps : list (jsstring * Value)) : list (jsstring * Value) :=
  match ps with
  | (k', v') :: t =>
      match arrayIndex k' with
      | Some n' => if N.ltb n' n then (k', v') :: insertIndex n k v t
                   else (k, v) :: ps
      | None => (k, v) :: ps
      end
  | [] => [(k, v)]
  end.

Definition defineProperty (ps : list (jsstring * Value)) (k : jsstring) (v : Value)
  : list (jsstring * Value) :=
  if hasKey k ps then overwrite k v ps
  else match arrayIndex k with
       | Some n => insertIndex n k v ps
       | None => ps ++ [(k, v)]
       end.

(** ** Values

    [parseValue] expects its input to start at the first code unit of a
    value; [parseElements] and [parseMembers] continue an array and an
    object after at least one code unit of it has been read.  [fuel]
    bounds the nesting of calls. *)
Fixpoint parseValue (fuel : nat) (s : jsstring) {struct fuel} : parsed Value :=
  match fuel with
  | O => NoFuel
  | S f =>
      match s with
      | [] => Failed unexpectedEnd
      | c :: t =>
          if N.eqb c 123 then
            match skipSpace t with
            | [] => Failed unexpectedEnd
            | d :: r => if N.eqb d 125 then Parsed (VObject []) r
                        else parseMembers f (d :: r) []
            end
          else if N.eqb c 91 then
            match skipSpace t with
            | [] => Failed unexpectedEnd
            | d :: r => if N.eqb d 93 then Parsed (VArray []) r
                        else parseElements f (d :: r) []
            end
          else if N.eqb c 34 then
            match parseStringBody t with
            | Parsed body r => Parsed (VString body) r
            | Failed m => Failed m
            | NoFuel => NoFuel
            end
          else if (N.eqb c 45 || isDigit c)%bool then parseNumber s
          else if startsWith (js "true") s then Parsed (VBool true) (skipn 4 s)
          else if startsWith (js "false") s then Parsed (VBool false) (skipn 5 s)
          else if startsWith (js "null") s then Parsed VNull (skipn 4 s)
          else Failed unexpectedToken
      end
  end

with parseElements (fuel : nat) (s : jsstring) (acc : list Value) {struct fuel}
  : parsed Value :=
  match fuel with
  | O => NoFuel
  | S f =>
      match parseValue f s with
      | Parsed v r =>
          match skipSpace r with
          | [] => Failed unexpectedEnd
          | d :: r' =>
              if N.eqb d 44 then parseElements f (skipSpace r') (acc ++ [v])
              else if N.eqb d 93 then Parsed (VArray (acc ++ [v])) r'
              else Failed unexpectedToken
          end
      | Failed m => Failed m
      | NoFuel => NoFuel
      end
  end

with parseMembers (fuel : nat) (s : jsstring) (acc : list (jsstring * Value))
       {struct fuel} : parsed Value :=
  match fuel with
  | O => NoFuel
  | S f =>
      match s with
      | [] => Failed unexpectedEnd
      | q :: t =>
          if N.eqb q 34 then
            match parseStringBody t with
            | Parsed k r =>
                match skipSpace r with
                | [] => Failed unexpectedEnd
                | d :: r1 =>
                    if N.eqb d 58 then
                      match parseValue f (skipSpace r1) with
                      | Parsed v r2 =>
                          match skipSpace r2 with
                          | [] => Failed unexpectedEnd
                          | e :: r3 =>
                              if N.eqb e 44
                              then parseMembers f (skipSpace r3) (defineProperty acc k v)
                              else if N.eqb e 125
                              then Parsed (VObject (defineProperty acc k v)) r3
                              else Failed unexpectedToken
                          end
                      | Failed m => Failed m
                      | NoFuel => NoFuel
                      end
                    else Failed unexpectedToken
                end
            | Failed m => Failed m
            | NoFuel => NoFuel
            end
          else Failed unexpectedToken
      end
  end.

(** [JSON.parse(text)]: one value between optional white space.  Twice
    the length of the text, plus one, is enough fuel
    (see [parse_terminates]). *)
Definition parse (text : jsstring) : Completion Value :=
  match parseValue (S (2 * length text)) (skipSpace text) with
  | Parsed v r =>
      match skipSpace r with
      | [] => Normal v
      | _ :: _ => Throw (SyntaxError unexpectedToken)
      end
  | Failed m => Throw (SyntaxError m)
  | NoFuel => Diverge
  end.

(** ** [JSON.stringify]

    [JSON.stringify(v)] without indentation (ECMA-262 25.5.2).  Strings
    are quoted by QuoteJSONString: the quote and the backslash are
    escaped, control characters become their short escape or a [\u00xx]
    escape, a surrogate that is not part of a pair becomes a [\uxxxx]
    escape.  [undefined] has no JSON text: as an array element it is
    written [null], as a property value the property is left out. *)

Definition hexDigit (n : N) : N := if N.ltb n 10 then (48 + n)%N else (87 + n)%N.

Definition unicodeEscape (c : N) : jsstring :=
  [92%N; 117%N; hexDigit (c / 4096 mod 16); hexDigit (c / 256 mod 16);
   hexDigit (c / 16 mod 16); hexDigit (c mod 16)].

Definition isLeadSurrogate (c : N) : bool := inRange 55296 56319 c.
Definition isTrailSurrogate (c : N) : bool := inRange 56320 57343 c.

Fixpoint quoteBody (s : jsstring) : jsstring :=
  match s with
  | [] => []
  | c :: t =>
      if N.eqb c 34 then 92%N :: 34%N :: quoteBody t
      else if N.eqb c 92 then 92%N :: 92%N :: quoteBody t
      else if N.eqb c 8 then 92%N :: 98%N :: quoteBody t
      else if N.eqb c 9 then 92%N :: 116%N :: quoteBody t
      else if N.eqb c 10 then 92%N :: 110%N :: quoteBody t
      else if N.eqb c 12 then 92%N :: 102%N :: quoteBody t
      else if N.eqb c 13 then 92%N :: 114%N :: quoteBody t
      else if N.ltb c 32 then unicodeEscape c ++ quoteBody t
      else if isLeadSurrogate c then
        match t with
        | d :: t' => if isTrailSurrogate d then c :: d :: quoteBody t'
                     else unicodeEscape c ++ quoteBody t
        | [] => unicodeEscape c
        end
      else if isTrailSurrogate c then unicodeEscape c ++ quoteBody t
      else c :: quoteBody t
  end.

Definition quote (s : jsstring) : jsstring := 34%N :: quoteBody s ++ [34%N].

Fixpoint join (sep : jsstring) (parts : list jsstring) : jsstring :=
  match parts with
  | [] => []
  | [p] => p
  | p :: rest => p ++ sep ++ join sep rest
  end.

(** [None] stands for the [undefined] that [JSON.stringify(undefined)]
    returns. *)
Fixpoint stringify (v : Value) : option jsstring :=
  match v with
  | VUndefined => None
  | VNull => Some (js "null")
  | VBool true => Some (js "true")
  | VBool false => Some (js "false")
  | VNumber lit => Some lit
  | VString s => Some (quote s)
  | VArray items =>
      Some (js "[" ++
            join (js ",")
              (map (fun x => match stringify x with
                             | Some t => t
                             | None => js "null"
                             end) items)
            ++ js "]")
  | VObject props =>
      Some (js "{" ++
            join (js ",")
              (flat_map (fun kv => match stringify (snd kv) with
                                   | Some t => [quote (fst kv) ++ js ":" ++ t]
                                   | None => []
                                   end) props)
            ++ js "}")
  end.

End JSON.

(* ===================================================================== *)
(** * The JSON engine (revision without a file name)                      *)
(* ===================================================================== *)

Module SnipJson.

(** The object [parseJsonSafely] returns:
    [{ success, data, error }]. *)
Module Attempt.
Record t : Type := make {
  success : bool;
  data : Value;
  error : option Error
}.
End Attempt.

(** [parseJsonSafely]: [JSON.parse] inside [try]/[catch]. *)
Definition parseJsonSafely (text : jsstring) : Completion Attempt.t :=
  match JSON.parse text with
  | Normal v => Normal (Attempt.make true v None)
  | Throw e => Normal (Attempt.make false VNull (Some e))
  | Diverge => Diverge
  end.

(** [parsed.error.message], read only where [parsed.success] is false. *)
Definition errorMessage (a : Attempt.t) : jsstring :=
  match Attempt.error a with
  | Some e => message e
  | None => []
  end.

(** ** The regular expressions of [sanitizeContent] *)

(** A quote, white space, a plus sign, white space, and an optional
    quote: the residue of a string concatenation.  The two runs of white
    space are greedy; since neither the plus sign nor a quote is white
    space, no backtracking is involved. *)
Definition concatArtifact : matcher := fun _ rest =>
  match rest with
  | q :: t =>
      if isQuote q then
        let n1 := spanLength isSpace t in
        match skipn n1 t with
        | p :: t2 =>
            if N.eqb p 43 then
              let n2 := spanLength isSpace t2 in
              let n3 := match skipn n2 t2 with
                        | q2 :: _ => if isQuote q2 then 1%nat else O
                        | [] => O
                        end in
              Some (1 + n1 + 1 + n2 + n3)%nat
            else None
        | [] => None
        end
      else None
  | [] => None
  end.

(** With the [m] flag the start-of-line anchor holds at the start of the
    input and after a line terminator, the end-of-line anchor at the end
    of the input and before a line terminator. *)
Definition atLineStart (prev : option N) : bool :=
  match prev with
  | None => true
  | Some c => isLineTerminator c
  end.

Definition atLineEnd (rest : jsstring) : bool :=
  match rest with
  | [] => true
  | c :: _ => isLineTerminator c
  end.

(** Three backticks and [json] at the start of a line, or else three
    backticks at the end of a line. *)
Definition fence : matcher := fun prev rest =>
  if (atLineStart prev && startsWith (js "```json") rest)%bool then Some 7%nat
  else if (startsWith (js "```") rest && atLineEnd (skipn 3 rest))%bool then Some 3%nat
  else None.

(** A quote at the very start of the input, or else a quote at its very
    end (no [m] flag). *)
Definition outerQuote : matcher := fun prev rest =>
  match rest with
  | q :: t =>
      if isQuote q then
        match prev, t with
        | None, _ => Some 1%nat
        | _, [] => Some 1%nat
        | _, _ => None
        end
      else None
  | [] => None
  end.

Definition backtick : matcher := fun _ rest =>
  match rest with
  | c :: _ => if N.eqb c 96 then Some 1%nat else None
  | [] => None
  end.

(** A backslash followed by the letter n. *)
Definition escapedNewline : matcher := fun _ rest =>
  match rest with
  | c :: d :: _ => if (N.eqb c 92 && N.eqb d 110)%bool then Some 2%nat else None
  | _ => None
  end.

(** The chain of [replace] calls and the final [trim], on a string. *)
Definition sanitize (s : jsstring) : jsstring :=
  trim
    (replaceAll escapedNewline [10%N]
      (replaceAll backtick []
        (replaceAll outerQuote []
          (replaceAll fence []
            (replaceAll concatArtifact [] s))))).

(** [sanitizeContent(content)]: the method call [content.replace] throws
    a [TypeError] unless [content] is a string (none of the other values
    of the model has a callable [replace]). *)
Definition sanitizeContent (content : Value) : Completion jsstring :=
  match content with
  | VString s => Normal (sanitize s)
  | VUndefined =>
      Throw (TypeError (js "Cannot read properties of undefined (reading 'replace')"))
  | VNull =>
      Throw (TypeError (js "Cannot read properties of null (reading 'replace')"))
  | _ => Throw (TypeError (js "content.replace is not a function"))
  end.

(** ** The delimiter table *)

(** [PAIRS[c]]; [None] is [undefined]. *)
Definition PAIRS (c : N) : option N :=
  if N.eqb c 123 then Some 125%N
  else if N.eqb c 91 then Some 93%N
  else None.

(** [OPENING.includes(c)] and [CLOSING.includes(c)]. *)
Definition OPENING (c : N) : bool := (N.eqb c 123 || N.eqb c 91)%bool.
Definition CLOSING (c : N) : bool := (N.eqb c 125 || N.eqb c 93)%bool.

(** [PAIRS[c]] used as a string: [undefined] becomes the text
    [undefined] both as the argument of [lastIndexOf] and as the right
    operand of a string concatenation. *)
Definition pairText (c : option N) : jsstring :=
  match c with
  | Some o => match PAIRS o with
              | Some d => [d]
              | None => js "undefined"
              end
  | None => js "undefined"
  end.

(** ** Step 3: the structural scan

    The [for] loop over [i], with [rest] the text from index [i] on.  It
    ends in one of three ways: the [return] of the mismatch branch at
    index [i]; the [break] with [end = i]; or the exhaustion of the text,
    with [end] still [-1] and the stack as it is then. *)
Inductive Scan : Type :=
| Mismatch (i : Z)
| Balanced (end_ : Z)
| Unclosed (stack : list N).

Fixpoint scan (rest : jsstring) (i : Z) (stack : list N) : Scan :=
  match rest with
  | [] => Unclosed stack
  | char :: rest' =>
      if OPENING char then scan rest' (i + 1) (char :: stack)
      else if CLOSING char then
        match stack with
        | [] => Mismatch i
        | last :: stack' =>
            match PAIRS last with
            | Some closer =>
                if N.eqb closer char then
                  match stack' with
                  | [] => Balanced i
                  | _ :: _ => scan rest' (i + 1) stack'
                  end
                else Mismatch i
            | None => Mismatch i
            end
        end
      else scan rest' (i + 1) stack
  end.

(** The comment of a successful repair. *)
Definition repairNote : jsstring :=
  js "One missing closing bracket auto-added. Please verify.".

(** Steps 3 and 4, reached when the fast path has not returned. *)
Definition structural (content : jsstring) (start : Z) : Completion Result :=
  match scan (from content start) start [] with
  | Mismatch i =>
      Normal (failWith (js "Bracket mismatch detected.")
                       (VString (slice content start (i + 1))))
  | Unclosed [last] =>
      let repaired := sliceFrom content start ++ pairText (Some last) in
      parsed <- parseJsonSafely repaired ;;
      Normal
        {| status := if Attempt.success parsed then Check else Fail;
           comments :=
             if Attempt.success parsed
             then repairNote
             else js "Auto-closure attempted but parsing failed: "
                  ++ errorMessage parsed;
           data := if Attempt.success parsed then Attempt.data parsed else VNull;
           raw := if Attempt.success parsed then VNull else VString repaired |}
  | Unclosed _ =>
      Normal (failWith (js "Unbalanced JSON structure.")
                       (VString (sliceFrom content start)))
  | Balanced end_ =>
      let finalCandidate := slice content start (end_ + 1) in
      finalParse <- parseJsonSafely finalCandidate ;;
      Normal
        {| status := if Attempt.success finalParse then Success else Check;
           comments :=
             if Attempt.success finalParse
             then js "JSON successfully extracted and parsed."
             else js "Structurally valid JSON failed to parse: "
                  ++ errorMessage finalParse;
           data := if Attempt.success finalParse then Attempt.data finalParse
                   else VNull;
           raw := if Attempt.success finalParse then VNull
                  else VString finalCandidate |}
  end.

(** Step 1: the index of the first opening delimiter, [-1] if none. *)
Definition findStart (content : jsstring) : Z :=
  let firstObject := indexOf content 123 in
  let firstArray := indexOf content 91 in
  if firstObject =? -1 then firstArray
  else if firstArray =? -1 then firstObject
  else Z.min firstObject firstArray.

(** Step 2: the fast path.  [Some r] when it returns [r], [None] when
    control falls through to the scan. *)
Definition fastPath (content : jsstring) (start : Z) : Completion (option Result) :=
  let expectedClosing := pairText (charAt content start) in
  let lastClosing := lastIndexOf content expectedClosing in
  if lastClosing >? start then
    let candidate := slice content start (lastClosing + 1) in
    parsed <- parseJsonSafely candidate ;;
    if Attempt.success parsed then
      Normal (Some {| status := Success;
                      comments := js "JSON successfully extracted and parsed.";
                      data := Attempt.data parsed;
                      raw := VNull |})
    else Normal None
  else Normal None.

(** The body of [snipJson] from Step 1 on, over the sanitized text. *)
Definition extract (content : jsstring) : Completion Result :=
  let start := findStart content in
  if start =? -1 then Normal (failWith (js "No JSON structure found.") VNull)
  else
    fast <- fastPath content start ;;
    match fast with
    | Some r => Normal r
    | None => structural content start
    end.

(** [snipJson(content)] *)
Definition snipJson (content : Value) : Completion Result :=
  match content with
  | VString s =>
      if isEmpty s
      then Normal (failWith (js "Invalid input: content must be a non-empty string.") VNull)
      else
        content' <- sanitizeContent content ;;
        extract content'
  | _ =>
      Normal (failWith (js "Invalid input: content must be a non-empty string.") VNull)
  end.

End SnipJson.

(* ===================================================================== *)
(** * The JSON engine of [src/snipJson.js]                                *)
(* ===================================================================== *)

Module SrcSnipJson.

(** The object [parseJson] returns:
    [{ success, parsedData, error }]. *)
Module Attempt.
Record t : Type := make {
  success : bool;
  parsedData : Value;
  error : option Error
}.
End Attempt.

(** [parseJson]: [JSON.parse] inside [try]/[catch]. *)
Definition parseJson (data : jsstring) : Completion Attempt.t :=
  match JSON.parse data with
  | Normal v => Normal (Attempt.make true v None)
  | Throw e => Normal (Attempt.make false VNull (Some e))
  | Diverge => Diverge
  end.

Definition errorMessage (a : Attempt.t) : jsstring :=
  match Attempt.error a with
  | Some e => message e
  | None => []
  end.

(** This revision of [sanitizeContent] has two [replace] calls (the
    concatenation residue and the code fences) and the [trim]. *)
Definition sanitize (s : jsstring) : jsstring :=
  trim (replaceAll SnipJson.fence [] (replaceAll SnipJson.concatArtifact [] s)).

(** [sanitizeContent(content)] on a value: the call [content.replace]
    reads a property of [undefined] or [null], or calls the [undefined]
    that a boolean, a number, an array or a plain object has under the
    name [replace]. *)
Definition sanitizeContent (content : Value) : Completion jsstring :=
  match content with
  | VString s => Normal (sanitize s)
  | VUndefined =>
      Throw (TypeError (js "Cannot read properties of undefined (reading 'replace')"))
  | VNull =>
      Throw (TypeError (js "Cannot read properties of null (reading 'replace')"))
  | _ => Throw (TypeError (js "content.replace is not a function"))
  end.

(** [braces], [opening] and [closing]. *)
Definition braces (c : N) : option N := SnipJson.PAIRS c.
Definition opening (c : N) : bool := SnipJson.OPENING c.
Definition closing (c : N) : bool := SnipJson.CLOSING c.

(** The result of [Math.min] over the two candidates: an index or
    [Infinity]. *)
Inductive Index : Type :=
| Finite (i : Z)
| Infinity.

Definition orInfinity (i : Z) : Index := if i >=? 0 then Finite i else Infinity.

Definition minIndex (a b : Index) : Index :=
  match a, b with
  | Finite x, Finite y => Finite (Z.min x y)
  | Finite x, Infinity => Finite x
  | Infinity, other => other
  end.

(** [content[startingBrace]] *)
Definition charAtIndex (content : jsstring) (i : Index) : option N :=
  match i with
  | Finite z => charAt content z
  | Infinity => None
  end.

(** [endingBrace <= startingBrace] *)
Definition leIndex (e : Z) (i : Index) : bool :=
  match i with
  | Finite z => e <=? z
  | Infinity => true
  end.

(** ** Check 2: the loop over the braces

    The loop runs to the end of the text unless the mismatch branch
    returns; [jsonEnd] is the last index visited. *)
Inductive Scan : Type :=
| Mismatch (jsonEnd : Z)
| Done (stack : list N) (jsonEnd : Z).

Fixpoint scan (rest : jsstring) (i : Z) (stack : list N) (jsonEnd : Z) : Scan :=
  match rest with
  | [] => Done stack jsonEnd
  | char :: rest' =>
      let jsonEnd := i in
      let stack := if opening char then char :: stack else stack in
      if closing char then
        match stack with
        | [] => Mismatch jsonEnd
        | pair_ :: stack' =>
            match braces pair_ with
            | Some closer =>
                if N.eqb closer char then scan rest' (i + 1) stack' jsonEnd
                else Mismatch jsonEnd
            | None => Mismatch jsonEnd
            end
        end
      else scan rest' (i + 1) stack jsonEnd
  end.

(** The comment of a successful repair. *)
Definition repairNote : jsstring := js "Added missing closing brace. Parsing passed".

(** Check 2 and what follows it. *)
Definition structural (content : jsstring) (startingBrace : Z) : Completion Result :=
  match scan (from content startingBrace) startingBrace [] (-1) with
  | Mismatch jsonEnd =>
      Normal (failWith (js "Bracket mismatch")
                       (VString (slice content startingBrace (jsonEnd + 1))))
  | Done (_ :: _ :: _) jsonEnd =>
      Normal (failWith (js "Bracket mismatch")
                       (VString (slice content startingBrace (jsonEnd + 1))))
  | Done [last] jsonEnd =>
      let dataParsed :=
        slice content startingBrace (jsonEnd + 1) ++ SnipJson.pairText (Some last) in
      secondParse <- parseJson dataParsed ;;
      Normal
        {| status := if Attempt.success secondParse then Check else Fail;
           comments :=
             js "Added missing closing brace. " ++
             (if Attempt.success secondParse
              then js "Parsing passed"
              else js "But parsing failed. Error: " ++ errorMessage secondParse);
           data := Attempt.parsedData secondParse;
           raw := if Attempt.success secondParse then VNull else VString dataParsed |}
  | Done [] jsonEnd =>
      let dataParsed := slice content startingBrace (jsonEnd + 1) in
      thirdParse <- parseJson dataParsed ;;
      Normal
        {| status := if Attempt.success thirdParse then Success else Check;
           comments :=
             if Attempt.success thirdParse
             then js "JSON successfully extracted and parsed."
             else js "Extracted candidate JSON passed bracket validation but failed to parse. Check result.raw. Error : "
                  ++ errorMessage thirdParse;
           data := if Attempt.success thirdParse then Attempt.parsedData thirdParse
                   else VNull;
           raw := if Attempt.success thirdParse then VNull else VString dataParsed |}
  end.

(** The body of [snipJson] after the call of [sanitizeContent]. *)
Definition extract (content : jsstring) : Completion Result :=
  if isEmpty content
  then Normal (failWith (js "Invalid input: content must be a string.") VNull)
  else
    let startingBrace :=
      minIndex (orInfinity (indexOf content 123)) (orInfinity (indexOf content 91)) in
    let endingBrace :=
      lastIndexOf content (SnipJson.pairText (charAtIndex content startingBrace)) in
    match startingBrace with
    | Infinity => Normal (failWith (js "No valid JSON structure found.") VNull)
    | Finite start =>
        if (leIndex endingBrace startingBrace && negb (endingBrace =? -1))%bool
        then Normal (failWith (js "No valid JSON structure found.") VNull)
        else
          let slice_ := slice content start (endingBrace + 1) in
          firstParse <- parseJson slice_ ;;
          if Attempt.success firstParse then
            Normal {| status := Success;
                      comments := js "JSON successfully extracted and parsed.";
                      data := Attempt.parsedData firstParse;
                      raw := VNull |}
          else structural content start
    end.

(** [snipJson(content)]: the text is sanitized first, whatever
    [content] is. *)
Definition snipJson (content : Value) : Completion Result :=
  content' <- sanitizeContent content ;;
  extract content'.

End SrcSnipJson.

(* ===================================================================== *)
(** * The tag engine of [src/snipByTag.js]                                *)
(* ===================================================================== *)

(** The options object a caller may pass: to [snipByTag] as its second
    argument, to [snipSmart] in place of a format name.  A field that is
    absent is [None]. *)
Record Options : Type := mkOptions {
  format : option jsstring;
  caseSensitive : option bool
}.

Module SnipByTag.

(** The character class of a tag name: a word character, a colon or a
    hyphen. *)
Definition isTagNameChar (c : N) : bool :=
  (isWord c || N.eqb c 58 || N.eqb c 45)%bool.

(** [while (i < content.length && /[\w:-]/.test(content[i])) i++] *)
Definition readName (content : jsstring) (i : Z) : Z :=
  i + Z.of_nat (spanLength isTagNameChar (from content i)).

(** The loop that skips the attributes, with [rest] the text from index
    [i] on.  It stops before a [>], at the end of the text, or after a
    [/>], and yields [isSelfClosing] and the new [i]. *)
Fixpoint skipAttributes (rest : jsstring) (i : Z) : bool * Z :=
  match rest with
  | [] => (false, i)
  | c :: rest' =>
      if N.eqb c 62 then (false, i)
      else if (N.eqb c 47 && match rest' with
                             | d :: _ => N.eqb d 62
                             | [] => false
                             end)%bool
      then (true, i + 2)
      else skipAttributes rest' (i + 1)
  end.

(** [`${last}`] for the result of [stack.pop()]. *)
Definition popText (last : option jsstring) : jsstring :=
  match last with
  | Some t => t
  | None => js "undefined"
  end.

Definition mismatchComment (last : option jsstring) (tagName : jsstring) : jsstring :=
  js "Mismatched closing tag: expected </" ++ popText last
  ++ js "> but found </" ++ tagName ++ js ">.".

(** [snippetStart !== -1 ? content.slice(snippetStart, i) : null] *)
Definition rawSlice (content : jsstring) (snippetStart i : Z) : Value :=
  if snippetStart =? -1 then VNull else VString (slice content snippetStart i).

(** The processing of a tag against the stack: a closing tag pops the
    stack and must find its own name there, a self-closing tag leaves the
    stack alone, any other tag is pushed.  [Unmatched last] is the
    mismatch, with [last] what [stack.pop()] returned ([None] for
    [undefined]). *)
Inductive Processing : Type :=
| Processed (stack : list jsstring)
| Unmatched (last : option jsstring).

Definition processTag (isClosing isSelfClosing : bool) (tagName : jsstring)
           (stack : list jsstring) : Processing :=
  if isClosing then
    match stack with
    | last :: stack' =>
        if jsstring_eqb last tagName then Processed stack' else Unmatched (Some last)
    | [] => Unmatched None
    end
  else if isSelfClosing then Processed stack
  else Processed (tagName :: stack).

(** How the [while] loop is left: by one of its [return] statements, by
    its condition becoming false, or (in the model only) by exhausting
    the bound on its iterations. *)
Inductive Loop : Type :=
| Return (r : Result)
| Exit (stack : list jsstring) (snippetStart : Z)
| OutOfFuel.

(** The lexical part of one iteration, from the [<] at index [i]: the
    optional slash, the tag name, the attributes up to the end of the tag.
    [nameEnd] is the value of [i] after the name has been read (where the
    invalid-name branch returns), [tagEnd] its value after the [>] has
    been consumed. *)
Record Lexed : Type := mkLexed {
  isClosing : bool;
  nameEnd : Z;
  tagNameRaw : jsstring;
  isSelfClosing : bool;
  tagEnd : Z
}.

Definition lexTag (content : jsstring) (i : Z) : Lexed :=
  let i := i + 1 in
  let isClosing := charIs content i 47 in
  let i := if isClosing then i + 1 else i in
  let tagNameStart := i in
  let i := readName content i in
  let nameEnd := i in
  let tagNameRaw := trim (slice content tagNameStart i) in
  let '(isSelfClosing, i) := skipAttributes (from content i) i in
  let i := if charIs content i 62 then i + 1 else i in
  mkLexed isClosing nameEnd tagNameRaw isSelfClosing i.

(** The loop from the state [(i, stack, snippetStart)].  The head of
    [stack] is its top. *)
Fixpoint tagLoop (fuel : nat) (caseSensitive : bool) (content : jsstring)
         (i : Z) (stack : list jsstring) (snippetStart : Z) : Loop :=
  match fuel with
  | O => OutOfFuel
  | S fuel' =>
      if negb (i <? len content) then Exit stack snippetStart
      else if negb (charIs content i 60) then
        tagLoop fuel' caseSensitive content (i + 1) stack snippetStart
      else
        let snippetStart := if snippetStart =? -1 then i else snippetStart in
        let tag := lexTag content i in
        if isEmpty (tagNameRaw tag) then
          Return (failWith (js "Invalid tag name.")
                           (rawSlice content snippetStart (nameEnd tag)))
        else
          let tagName := if caseSensitive then tagNameRaw tag
                         else toLowerCase (tagNameRaw tag) in
          match processTag (isClosing tag) (isSelfClosing tag) tagName stack with
          | Unmatched last =>
              Return (failWith (mismatchComment last tagName)
                               (rawSlice content snippetStart (tagEnd tag)))
          | Processed stack =>
              if (Nat.eqb (length stack) 0 && negb (snippetStart =? -1))%bool then
                Return {| status := Success;
                          comments := js "Valid tag structure found.";
                          data := VString (slice content snippetStart (tagEnd tag));
                          raw := VNull |}
              else tagLoop fuel' caseSensitive content (tagEnd tag) stack snippetStart
          end
  end.

(** The end-of-input handling after the loop. *)
Definition endOfInput (content : jsstring) (stack : list jsstring) (snippetStart : Z)
  : Result :=
  match stack with
  | top :: _ =>
      failWith (js "Unclosed tag <" ++ top ++ js ">.")
               (if snippetStart =? -1 then VNull
                else VString (sliceFrom content snippetStart))
  | [] =>
      if negb (snippetStart =? -1)
      then failWith (js "Incomplete tag structure.")
                    (VString (sliceFrom content snippetStart))
      else failWith (js "No tags found.") VNull
  end.

(** The parameter [{ caseSensitive = false } = {}]: [opts] is [None] when
    the argument is omitted or [undefined], and an options object
    otherwise ([null], which the destructuring pattern rejects with a
    [TypeError], is not an argument of the model). *)
Definition caseSensitiveOf (opts : option Options) : bool :=
  match opts with
  | Some o => match caseSensitive o with
              | Some b => b
              | None => false
              end
  | None => false
  end.

(** [snipByTag(content, options)].  Every iteration of the loop advances
    [i], so one more than the length of the text bounds their number. *)
Definition snipByTag (content : Value) (opts : option Options) : Completion Result :=
  match content with
  | VString s =>
      if isEmpty s
      then Normal (failWith (js "Invalid input: content must be a non-empty string.") VNull)
      else
        match tagLoop (S (length s)) (caseSensitiveOf opts) s 0 [] (-1) with
        | Return r => Normal r
        | Exit stack snippetStart => Normal (endOfInput s stack snippetStart)
        | OutOfFuel => Diverge
        end
  | _ =>
      Normal (failWith (js "Invalid input: content must be a non-empty string.") VNull)
  end.

End SnipByTag.

(* ===================================================================== *)
(** * The dispatcher of [src/index.js]                                    *)
(* ===================================================================== *)

Module Index.

(** The second argument of [snipSmart]: omitted, [null], a format name,
    or an options object. *)
Inductive OptionsArg : Type :=
| Omitted
| NullOptions
| FormatName (name : jsstring)
| OptionsObject (o : Options).

(** [typeof options === "string" ? options : options?.format || "json"],
    with the default value ["json"] of the parameter. *)
Definition formatOf (options : OptionsArg) : jsstring :=
  match options with
  | Omitted => js "json"
  | NullOptions => js "json"
  | FormatName name => name
  | OptionsObject o =>
      match format o with
      | Some f => if isEmpty f then js "json" else f
      | None => js "json"
      end
  end.

(** The body of [snipSmart], with the function bound to the imported
    name [snipJson] as a parameter: the repository holds two revisions of
    that function. *)
Definition dispatch (snipJson : Value -> Completion Result)
           (content : Value) (options : OptionsArg) : Completion Result :=
  let format := formatOf options in
  if jsstring_eqb format (js "json") then snipJson content
  else if jsstring_eqb format (js "tag") then SnipByTag.snipByTag content None
  else
    Normal {| status := Fail;
              comments := js "Invalid format '" ++ format
                          ++ js "'. Expected 'json' or 'tag'.";
              data := VNull;
              raw := content |}.

(** [snipSmart(content, options)]: [import snipJson from "./snipJson.js"]
    binds the function of [src/snipJson.js], the file next to
    [src/index.js]. *)
Definition snipSmart (content : Value) (options : OptionsArg) : Completion Result :=
  dispatch SrcSnipJson.snipJson content options.

(** [snipSmartOrThrow(content, options)] *)
Definition snipSmartOrThrow (content : Value) (options : OptionsArg) : Completion Value :=
  result <- snipSmart content options ;;
  match status result with
  | Success => Normal (data result)
  | _ => Throw (SnipSmartError (comments result) result)
  end.

End Index.

(* ===================================================================== *)
(** * The loop of the tag engine, with its indices kept                   *)
(* ===================================================================== *)

(** [tagRun] is [SnipByTag.tagLoop] with each [return] replaced by the
    indices it slices the text with; [render] builds the returned object
    from them ([TagRunFacts.tagLoop_render]).  It serves to compare runs
    over different texts. *)
Module TagRun.
Import SnipByTag.

Inductive Outcome : Type :=
| Valid (snippetStart tagEnd : Z)
| InvalidName (snippetStart nameEnd : Z)
| Mismatched (last : option jsstring) (tagName : jsstring) (snippetStart tagEnd : Z)
| Ended (stack : list jsstring) (snippetStart : Z)
| Starved.

Fixpoint tagRun (fuel : nat) (caseSensitive : bool) (content : jsstring)
         (i : Z) (stack : list jsstring) (snippetStart : Z) : Outcome :=
  match fuel with
  | O => Starved
  | S fuel' =>
      if negb (i <? len content) then Ended stack snippetStart
      else if negb (charIs content i 60) then
        tagRun fuel' caseSensitive content (i + 1) stack snippetStart
      else
        let snippetStart := if snippetStart =? -1 then i else snippetStart in
        let tag := lexTag content i in
        if isEmpty (tagNameRaw tag) then InvalidName snippetStart (nameEnd tag)
        else
          let tagName := if caseSensitive then tagNameRaw tag
                         else toLowerCase (tagNameRaw tag) in
          match processTag (isClosing tag) (isSelfClosing tag) tagName stack with
          | Unmatched last => Mismatched last tagName snippetStart (tagEnd tag)
          | Processed stack =>
              if (Nat.eqb (length stack) 0 && negb (snippetStart =? -1))%bool
              then Valid snippetStart (tagEnd tag)
              else tagRun fuel' caseSensitive content (tagEnd tag) stack snippetStart
          end
  end.

Definition render (content : jsstring) (o : Outcome) : Loop :=
  match o with
  | Valid snippetStart tagEnd =>
      Return {| status := Success;
                comments := js "Valid tag structure found.";
                data := VString (slice content snippetStart tagEnd);
                raw := VNull |}
  | InvalidName snippetStart nameEnd =>
      Return (failWith (js "Invalid tag name.") (rawSlice content snippetStart nameEnd))
  | Mismatched last tagName snippetStart tagEnd =>
      Return (failWith (mismatchComment last tagName)
                       (rawSlice content snippetStart tagEnd))
  | Ended stack snippetStart => Exit stack snippetStart
  | Starved => OutOfFuel
  end.

(** Moving a run [p] code units to the right: an index [k] becomes
    [p + k], the sentinel [-1] stays. *)
Definition shiftStart (p snippetStart : Z) : Z :=
  if snippetStart =? -1 then -1 else p + snippetStart.

Definition shiftOutcome (p : Z) (o : Outcome) : Outcome :=
  match o with
  | Valid ss j => Valid (shiftStart p ss) (p + j)
  | InvalidName ss j => InvalidName (shiftStart p ss) (p + j)
  | Mismatched last tagName ss j => Mismatched last tagName (shiftStart p ss) (p + j)
  | Ended stack ss => Ended stack (shiftStart p ss)
  | Starved => Starved
  end.

Definition shiftLexed (p : Z) (t : Lexed) : Lexed :=
  mkLexed (isClosing t) (p + nameEnd t) (tagNameRaw t) (isSelfClosing t)
          (p + tagEnd t).

(** [l[0] === c] *)
Definition headIs (l : jsstring) (c : N) : bool :=
  match l with
  | h :: _ => N.eqb h c
  | [] => false
  end.

End TagRun.

(* ===================================================================== *)
(** * The inputs of the documented examples                               *)
(* ===================================================================== *)

(** [jsonInput] and [tagInput] of [examples/use-snipSmart.js]. *)
Definition exampleJsonInput : jsstring := jq "
Here is some content:
{ 'key': 'value', 'open': [1, 2 }
Some other text here.
".

Definition exampleTagInput : jsstring := js "
Random text before
<div><p>Hello <b>World</b></p></div>
Random text after
".

(* ===================================================================== *)
(** * The shape of a result                                               *)
(* ===================================================================== *)

(** [data] and [raw] exclude each other: [data] is populated only with
    status [Success] or [Check] and an empty [raw]; [raw] is populated
    only with status [Fail] or [Check] and an empty [data]. *)
Definition exclusive (r : Result) : Prop :=
  (populated (data r) = true ->
     populated (raw r) = false /\ (status r = Success \/ status r = Check)) /\
  (populated (raw r) = true ->
     populated (data r) = false /\ (status r = Fail \/ status r = Check)).

(** A result that is not a success explains itself. *)
Definition explained (r : Result) : Prop :=
  status r <> Success -> comments r <> [].

(** The results of a JSON engine: a [Check] that carries [data] is the
    one of the repair branch, whose comment is [repairNote]. *)
Definition jsonResult (repairNote : jsstring) (r : Result) : Prop :=
  exclusive r /\ explained r /\
  (status r = Check -> populated (data r) = true -> comments r = repairNote).

(** A call of a JSON engine that returns, and returns such a result. *)
Definition Returns (note : jsstring) (c : Completion Result) : Prop :=
  exists r, c = Normal r /\ jsonResult note r.

(** The comment of the branch of [snipByTag] for a snippet that was
    started, never balanced, and left with an empty stack. *)
Definition incomplete : jsstring := js "Incomplete tag structure.".

(** The results of the tag engine: [data] only with [Success], and never
    the comment above. *)
Definition tagResult (r : Result) : Prop :=
  exclusive r /\
  (status r <> Success -> comments r <> []) /\
  (populated (data r) = true -> status r = Success) /\
  comments r <> incomplete.

(** The state of the loop with respect to the first [<]: either none has
    been met, nothing is on the stack and no snippet has started, or the
    snippet start is the index of the first [<] of the text. *)
Definition startState (content : jsstring) (i : Z) (stack : list jsstring) (ss : Z)
  : Prop :=
  (ss = -1 /\ stack = [] /\ forall j, 0 <= j < i -> charIs content j 60 = false) \/
  (0 <= ss /\ ss = indexOf content 60 /\ charIs content ss 60 = true).

(* ===================================================================== *)
(** * Notions used to state further properties                            *)
(* ===================================================================== *)

(** ** The tag engine *)

(** The indices of a snippet that the loop returns: [ss] is the index of
    the first [<] of the text and [j] lies beyond it, within the text. *)
Definition anchored (d : jsstring) (ss j : Z) : Prop :=
  ss = indexOf d 60 /\ charIs d ss 60 = true /\ ss < j <= len d.

(** What [snipByTag] returns on a non-empty string, from the outcome of
    the loop: the object of a [return] inside the loop, or the one built
    by the end-of-input handling. *)
Definition finish (s : jsstring) (o : TagRun.Outcome) : Completion Result :=
  match TagRun.render s o with
  | SnipByTag.Return r => Normal r
  | SnipByTag.Exit stack ss => Normal (SnipByTag.endOfInput s stack ss)
  | SnipByTag.OutOfFuel => Diverge
  end.

(** ** The sanitizer *)

(** Every match of the expression [m] lies within code units that
    satisfy [p]. *)
Definition consumes (m : matcher) (p : N -> bool) : Prop :=
  forall prev rest k, m prev rest = Some (S k) ->
    forall x, In x (firstn (S k) rest) -> p x = true.

(** Every match of [m] needs a code unit that satisfies [p] in the rest
    of the input. *)
Definition needs (m : matcher) (p : N -> bool) : Prop :=
  forall prev rest k, m prev rest = Some k -> exists x, In x rest /\ p x = true.

(** The code units that a match of one of the expressions of
    [sanitizeContent] can contain, or that [trim] strips: the two quotes,
    white space, the plus sign, the backtick, the backslash and the
    letters j, s, o, n. *)
Definition removable (c : N) : bool :=
  (isQuote c || isSpace c || N.eqb c 43 || N.eqb c 96 || N.eqb c 92
   || N.eqb c 106 || N.eqb c 115 || N.eqb c 111 || N.eqb c 110)%bool.

(** The code units of a text that are not [removable], in their order:
    what is left of the text once every code unit that an expression of
    [sanitizeContent] could match, or [trim] strip, is taken out. *)
Definition kept (s : jsstring) : jsstring :=
  filter (fun c => negb (removable c)) s.

(** [a] immediately followed by [b] somewhere in [l]. *)
Fixpoint hasPair (a b : N) (l : jsstring) : bool :=
  match l with
  | x :: ((y :: _) as t) => (N.eqb x a && N.eqb y b) || hasPair a b t
  | _ => false
  end.

(** ** The structural scans *)

(** The delimiters the scans look at. *)
Definition isBracket (c : N) : bool := (SnipJson.OPENING c || SnipJson.CLOSING c)%bool.

(** Two scans end the same way, whatever the indices: both at a
    mismatch, both balanced, or both with the same delimiters left
    open. *)
Definition sameVerdict (a b : SnipJson.Scan) : Prop :=
  match a, b with
  | SnipJson.Mismatch _, SnipJson.Mismatch _ => True
  | SnipJson.Balanced _, SnipJson.Balanced _ => True
  | SnipJson.Unclosed x, SnipJson.Unclosed y => x = y
  | _, _ => False
  end.

Definition srcSameVerdict (a b : SrcSnipJson.Scan) : Prop :=
  match a, b with
  | SrcSnipJson.Mismatch _, SrcSnipJson.Mismatch _ => True
  | SrcSnipJson.Done x _, SrcSnipJson.Done y _ => x = y
  | _, _ => False
  end.

(** ** The extraction *)

(** The results of Steps 2 to 4 of the revision without a file name over
    a text whose first opening delimiter is at [start], each with the
    span of the text it was made from: a decoded span; a balanced span
    that does not decode; the text from [start] on, closed by the closer
    of the delimiter at [start], decoded or not; a span that ends at a
    mismatched closing delimiter; the text from [start] on with several
    delimiters left open. *)
Definition extraction (content : jsstring) (start : Z) (r : Result) : Prop :=
  (exists e v,
     start < e <= len content /\
     JSON.parse (slice content start e) = Normal v /\
     r = {| status := Success;
            comments := js "JSON successfully extracted and parsed.";
            data := v; raw := VNull |})
  \/
  (exists e m,
     start < e <= len content /\
     JSON.parse (slice content start e) = Throw (SyntaxError m) /\
     r = {| status := Check;
            comments := js "Structurally valid JSON failed to parse: " ++ m;
            data := VNull; raw := VString (slice content start e) |})
  \/
  (exists o closer v,
     charAt content start = Some o /\ SnipJson.PAIRS o = Some closer /\
     JSON.parse (sliceFrom content start ++ [closer]) = Normal v /\
     r = {| status := Check; comments := SnipJson.repairNote; data := v; raw := VNull |})
  \/
  (exists o closer m,
     charAt content start = Some o /\ SnipJson.PAIRS o = Some closer /\
     JSON.parse (sliceFrom content start ++ [closer]) = Throw (SyntaxError m) /\
     r = {| status := Fail;
            comments := js "Auto-closure attempted but parsing failed: " ++ m;
            data := VNull;
            raw := VString (sliceFrom content start ++ [closer]) |})
  \/
  (exists i,
     start < i < len content /\
     r = failWith (js "Bracket mismatch detected.")
                  (VString (slice content start (i + 1))))
  \/
  r = failWith (js "Unbalanced JSON structure.")
               (VString (sliceFrom content start)).

(** The results of Checks 1 and 2 of [src/snipJson.js] over a text whose
    first opening delimiter is at [start] and whose candidate is not
    dismissed, each with the span it was made from: the first slice,
    decoded; the text from [start] on, which does not decode; that text
    closed by the closer of the one delimiter left open, decoded or not;
    a span that ends at a mismatched closing delimiter; that text with
    several delimiters left open. *)
Definition srcExtraction (content : jsstring) (start : Z) (r : Result) : Prop :=
  (exists closer v,
     SnipJson.pairText (charAt content start) = [closer] /\
     start < lastIndexOf content [closer] /\
     JSON.parse (slice content start (lastIndexOf content [closer] + 1)) = Normal v /\
     r = {| status := Success;
            comments := js "JSON successfully extracted and parsed.";
            data := v; raw := VNull |})
  \/
  (exists m,
     JSON.parse (sliceFrom content start) = Throw (SyntaxError m) /\
     r = {| status := Check;
            comments := js "Extracted candidate JSON passed bracket validation but failed to parse. Check result.raw. Error : " ++ m;
            data := VNull; raw := VString (sliceFrom content start) |})
  \/
  (exists last closer v,
     SnipJson.PAIRS last = Some closer /\
     JSON.parse (sliceFrom content start ++ [closer]) = Normal v /\
     r = {| status := Check; comments := SrcSnipJson.repairNote;
            data := v; raw := VNull |})
  \/
  (exists last closer m,
     SnipJson.PAIRS last = Some closer /\
     JSON.parse (sliceFrom content start ++ [closer]) = Throw (SyntaxError m) /\
     r = {| status := Fail;
            comments := js "Added missing closing brace. But parsing failed. Error: " ++ m;
            data := VNull;
            raw := VString (sliceFrom content start ++ [closer]) |})
  \/
  (exists i,
     start < i < len content /\
     r = failWith (js "Bracket mismatch") (VString (slice content start (i + 1))))
  \/
  r = failWith (js "Bracket mismatch") (VString (sliceFrom content start)).

(** ** Check 1 of [src/snipJson.js] *)

(** [endingBrace], for a text whose first opening delimiter is at
    [startingBrace]. *)
Definition endingBrace (content : jsstring) (startingBrace : Z) : Z :=
  lastIndexOf content (SnipJson.pairText (charAt content startingBrace)).

(** [endingBrace <= startingBrace && endingBrace !== -1]: the candidate
    is dismissed. *)
Definition dismissed (content : jsstring) (startingBrace : Z) : bool :=
  ((endingBrace content startingBrace <=? startingBrace)
   && negb (endingBrace content startingBrace =? -1))%bool.

(** The text of the first parse,
    [content.slice(startingBrace, endingBrace + 1)]. *)
Definition firstSlice (content : jsstring) (startingBrace : Z) : jsstring :=
  slice content startingBrace (endingBrace content startingBrace + 1).

(** ** The decoder *)

(** [r] is what is left of [s] after some prefix of it. *)
Definition suffixOf (r s : jsstring) : Prop := exists p, s = p ++ r.

(** [s] is some text, then [closer], then [r]. *)
Definition closedBy (closer : N) (r s : jsstring) : Prop :=
  exists p, s = p ++ closer :: r.

(* ===================================================================== *)
(** * Facts about the run-time model                                      *)
(* ===================================================================== *)

Module JSONFacts.
Import JSON.

Lemma skipSpace_length (s : jsstring) :
  (length (skipSpace s) <= length s)%nat.
Proof.
  induction s as [|c t IH]; simpl; [lia|].
  destruct (isJsonSpace c); simpl; lia.
Qed.

Lemma consParsed_inv (c : N) (p : parsed jsstring) (b r : jsstring) :
  consParsed c p = Parsed b r ->
  exists b', p = Parsed b' r /\ b = c :: b'.
Proof.
  destruct p; simpl; intros H; inversion H; subst; eauto.
Qed.

Lemma consParsed_fuel (c : N) (p : parsed jsstring) :
  consParsed c p = NoFuel -> p = NoFuel.
Proof. destruct p; simpl; congruence. Qed.

(** A string literal never asks for fuel, and it consumes its closing
    quote. *)
Lemma parseStringBody_spec (n : nat) :
  forall s, (length s <= n)%nat ->
    parseStringBody s <> NoFuel /\
    (forall b r, parseStringBody s = Parsed b r -> (length r < length s)%nat).
Proof.
  induction n as [|n IH]; intros s Hlen.
  - destruct s; simpl in *; [|lia]. split; [congruence|intros ? ? H; inversion H].
  - destruct s as [|c t]; simpl.
    { split; [congruence|intros ? ? H; inversion H]. }
    simpl in Hlen.
    destruct (N.eqb c 34).
    { split; [congruence|]. intros b r H. inversion H; subst. lia. }
    destruct (N.eqb c 92).
    + destruct t as [|e t1]; [split; [congruence|intros ? ? H; inversion H]|].
      simpl in Hlen.
      destruct (N.eqb e 117).
      * destruct t1 as [|h1 [|h2 [|h3 [|h4 t2]]]];
          try (split; [congruence|intros ? ? H; inversion H]).
        simpl in Hlen.
        destruct (hex4 h1 h2 h3 h4);
          [|split; [congruence|intros ? ? H; inversion H]].
        destruct (IH t2 ltac:(lia)) as [Hf Hl].
        split.
        -- intros H. apply consParsed_fuel in H. contradiction.
        -- intros b r H. apply consParsed_inv in H as (b' & H & _).
           apply Hl in H. simpl. lia.
      * destruct (simpleEscape e);
          [|split; [congruence|intros ? ? H; inversion H]].
        destruct (IH t1 ltac:(lia)) as [Hf Hl].
        split.
        -- intros H. apply consParsed_fuel in H. contradiction.
        -- intros b r H. apply consParsed_inv in H as (b' & H & _).
           apply Hl in H. simpl. lia.
    + destruct (N.ltb c 32); [split; [congruence|intros ? ? H; inversion H]|].
      destruct (IH t ltac:(lia)) as [Hf Hl].
      split.
      * intros H. apply consParsed_fuel in H. contradiction.
      * intros b r H. apply consParsed_inv in H as (b' & H & _).
        apply Hl in H. simpl. lia.
Qed.

Lemma parseStringBody_fuel (s : jsstring) : parseStringBody s <> NoFuel.
Proof. apply (parseStringBody_spec (length s)). lia. Qed.

Lemma parseStringBody_shrinks (s b r : jsstring) :
  parseStringBody s = Parsed b r -> (length r < length s)%nat.
Proof. apply (parseStringBody_spec (length s)). lia. Qed.

Lemma intPart_pos (s : jsstring) (i : nat) :
  intPart s = Some i -> (1 <= i)%nat /\ s <> [].
Proof.
  destruct s as [|c t]; simpl; [congruence|].
  destruct (N.eqb c 48); [intros H; inversion H; split; [lia|congruence]|].
  destruct (inRange 49 57 c); intros H; inversion H.
  split; [lia|congruence].
Qed.

Lemma numberLength_pos (s : jsstring) (n : nat) :
  numberLength s = Some n -> (1 <= n)%nat /\ s <> [].
Proof.
  unfold numberLength.
  destruct (intPart _) as [i|] eqn:Hi; [|congruence].
  destruct (fracPart _); [|congruence].
  destruct (expPart _); [|congruence].
  intros H. inversion H; subst.
  apply intPart_pos in Hi as [Hi Hne].
  split; [lia|]. intros ->. simpl in Hne. congruence.
Qed.

Lemma parseNumber_spec (s : jsstring) :
  parseNumber s <> NoFuel /\
  (forall v r, parseNumber s = Parsed v r -> (length r < length s)%nat).
Proof.
  unfold parseNumber.
  destruct (numberLength s) as [n|] eqn:Hn.
  - split; [congruence|]. intros v r H. inversion H; subst.
    apply numberLength_pos in Hn as [Hn Hs].
    rewrite length_skipn. destruct s; [congruence|cbn [length]; lia].
  - split; [destruct s as [|? [|? ?]]; congruence|].
    intros v r H. destruct s as [|? [|? ?]]; inversion H.
Qed.

Ltac break_hyp H :=
  match type of H with
  | context [match ?x with _ => _ end] => destruct x eqn:?
  end.

Ltac break_goal :=
  match goal with
  | |- context [match ?x with _ => _ end] => destruct x eqn:?
  end.

Lemma skipSpace_cons_length (s r : jsstring) (d : N) :
  skipSpace s = d :: r -> (S (length r) <= length s)%nat.
Proof.
  intros H. pose proof (skipSpace_length s) as L. rewrite H in L. exact L.
Qed.

(** Whatever the fuel, a value that is parsed takes at least one code
    unit of the input. *)
Lemma parse_shrinks (fuel : nat) :
  (forall s v r, parseValue fuel s = Parsed v r -> (length r < length s)%nat) /\
  (forall s acc v r, parseElements fuel s acc = Parsed v r ->
                     (length r < length s)%nat) /\
  (forall s acc v r, parseMembers fuel s acc = Parsed v r ->
                     (length r < length s)%nat).
Proof.
  induction fuel as [|f (IHv & IHe & IHm)].
  { repeat split; intros; simpl in *; discriminate. }
  split; [|split].
  - intros s v r H. simpl in H.
    destruct s as [|c t]; [discriminate|].
    destruct (N.eqb c 123).
    { destruct (skipSpace t) as [|d r0] eqn:Hs; [discriminate|].
      apply skipSpace_cons_length in Hs.
      destruct (N.eqb d 125).
      - inversion H; subst. simpl. lia.
      - apply IHm in H. simpl in *. lia. }
    destruct (N.eqb c 91).
    { destruct (skipSpace t) as [|d r0] eqn:Hs; [discriminate|].
      apply skipSpace_cons_length in Hs.
      destruct (N.eqb d 93).
      - inversion H; subst. simpl. lia.
      - apply IHe in H. simpl in *. lia. }
    destruct (N.eqb c 34).
    { destruct (parseStringBody t) eqn:Hb; inversion H; subst.
      apply parseStringBody_shrinks in Hb. simpl. lia. }
    destruct (N.eqb c 45 || isDigit c)%bool.
    { apply (proj2 (parseNumber_spec (c :: t))) in H. exact H. }
    repeat break_hyp H; inversion H; subst;
      simpl; try rewrite length_skipn; simpl; lia.
  - intros s acc v r H. simpl in H.
    destruct (parseValue f s) as [v0 r0| |] eqn:Hv; try discriminate.
    apply IHv in Hv.
    destruct (skipSpace r0) as [|d r1] eqn:Hs; [discriminate|].
    apply skipSpace_cons_length in Hs.
    destruct (N.eqb d 44).
    { apply IHe in H. pose proof (skipSpace_length r1). lia. }
    destruct (N.eqb d 93); inversion H; subst. lia.
  - intros s acc v r H. simpl in H.
    destruct s as [|q t]; [discriminate|].
    destruct (N.eqb q 34); [|discriminate].
    destruct (parseStringBody t) as [k r0| |] eqn:Hb; try discriminate.
    apply parseStringBody_shrinks in Hb.
    destruct (skipSpace r0) as [|d r1] eqn:Hs; [discriminate|].
    apply skipSpace_cons_length in Hs.
    destruct (N.eqb d 58); [|discriminate].
    destruct (parseValue f (skipSpace r1)) as [v0 r2| |] eqn:Hv; try discriminate.
    apply IHv in Hv. pose proof (skipSpace_length r1).
    destruct (skipSpace r2) as [|e r3] eqn:Hs2; [discriminate|].
    apply skipSpace_cons_length in Hs2.
    destruct (N.eqb e 44).
    { apply IHm in H. pose proof (skipSpace_length r3). simpl. lia. }
    destruct (N.eqb e 125); inversion H; subst. simpl. lia.
Qed.

(** With fuel above twice the length of the input the parser never runs
    out of it. *)
Lemma parse_enough_fuel (fuel : nat) :
  (forall s, (2 * length s + 1 <= fuel)%nat -> parseValue fuel s <> NoFuel) /\
  (forall s acc, (2 * length s + 2 <= fuel)%nat ->
                 parseElements fuel s acc <> NoFuel) /\
  (forall s acc, (2 * length s + 2 <= fuel)%nat ->
                 parseMembers fuel s acc <> NoFuel).
Proof.
  induction fuel as [|f (IHv & IHe & IHm)].
  { repeat split; intros; simpl in *; lia. }
  destruct (parse_shrinks f) as (Sv & Se & Sm).
  split; [|split].
  - intros s Hf. simpl.
    destruct s as [|c t]; [congruence|]. cbn [length] in Hf.
    destruct (N.eqb c 123).
    { destruct (skipSpace t) as [|d r0] eqn:Hs; [congruence|].
      apply skipSpace_cons_length in Hs.
      destruct (N.eqb d 125); [congruence|].
      apply IHm. cbn [length]. lia. }
    destruct (N.eqb c 91).
    { destruct (skipSpace t) as [|d r0] eqn:Hs; [congruence|].
      apply skipSpace_cons_length in Hs.
      destruct (N.eqb d 93); [congruence|].
      apply IHe. cbn [length]. lia. }
    destruct (N.eqb c 34).
    { pose proof (parseStringBody_fuel t).
      destruct (parseStringBody t); congruence. }
    destruct (N.eqb c 45 || isDigit c)%bool.
    { apply parseNumber_spec. }
    repeat break_goal; congruence.
  - intros s acc Hf. simpl.
    pose proof (IHv s ltac:(lia)) as Hn.
    destruct (parseValue f s) as [v0 r0| |] eqn:Hv; try congruence.
    apply Sv in Hv.
    destruct (skipSpace r0) as [|d r1] eqn:Hs; [congruence|].
    apply skipSpace_cons_length in Hs.
    destruct (N.eqb d 44).
    { apply IHe. pose proof (skipSpace_length r1). lia. }
    destruct (N.eqb d 93); congruence.
  - intros s acc Hf. simpl.
    destruct s as [|q t]; [congruence|]. cbn [length] in Hf.
    destruct (N.eqb q 34); [|congruence].
    pose proof (parseStringBody_fuel t) as Hb0.
    destruct (parseStringBody t) as [k r0| |] eqn:Hb; try congruence.
    apply parseStringBody_shrinks in Hb.
    destruct (skipSpace r0) as [|d r1] eqn:Hs; [congruence|].
    apply skipSpace_cons_length in Hs.
    destruct (N.eqb d 58); [|congruence].
    pose proof (skipSpace_length r1).
    pose proof (IHv (skipSpace r1) ltac:(lia)) as Hn.
    destruct (parseValue f (skipSpace r1)) as [v0 r2| |] eqn:Hv; try congruence.
    apply Sv in Hv.
    destruct (skipSpace r2) as [|e r3] eqn:Hs2; [congruence|].
    apply skipSpace_cons_length in Hs2.
    destruct (N.eqb e 44).
    { apply IHm. pose proof (skipSpace_length r3). lia. }
    destruct (N.eqb e 125); congruence.
Qed.

(** [JSON.parse] returns a value or throws a [SyntaxError]. *)
Lemma parse_terminates (text : jsstring) :
  (exists v, parse text = Normal v) \/
  (exists m, parse text = Throw (SyntaxError m)).
Proof.
  unfold parse.
  pose proof (proj1 (parse_enough_fuel (S (2 * length text))) (skipSpace text)) as H.
  pose proof (skipSpace_length text).
  destruct (parseValue _ _) as [v r|m|].
  - destruct (skipSpace r); eauto.
  - eauto.
  - exfalso. apply H; [lia|reflexivity].
Qed.

End JSONFacts.

(** ** Strings *)

Module JSFacts.

Lemma len_app (a b : jsstring) : len (a ++ b) = len a + len b.
Proof. unfold len. rewrite length_app. lia. Qed.

Lemma len_nonneg (s : jsstring) : 0 <= len s.
Proof. unfold len. lia. Qed.

Lemma len_firstn (n : nat) (s : jsstring) : len (firstn n s) = Z.min (Z.of_nat n) (len s).
Proof. unfold len. rewrite length_firstn. lia. Qed.

(** Reading [s[x]] is reading the head of the text from [x] on. *)
Lemma charIs_from (s : jsstring) (x : Z) (c : N) :
  0 <= x -> charIs s x c = TagRun.headIs (from s x) c.
Proof.
  intros Hx. unfold charIs, charAt, from, TagRun.headIs.
  assert ((x <? 0) = false) as -> by (apply Z.ltb_ge; lia).
  rewrite <- hd_error_skipn.
  destruct (skipn (Z.to_nat x) s); reflexivity.
Qed.

Lemma from_length (s : jsstring) (x : Z) :
  0 <= x -> len (from s x) = Z.max 0 (len s - x).
Proof. unfold from, len. intros H. rewrite length_skipn. lia. Qed.

(** ** A text behind a prefix *)

Lemma from_app_shift (pre d : jsstring) (x : Z) :
  0 <= x -> from (pre ++ d) (len pre + x) = from d x.
Proof.
  intros Hx. unfold from, len. rewrite skipn_app.
  rewrite skipn_all2 by lia. simpl. f_equal. lia.
Qed.

Lemma charIs_app_shift (pre d : jsstring) (x : Z) (c : N) :
  0 <= x -> charIs (pre ++ d) (len pre + x) c = charIs d x c.
Proof.
  intros Hx. rewrite !charIs_from by (pose proof (len_nonneg pre); lia).
  rewrite from_app_shift by exact Hx. reflexivity.
Qed.

Lemma slice_app_shift (pre d : jsstring) (a b : Z) :
  0 <= a -> 0 <= b ->
  slice (pre ++ d) (len pre + a) (len pre + b) = slice d a b.
Proof.
  intros Ha Hb. unfold slice, clampIndex. rewrite len_app.
  pose proof (len_nonneg pre) as Hp. pose proof (len_nonneg d) as Hd.
  assert ((len pre + a <? 0) = false) as -> by (apply Z.ltb_ge; lia).
  assert ((len pre + b <? 0) = false) as -> by (apply Z.ltb_ge; lia).
  assert ((a <? 0) = false) as -> by (apply Z.ltb_ge; lia).
  assert ((b <? 0) = false) as -> by (apply Z.ltb_ge; lia).
  replace (Z.min (len pre + a) (len pre + len d)) with (len pre + Z.min a (len d)) by lia.
  replace (Z.min (len pre + b) (len pre + len d)) with (len pre + Z.min b (len d)) by lia.
  pose proof (from_app_shift pre d (Z.min a (len d)) ltac:(lia)) as Hf.
  unfold from in Hf. rewrite Hf. f_equal. lia.
Qed.

(** ** A text cut after [n] code units *)

Lemma from_firstn (n : nat) (d : jsstring) (x : Z) :
  from (firstn n d) x = firstn (n - Z.to_nat x) (from d x).
Proof. unfold from. apply skipn_firstn_comm. Qed.

Lemma headIs_firstn (m : nat) (l : jsstring) (c : N) :
  TagRun.headIs (firstn m l) c = (negb (Nat.eqb m 0) && TagRun.headIs l c)%bool.
Proof. destruct m, l; reflexivity. Qed.

Lemma charIs_firstn (n : nat) (d : jsstring) (x : Z) (c : N) :
  0 <= x ->
  charIs (firstn n d) x c = ((x <? Z.of_nat n) && charIs d x c)%bool.
Proof.
  intros Hx. rewrite !charIs_from by exact Hx.
  rewrite from_firstn, headIs_firstn.
  destruct (Z.ltb_spec x (Z.of_nat n)).
  - replace (Nat.eqb (n - Z.to_nat x) 0) with false; [reflexivity|].
    symmetry. apply Nat.eqb_neq. lia.
  - replace (Nat.eqb (n - Z.to_nat x) 0) with true; [reflexivity|].
    symmetry. apply Nat.eqb_eq. lia.
Qed.

Lemma slice_firstn (n : nat) (d : jsstring) (a b : Z) :
  0 <= a -> 0 <= b <= Z.of_nat n ->
  slice (firstn n d) a b = slice d a b.
Proof.
  intros Ha Hb. unfold slice, clampIndex. rewrite len_firstn.
  pose proof (len_nonneg d) as Hd.
  assert ((a <? 0) = false) as -> by (apply Z.ltb_ge; lia).
  assert ((b <? 0) = false) as -> by (apply Z.ltb_ge; lia).
  rewrite skipn_firstn_comm, firstn_firstn.
  destruct (Z.le_gt_cases a b) as [Hab|Hab].
  - replace (Z.min a (Z.min (Z.of_nat n) (len d))) with (Z.min a (len d)) by lia.
    replace (Z.min b (Z.min (Z.of_nat n) (len d))) with (Z.min b (len d)) by lia.
    f_equal. lia.
  - replace (Z.to_nat (Z.min b (Z.min (Z.of_nat n) (len d))
                       - Z.min a (Z.min (Z.of_nat n) (len d)))) with 0%nat by lia.
    replace (Z.to_nat (Z.min b (len d) - Z.min a (len d))) with 0%nat by lia.
    reflexivity.
Qed.

Lemma spanLength_firstn (p : N -> bool) (m : nat) (l : jsstring) :
  spanLength p (firstn m l) = Nat.min m (spanLength p l).
Proof.
  revert m. induction l as [|c t IH]; intros [|m]; simpl; try reflexivity.
  destruct (p c); [rewrite IH|]; reflexivity.
Qed.

Lemma spanLength_le (p : N -> bool) (l : jsstring) :
  (spanLength p l <= length l)%nat.
Proof. induction l as [|c t IH]; simpl; [lia|]. destruct (p c); lia. Qed.

End JSFacts.

(** ** Results of the engines *)

Lemma exclusive_failWith (msg : jsstring) (v : Value) : exclusive (failWith msg v).
Proof.
  split; simpl; intros H; [discriminate|]. split; [reflexivity|now left].
Qed.

Lemma exclusive_data (st : Status) (msg : jsstring) (v : Value) :
  st = Success \/ st = Check ->
  exclusive {| status := st; comments := msg; data := v; raw := VNull |}.
Proof.
  intros Hst. split; simpl; intros H; [|discriminate]. split; [reflexivity|exact Hst].
Qed.

Lemma exclusive_raw (st : Status) (msg : jsstring) (v : Value) :
  st = Fail \/ st = Check ->
  exclusive {| status := st; comments := msg; data := VNull; raw := v |}.
Proof.
  intros Hst. split; simpl; intros H; [discriminate|]. split; [reflexivity|exact Hst].
Qed.

Create HintDb results.
#[local] Hint Resolve exclusive_failWith exclusive_data exclusive_raw : results.

Lemma jsonResult_fail (note msg : jsstring) (v : Value) :
  msg <> [] -> jsonResult note (failWith msg v).
Proof.
  intros Hm. split; [auto with results|]. split; [intros _; exact Hm|].
  simpl. discriminate.
Qed.

Lemma jsonResult_success (note msg : jsstring) (v : Value) :
  jsonResult note {| status := Success; comments := msg; data := v; raw := VNull |}.
Proof.
  split; [auto with results|]. split; [intros H; simpl in H; congruence|].
  simpl. discriminate.
Qed.

Lemma jsonResult_repaired (note : jsstring) (v : Value) :
  note <> [] ->
  jsonResult note {| status := Check; comments := note; data := v; raw := VNull |}.
Proof.
  intros Hn. split; [auto with results|].
  split; [intros _; exact Hn|intros _ _; reflexivity].
Qed.

Lemma jsonResult_undecodable (note msg : jsstring) (v : Value) :
  msg <> [] ->
  jsonResult note {| status := Check; comments := msg; data := VNull; raw := v |}.
Proof.
  intros Hm. split; [auto with results|]. split; [intros _; exact Hm|].
  simpl. discriminate.
Qed.

Lemma jsonResult_raw (note msg : jsstring) (v : Value) :
  msg <> [] ->
  jsonResult note {| status := Fail; comments := msg; data := VNull; raw := v |}.
Proof. apply jsonResult_fail. Qed.

Module SnipJsonFacts.
Import SnipJson.

(** [parseJsonSafely] always returns: with the decoded value, or with the
    [SyntaxError] it caught. *)
Lemma parseJsonSafely_cases (text : jsstring) :
  (exists v, JSON.parse text = Normal v /\
             parseJsonSafely text = Normal (Attempt.make true v None)) \/
  (exists m, JSON.parse text = Throw (SyntaxError m) /\
             parseJsonSafely text =
               Normal (Attempt.make false VNull (Some (SyntaxError m)))).
Proof.
  unfold parseJsonSafely.
  destruct (JSONFacts.parse_terminates text) as [[v H]|[m H]]; rewrite H; eauto.
Qed.


Lemma fastPath_returns (content : jsstring) (start : Z) :
  fastPath content start = Normal None \/
  exists v, fastPath content start =
            Normal (Some {| status := Success;
                            comments := js "JSON successfully extracted and parsed.";
                            data := v; raw := VNull |}).
Proof.
  unfold fastPath.
  destruct (_ >? _); [|now left].
  destruct (parseJsonSafely_cases
              (slice content start
                 (lastIndexOf content (pairText (charAt content start)) + 1)))
    as [(v & _ & H)|(m & _ & H)]; rewrite H; simpl; eauto.
Qed.



(** ** The structural scan *)

(** A scan that ends balanced at [e] has read the text up to [e] and
    nothing else: whatever follows index [e] can be replaced. *)
Lemma scan_balanced_prefix (rest : jsstring) :
  forall i stack e,
    scan rest i stack = Balanced e ->
    i <= e < i + len rest /\
    forall tail,
      scan (firstn (Z.to_nat (e - i + 1)) rest ++ tail) i stack = Balanced e.
Proof.
  unfold len.
  induction rest as [|c rest' IH]; intros i stack e H; [discriminate|].
  assert (Hstep : i + 1 <= e ->
            firstn (Z.to_nat (e - i + 1)) (c :: rest')
            = c :: firstn (Z.to_nat (e - (i + 1) + 1)) rest').
  { intros Hle.
    replace (Z.to_nat (e - i + 1)) with (S (Z.to_nat (e - (i + 1) + 1))) by lia.
    reflexivity. }
  cbn [length]. simpl in H.
  destruct (OPENING c) eqn:Ho.
  { apply IH in H as [Hb Ht]. split; [lia|]. intros tail.
    rewrite Hstep by lia. simpl. rewrite Ho. apply Ht. }
  destruct (CLOSING c) eqn:Hc.
  - destruct stack as [|last stack']; [discriminate|].
    destruct (PAIRS last) as [closer|] eqn:Hp; [|discriminate].
    destruct (N.eqb closer c) eqn:He; [|discriminate].
    destruct stack' as [|x stack''].
    + inversion H; subst. split; [lia|]. intros tail.
      replace (Z.to_nat (e - e + 1)) with 1%nat by lia.
      simpl. rewrite Ho, Hc, Hp, He. reflexivity.
    + apply IH in H as [Hb Ht]. split; [lia|]. intros tail.
      rewrite Hstep by lia. simpl. rewrite Ho, Hc, Hp, He. apply Ht.
  - apply IH in H as [Hb Ht]. split; [lia|]. intros tail.
    rewrite Hstep by lia. simpl. rewrite Ho, Hc. apply Ht.
Qed.

(** Before the index at which it ends balanced the scan has a non-empty
    stack: cut anywhere earlier, the text is unclosed. *)
Lemma scan_balanced_first (rest : jsstring) :
  forall i stack e,
    stack <> [] ->
    scan rest i stack = Balanced e ->
    forall n, (n < Z.to_nat (e - i + 1))%nat ->
      exists open_, open_ <> [] /\ scan (firstn n rest) i stack = Unclosed open_.
Proof.
  induction rest as [|c rest' IH]; intros i stack e Hne H n Hn; [discriminate|].
  destruct n as [|n']; [exists stack; split; [exact Hne|reflexivity]|].
  pose proof (scan_balanced_prefix _ _ _ _ H) as [Hb _].
  simpl in H |- *.
  destruct (OPENING c).
  { eapply IH; [discriminate|exact H|].
    pose proof (scan_balanced_prefix _ _ _ _ H) as [Hb' _]. lia. }
  destruct (CLOSING c).
  - destruct stack as [|last stack']; [discriminate|].
    destruct (PAIRS last) as [closer|]; [|discriminate].
    destruct (N.eqb closer c); [|discriminate].
    destruct stack' as [|x stack''].
    + inversion H; subst. lia.
    + eapply IH; [discriminate|exact H|].
      pose proof (scan_balanced_prefix _ _ _ _ H) as [Hb' _]. lia.
  - eapply IH; [exact Hne|exact H|].
    pose proof (scan_balanced_prefix _ _ _ _ H) as [Hb' _]. lia.
Qed.

End SnipJsonFacts.

Module SrcSnipJsonFacts.
Import SrcSnipJson.

Lemma parseJson_cases (text : jsstring) :
  (exists v, JSON.parse text = Normal v /\
             parseJson text = Normal (Attempt.make true v None)) \/
  (exists m, JSON.parse text = Throw (SyntaxError m) /\
             parseJson text =
               Normal (Attempt.make false VNull (Some (SyntaxError m)))).
Proof.
  unfold parseJson.
  destruct (JSONFacts.parse_terminates text) as [[v H]|[m H]]; rewrite H; eauto.
Qed.

Lemma src_structural_returns (content : jsstring) (start : Z) :
  Returns repairNote (structural content start).
Proof.
  unfold structural, Returns.
  destruct (scan _ _ _ _) as [i|[|last [|? ?]] e].
  - eexists; split; [reflexivity|]. apply jsonResult_fail. discriminate.
  - destruct (parseJson_cases (slice content start (e + 1)))
      as [(v & _ & H)|(m & _ & H)]; rewrite H; simpl;
      (eexists; split; [reflexivity|]).
    + apply jsonResult_success.
    + apply jsonResult_undecodable. discriminate.
  - destruct (parseJson_cases
                (slice content start (e + 1) ++ SnipJson.pairText (Some last)))
      as [(v & _ & H)|(m & _ & H)]; rewrite H; simpl;
      (eexists; split; [reflexivity|]).
    + apply jsonResult_repaired. discriminate.
    + apply jsonResult_raw. discriminate.
  - eexists; split; [reflexivity|]. apply jsonResult_fail. discriminate.
Qed.

Lemma src_extract_returns (content : jsstring) :
  Returns repairNote (extract content).
Proof.
  assert (Hfail : forall m, m <> [] ->
            Returns repairNote (Normal (failWith m VNull))).
  { intros m Hm. eexists; split; [reflexivity|]. apply jsonResult_fail. exact Hm. }
  unfold extract.
  destruct (isEmpty content); [apply Hfail; discriminate|].
  destruct (minIndex _ _) as [start|]; [|apply Hfail; discriminate].
  destruct (_ && _)%bool; [apply Hfail; discriminate|].
  match goal with
  | |- context [parseJson ?t] =>
      destruct (parseJson_cases t) as [(v & _ & H)|(m & _ & H)]; rewrite H; simpl
  end.
  - eexists; split; [reflexivity|]. apply jsonResult_success.
  - apply src_structural_returns.
Qed.

(** On a string the engine of [src/snipJson.js] returns a result. *)
Lemma src_snipJson_returns_on_strings (s : jsstring) :
  Returns repairNote (snipJson (VString s)).
Proof. unfold snipJson. simpl. apply src_extract_returns. Qed.

(** On the other values ([undefined], [null], a boolean, a number, an
    array, a plain object) it throws the [TypeError] of the call
    [content.replace] in [sanitizeContent], before its own input check is
    reached. *)
Lemma src_snipJson_throws_on_non_strings (content : Value) :
  (forall s, content <> VString s) ->
  exists m, snipJson content = Throw (TypeError m).
Proof.
  intros H. unfold snipJson.
  destruct content; simpl; eauto.
  exfalso. eapply H. reflexivity.
Qed.

End SrcSnipJsonFacts.

Module SnipByTagFacts.
Import SnipByTag.

Lemma skipAttributes_ge (rest : jsstring) :
  forall i, i <= snd (skipAttributes rest i).
Proof.
  induction rest as [|c rest' IH]; intros i; simpl; [lia|].
  destruct (N.eqb c 62); simpl; [lia|].
  destruct (_ && _)%bool; simpl; [lia|].
  specialize (IH (i + 1)). lia.
Qed.

Lemma readName_ge (content : jsstring) (i : Z) : i <= readName content i.
Proof. unfold readName. lia. Qed.

(** An iteration that meets a [<] moves [i] forward. *)
Lemma lexTag_advances (content : jsstring) (i : Z) :
  i + 1 <= nameEnd (lexTag content i) /\
  nameEnd (lexTag content i) <= tagEnd (lexTag content i).
Proof.
  unfold lexTag.
  set (i2 := if charIs content (i + 1) 47 then i + 1 + 1 else i + 1).
  assert (i + 1 <= i2) by (unfold i2; destruct (charIs _ _ _); lia).
  pose proof (readName_ge content i2).
  pose proof (skipAttributes_ge (from content (readName content i2)) (readName content i2)).
  destruct (skipAttributes _ _) as [sc i4]; simpl in *.
  destruct (charIs content i4 62); simpl; lia.
Qed.

(** One unfolding of the loop. *)
Lemma tagLoop_unfold (fuel : nat) (cs : bool) (content : jsstring)
      (i : Z) (stack : list jsstring) (ss : Z) :
  tagLoop (S fuel) cs content i stack ss =
    if negb (i <? len content) then Exit stack ss
    else if negb (charIs content i 60) then tagLoop fuel cs content (i + 1) stack ss
    else
      let ss' := if ss =? -1 then i else ss in
      let tag := lexTag content i in
      if isEmpty (tagNameRaw tag) then
        Return (failWith (js "Invalid tag name.") (rawSlice content ss' (nameEnd tag)))
      else
        let tagName := if cs then tagNameRaw tag else toLowerCase (tagNameRaw tag) in
        match processTag (isClosing tag) (isSelfClosing tag) tagName stack with
        | Unmatched last =>
            Return (failWith (mismatchComment last tagName)
                             (rawSlice content ss' (tagEnd tag)))
        | Processed stack' =>
            if (Nat.eqb (length stack') 0 && negb (ss' =? -1))%bool then
              Return {| status := Success;
                        comments := js "Valid tag structure found.";
                        data := VString (slice content ss' (tagEnd tag));
                        raw := VNull |}
            else tagLoop fuel cs content (tagEnd tag) stack' ss'
        end.
Proof. reflexivity. Qed.

(** Case analysis on one iteration of the loop, leaving the recursive
    calls folded. *)
Ltac loop_step :=
  rewrite tagLoop_unfold; cbv zeta;
  repeat match goal with
         | |- context [if negb ?b then _ else _] => destruct b eqn:?; cbn [negb]
         | |- context [if isEmpty ?t then _ else _] => destruct (isEmpty t) eqn:?
         | |- context [match processTag ?a ?b ?c ?d with _ => _ end] =>
             destruct (processTag a b c d) eqn:?
         | |- context [if (Nat.eqb ?n 0 && ?c)%bool then _ else _] =>
             destruct (Nat.eqb n 0 && c)%bool eqn:?
         end.

(** The bound on the iterations is never reached. *)
Lemma tagLoop_enough_fuel (fuel : nat) :
  forall cs content i stack ss,
    (Z.to_nat (len content - i) < fuel)%nat ->
    tagLoop fuel cs content i stack ss <> OutOfFuel.
Proof.
  induction fuel as [|f IH]; intros cs content i stack ss Hf; [lia|].
  loop_step; try congruence;
    repeat match goal with
           | H : (_ <? _) = true |- _ => apply Z.ltb_lt in H
           end.
  all: apply IH; pose proof (lexTag_advances content i); lia.
Qed.

Lemma tagResult_fail (msg : jsstring) (v : Value) :
  msg <> [] -> msg <> incomplete -> tagResult (failWith msg v).
Proof.
  intros H1 H2. unfold tagResult, explained. simpl.
  split; [auto with results|]. split; [auto|]. split; [discriminate|exact H2].
Qed.

Lemma tagResult_success (v : Value) :
  tagResult {| status := Success; comments := js "Valid tag structure found.";
               data := v; raw := VNull |}.
Proof.
  unfold tagResult, explained. simpl.
  split; [auto with results|]. split; [congruence|]. split; [auto|discriminate].
Qed.

(** What the [return] statements of the loop return. *)
Lemma tagLoop_returns (fuel : nat) :
  forall cs content i stack ss r,
    tagLoop fuel cs content i stack ss = Return r -> tagResult r.
Proof.
  induction fuel as [|f IH]; intros cs content i stack ss r; [discriminate|].
  loop_step; try discriminate; try (apply IH);
    intros H; inversion H; subst; clear H.
  - apply tagResult_fail; discriminate.
  - apply tagResult_success.
  - apply tagResult_fail; unfold mismatchComment; discriminate.
Qed.

(** The loop is left with a non-empty stack or without a snippet start:
    after every tag that does not return, the stack is non-empty. *)
Lemma tagLoop_exit (fuel : nat) :
  forall cs content i stack ss stack' ss',
    (stack = [] -> ss = -1) ->
    tagLoop fuel cs content i stack ss = Exit stack' ss' ->
    stack' = [] -> ss' = -1.
Proof.
  induction fuel as [|f IH]; intros cs content i stack ss stack' ss' Hinv;
    [discriminate|].
  loop_step; try discriminate.
  - apply IH. intros ->. simpl in *.
    destruct ((if ss =? -1 then i else ss) =? -1) eqn:E; [|discriminate].
    apply Z.eqb_eq in E. exact E.
  - apply IH. exact Hinv.
  - intros H; inversion H; subst. exact Hinv.
Qed.

(** [snipByTag] returns a result for every value and every options
    object. *)
Lemma snipByTag_returns (content : Value) (opts : option Options) :
  exists r, snipByTag content opts = Normal r /\ tagResult r.
Proof.
  assert (Hinv : exists r,
            Normal (failWith (js "Invalid input: content must be a non-empty string.")
                             VNull) = Normal r /\ tagResult r).
  { eexists; split; [reflexivity|]. apply tagResult_fail; discriminate. }
  unfold snipByTag. destruct content; try exact Hinv.
  destruct (isEmpty s); [exact Hinv|].
  pose proof (tagLoop_enough_fuel (S (length s)) (caseSensitiveOf opts) s 0 [] (-1)) as Hf.
  destruct (tagLoop _ _ _ _ _ _) as [r|stack ss|] eqn:Hl.
  - eexists; split; [reflexivity|]. eapply tagLoop_returns; eassumption.
  - eexists; split; [reflexivity|].
    pose proof (tagLoop_exit _ _ _ _ _ _ _ _ (fun _ => eq_refl) Hl) as Hss.
    unfold endOfInput. destruct stack as [|top rest].
    + rewrite (Hss eq_refl). simpl. apply tagResult_fail; discriminate.
    + apply tagResult_fail; discriminate.
  - exfalso. apply Hf; [unfold len; lia|reflexivity].
Qed.

(** ** The snippet start is the first [<] *)

Lemma charIs_true (s : jsstring) (i : Z) (c : N) :
  charIs s i c = true <-> 0 <= i /\ nth_error s (Z.to_nat i) = Some c.
Proof.
  unfold charIs, charAt. destruct (i <? 0) eqn:E.
  - apply Z.ltb_lt in E. split; [discriminate|lia].
  - apply Z.ltb_ge in E. destruct (nth_error s (Z.to_nat i)) as [x|].
    + split.
      * intros H. apply N.eqb_eq in H. subst. auto.
      * intros [_ H]. inversion H. apply N.eqb_refl.
    + split; [discriminate|intros [_ H]; discriminate].
Qed.

Lemma indexOfFrom_first (c : N) (s : jsstring) :
  forall (n : nat) (k : Z),
    (forall m, (m < n)%nat -> nth_error s m <> Some c) ->
    nth_error s n = Some c ->
    indexOfFrom c s k = k + Z.of_nat n.
Proof.
  induction s as [|x t IH]; intros n k Hbefore Hat.
  - destruct n; discriminate.
  - simpl. destruct n as [|n'].
    + simpl in Hat. inversion Hat; subst. rewrite N.eqb_refl. lia.
    + destruct (N.eqb_spec x c) as [->|Hne].
      * exfalso. apply (Hbefore 0%nat); [lia|reflexivity].
      * rewrite (IH n' (k + 1)); [lia| |exact Hat].
        intros m Hm. apply (Hbefore (S m)). lia.
Qed.

Lemma indexOf_first (s : jsstring) (i : Z) (c : N) :
  (forall j, 0 <= j < i -> charIs s j c = false) ->
  charIs s i c = true ->
  indexOf s c = i.
Proof.
  intros Hbefore Hat. apply charIs_true in Hat as [Hi Hat].
  unfold indexOf. rewrite (indexOfFrom_first c s (Z.to_nat i) 0); [lia| |exact Hat].
  intros m Hm Hc.
  assert (charIs s (Z.of_nat m) c = true) as Ht.
  { apply charIs_true. rewrite Nat2Z.id. split; [lia|exact Hc]. }
  rewrite Hbefore in Ht; [discriminate|lia].
Qed.

Lemma tagLoop_start (fuel : nat) :
  forall cs content i stack ss stack' ss',
    0 <= i ->
    startState content i stack ss ->
    tagLoop fuel cs content i stack ss = Exit stack' ss' ->
    (ss' = -1 /\ stack' = []) \/
    (0 <= ss' /\ ss' = indexOf content 60 /\ charIs content ss' 60 = true).
Proof.
  induction fuel as [|f IH]; intros cs content i stack ss stack' ss' Hi Hst;
    [discriminate|].
  loop_step; try discriminate.
  - apply IH; [pose proof (lexTag_advances content i); lia|].
    right. destruct Hst as [(-> & _ & Hbefore)|(H0 & Heq & Hc)].
    + simpl. split; [exact Hi|]. split; [|assumption].
      symmetry. apply indexOf_first; assumption.
    + assert ((ss =? -1) = false) as -> by (apply Z.eqb_neq; lia). auto.
  - apply IH; [lia|].
    destruct Hst as [(-> & -> & Hbefore)|Hst]; [left|right; exact Hst].
    repeat split; try reflexivity.
    intros j Hj. destruct (Z.eq_dec j i) as [->|Hne]; [assumption|].
    apply Hbefore. lia.
  - intros H; inversion H; subst.
    destruct Hst as [(-> & -> & _)|Hst]; [left; auto|right; exact Hst].
Qed.

End SnipByTagFacts.

(* ===================================================================== *)
(** * The tag engine: end of input                                        *)
(* ===================================================================== *)

Import SnipByTag.

(** C9.  For every text and every configuration the loop of the tag
    engine is never left with an empty stack after a snippet start has
    been recorded (whatever the bound on its iterations), and the engine
    returns a result whose comment is not the one of the "Incomplete tag
    structure." branch: that branch cannot be executed. *)
Theorem incomplete_branch_unreachable (s : jsstring) (opts : option Options) :
  (forall fuel,
     match tagLoop fuel (caseSensitiveOf opts) s 0 [] (-1) with
     | Exit stack snippetStart => ~ (stack = [] /\ snippetStart <> -1)
     | _ => True
     end) /\
  exists r, snipByTag (VString s) opts = Normal r /\
            comments r <> js "Incomplete tag structure.".
Proof.
  split.
  - intros fuel.
    destruct (tagLoop _ _ _ _ _ _) as [r|stack ss|] eqn:Hl; trivial.
    intros [Hs Hss]. apply Hss.
    eapply SnipByTagFacts.tagLoop_exit; [|exact Hl|exact Hs]. reflexivity.
  - destruct (SnipByTagFacts.snipByTag_returns (VString s) opts) as (r & Hr & Ht).
    exists r. split; [exact Hr|]. apply Ht.
Qed.

(** C7.  When the loop of the tag engine reaches the end of the text
    with a non-empty stack, whose top is [top], the engine returns status
    [Fail], the comment "Unclosed tag <top>.", no data, and as raw the
    text from its first [<] (which exists, and is where the snippet
    starts) to its end. *)
Theorem unclosed_tag_reported
        (s : jsstring) (opts : option Options)
        (top : jsstring) (below : list jsstring) (snippetStart : Z) :
  tagLoop (S (length s)) (caseSensitiveOf opts) s 0 [] (-1)
    = Exit (top :: below) snippetStart ->
  snipByTag (VString s) opts =
    Normal {| status := Fail;
              comments := js "Unclosed tag <" ++ top ++ js ">.";
              data := VNull;
              raw := VString (sliceFrom s (indexOf s 60)) |}
  /\ snippetStart = indexOf s 60
  /\ charIs s (indexOf s 60) 60 = true.
Proof.
  intros Hl.
  assert (Hst : 0 <= snippetStart /\ snippetStart = indexOf s 60 /\
                charIs s snippetStart 60 = true).
  { destruct (SnipByTagFacts.tagLoop_start _ _ _ _ _ _ _ _ (Z.le_refl 0)
                (or_introl (conj eq_refl (conj eq_refl
                   (fun j (H : 0 <= j < 0) => ltac:(lia))))) Hl)
      as [[_ Hn]|H]; [discriminate|exact H]. }
  destruct Hst as (H0 & Heq & Hc).
  split; [|split; [exact Heq|rewrite <- Heq; exact Hc]].
  unfold snipByTag. destruct s as [|c t]; [discriminate|].
  cbn [isEmpty]. rewrite Hl. unfold endOfInput.
  assert ((snippetStart =? -1) = false) as -> by (apply Z.eqb_neq; lia).
  rewrite Heq. reflexivity.
Qed.

(** The example of the design document: [<section><p>text]. *)
Lemma unclosed_tag_reported_witness :
  tagLoop 17 false (js "<section><p>text") 0 [] (-1)
    = Exit [js "p"; js "section"] 0
  /\ snipByTag (VString (js "<section><p>text")) None =
       Normal {| status := Fail;
                 comments := js "Unclosed tag <p>.";
                 data := VNull;
                 raw := VString (js "<section><p>text") |}.
Proof.
  split; [reflexivity|].
  exact (proj1 (unclosed_tag_reported (js "<section><p>text") None
                  (js "p") [js "section"] 0 eq_refl)).
Defined.

(* ===================================================================== *)
(** * The dispatcher                                                      *)
(* ===================================================================== *)

(** C10.  For every content and every options object whose format is
    "tag", whatever its [caseSensitive] field, the dispatcher returns what
    [snipByTag] returns when called with the content alone, which is what
    it returns with [caseSensitive: false]; for instance [<DIV></div>] is
    a success through the dispatcher with [caseSensitive: true], and a
    mismatch when [snipByTag] is given that option directly. *)
Theorem dispatcher_drops_tag_options (content : Value) (cs : option bool) :
  Index.snipSmart content (Index.OptionsObject (mkOptions (Some (js "tag")) cs))
    = snipByTag content None
  /\ snipByTag content None
     = snipByTag content (Some (mkOptions (Some (js "tag")) (Some false)))
  /\ (exists r,
        Index.snipSmart (VString (js "<DIV></div>"))
          (Index.OptionsObject (mkOptions (Some (js "tag")) (Some true))) = Normal r
        /\ status r = Success)
  /\ (exists r,
        snipByTag (VString (js "<DIV></div>"))
          (Some (mkOptions (Some (js "tag")) (Some true))) = Normal r
        /\ status r = Fail).
Proof.
  split; [reflexivity|]. split; [reflexivity|].
  split; eexists; (split; [vm_compute; reflexivity|reflexivity]).
Qed.

(* ===================================================================== *)
(** * The fields of a result                                              *)
(* ===================================================================== *)


(* ===================================================================== *)
(** * The JSON engine: the structural scan and what follows it            *)
(* ===================================================================== *)

Module ScanFacts.
Import SnipJson.

(** The slice from [start] to an index inside the text, in terms of the
    text from [start] on. *)
Lemma slice_from (content : jsstring) (start e : Z) :
  0 <= start <= e -> e <= len content ->
  slice content start e = firstn (Z.to_nat (e - start)) (from content start).
Proof.
  unfold slice, clampIndex, from, len. intros H1 H2.
  assert ((start <? 0) = false) as -> by (apply Z.ltb_ge; lia).
  assert ((e <? 0) = false) as -> by (apply Z.ltb_ge; lia).
  rewrite !Z.min_l by lia. reflexivity.
Qed.

(** The scan never empties a stack without returning [Balanced], and it
    only pushes opening delimiters. *)
Lemma scan_unclosed (rest : jsstring) :
  forall i stack open_,
    stack <> [] -> Forall (fun c => OPENING c = true) stack ->
    scan rest i stack = Unclosed open_ ->
    open_ <> [] /\ Forall (fun c => OPENING c = true) open_.
Proof.
  induction rest as [|c rest' IH]; intros i stack open_ Hne Hall H; simpl in H.
  - inversion H; subst. auto.
  - destruct (OPENING c) eqn:Ho.
    { eapply IH; [|constructor; eassumption|exact H]. discriminate. }
    destruct (CLOSING c).
    + destruct stack as [|last stack']; [discriminate|].
      destruct (PAIRS last); [|discriminate].
      destruct (N.eqb _ _); [|discriminate].
      destruct stack' as [|x stack'']; [discriminate|].
      eapply IH; [|inversion Hall; eassumption|exact H]. discriminate.
    + eapply IH; eassumption.
Qed.

Lemma indexOfFrom_found (c : N) (s : jsstring) :
  forall k, indexOfFrom c s k <> -1 -> 0 <= k ->
    k <= indexOfFrom c s k /\
    nth_error s (Z.to_nat (indexOfFrom c s k - k)) = Some c.
Proof.
  induction s as [|x t IH]; intros k Hf Hk; simpl in *; [congruence|].
  destruct (N.eqb_spec x c) as [->|Hne].
  - rewrite Z.sub_diag. split; [lia|reflexivity].
  - destruct (IH (k + 1) Hf ltac:(lia)) as [Hle Hn]. split; [lia|].
    replace (Z.to_nat (indexOfFrom c t (k + 1) - k))
      with (S (Z.to_nat (indexOfFrom c t (k + 1) - (k + 1)))) by lia.
    exact Hn.
Qed.

Lemma indexOfFrom_range (c : N) (s : jsstring) :
  forall k, 0 <= k -> indexOfFrom c s k = -1 \/ k <= indexOfFrom c s k.
Proof.
  induction s as [|x t IH]; intros k Hk; simpl; [now left|].
  destruct (N.eqb x c); [right; lia|].
  destruct (IH (k + 1) ltac:(lia)); [now left|right; lia].
Qed.

(** The start index, when there is one, is that of an opening
    delimiter. *)
Lemma findStart_opening (content : jsstring) :
  findStart content <> -1 ->
  0 <= findStart content /\
  exists c rest, from content (findStart content) = c :: rest /\ OPENING c = true.
Proof.
  unfold findStart, indexOf. intros H.
  assert (Hc : forall c, indexOfFrom c content 0 <> -1 ->
                 0 <= indexOfFrom c content 0 /\
                 exists rest, from content (indexOfFrom c content 0) = c :: rest).
  { intros c Hf. destruct (indexOfFrom_found c content 0 Hf ltac:(lia)) as [Hle Hn].
    split; [exact Hle|]. rewrite Z.sub_0_r in Hn. unfold from.
    revert Hn. generalize (Z.to_nat (indexOfFrom c content 0)). clear.
    intros n. revert content. induction n as [|n IH]; intros [|x t] Hn;
      try discriminate; simpl in *.
    - inversion Hn. eauto.
    - apply IH. exact Hn. }
  destruct (Z.eqb_spec (indexOfFrom 123 content 0) (-1)) as [E1|E1].
  { destruct (Hc 91%N H) as [H0 [rest Hr]]. split; [exact H0|].
    exists 91%N, rest. split; [exact Hr|reflexivity]. }
  destruct (Z.eqb_spec (indexOfFrom 91 content 0) (-1)) as [E2|E2].
  { destruct (Hc 123%N H) as [H0 [rest Hr]]. split; [exact H0|].
    exists 123%N, rest. split; [exact Hr|reflexivity]. }
  destruct (Z.min_spec (indexOfFrom 123 content 0) (indexOfFrom 91 content 0))
    as [[_ ->]|[_ ->]].
  - destruct (Hc 123%N E1) as [H0 [rest Hr]]. split; [exact H0|].
    exists 123%N, rest. split; [exact Hr|reflexivity].
  - destruct (Hc 91%N E2) as [H0 [rest Hr]]. split; [exact H0|].
    exists 91%N, rest. split; [exact Hr|reflexivity].
Qed.

End ScanFacts.

Import SnipJson.

(** X16.  The scan of the revision without a file name stops at the
    first index [e] at which the stack is empty again; the text after [e] can be replaced by any other without
    changing the outcome of the scan or the result of Steps 3 and 4; and
    every proper prefix of the span leaves the stack non-empty. *)
Lemma first_balanced_span_wins (content : jsstring) (start e : Z) :
  0 <= start ->
  scan (from content start) start [] = Balanced e ->
  start <= e < len content
  /\ (forall tail,
        let content' := firstn (Z.to_nat (e + 1)) content ++ tail in
        scan (from content' start) start [] = Balanced e
        /\ structural content' start = structural content start)
  /\ (forall c rest, from content start = c :: rest -> OPENING c = true ->
        forall j, start <= j < e ->
          exists open_, open_ <> [] /\
            scan (slice content start (j + 1)) start [] = Unclosed open_).
Proof.
  intros H0 Hscan.
  destruct (SnipJsonFacts.scan_balanced_prefix _ _ _ _ Hscan) as [Hb Hpre].
  rewrite JSFacts.from_length in Hb by exact H0.
  assert (He : start <= e < len content) by lia.
  split; [exact He|]. split.
  - intros tail content'.
    assert (Hfrom : from content' start =
                    firstn (Z.to_nat (e - start + 1)) (from content start) ++ tail).
    { unfold content', from.
      rewrite skipn_app.
      rewrite length_firstn.
      replace (Z.to_nat start - Nat.min (Z.to_nat (e + 1)) (length content))%nat
        with 0%nat by (unfold len in He; lia).
      simpl. f_equal.
      rewrite skipn_firstn_comm. f_equal. lia. }
    assert (Hs : scan (from content' start) start [] = Balanced e).
    { rewrite Hfrom. apply Hpre. }
    split; [exact Hs|].
    unfold structural. rewrite Hs, Hscan.
    assert (Hlen' : e + 1 <= len content').
    { unfold content', len. rewrite length_app, length_firstn.
      unfold len in He. lia. }
    rewrite (ScanFacts.slice_from content' start (e + 1)) by lia.
    rewrite (ScanFacts.slice_from content start (e + 1)) by lia.
    rewrite Hfrom.
    replace (Z.to_nat (e + 1 - start)) with (Z.to_nat (e - start + 1)) by lia.
    rewrite firstn_app, firstn_firstn, Nat.min_id.
    rewrite length_firstn.
    pose proof (JSFacts.from_length content start H0) as Hl. unfold len in Hl, He.
    replace (_ - _)%nat with 0%nat by lia.
    simpl. rewrite app_nil_r. reflexivity.
  - intros c rest Hc Ho j Hj.
    rewrite Hc in Hscan. simpl in Hscan. rewrite Ho in Hscan.
    rewrite ScanFacts.slice_from by lia. rewrite Hc.
    replace (Z.to_nat (j + 1 - start)) with (S (Z.to_nat (j - start))) by lia.
    simpl. rewrite Ho.
    eapply SnipJsonFacts.scan_balanced_first; [discriminate|exact Hscan|lia].
Qed.

(** The two objects of the text [{"a":1} and {"b":2}]: the scan ends at
    index 6. *)
Lemma first_balanced_span_wins_witness :
  0 <= 6 < len (jq "{'a':1} and {'b':2}")
  /\ (forall tail,
        let content' := firstn (Z.to_nat (6 + 1)) (jq "{'a':1} and {'b':2}") ++ tail in
        scan (from content' 0) 0 [] = Balanced 6
        /\ structural content' 0 = structural (jq "{'a':1} and {'b':2}") 0)
  /\ (forall c rest, from (jq "{'a':1} and {'b':2}") 0 = c :: rest -> OPENING c = true ->
        forall j, 0 <= j < 6 ->
          exists open_, open_ <> [] /\
            scan (slice (jq "{'a':1} and {'b':2}") 0 (j + 1)) 0 [] = Unclosed open_).
Proof.
  exact (first_balanced_span_wins (jq "{'a':1} and {'b':2}") 0 6
           (Z.le_refl 0) eq_refl).
Defined.

(** The slow path of the engine on a text whose sanitized form has a
    start index and on which the fast path does not return. *)
Lemma snipJson_slow_path (s : jsstring) :
  findStart (sanitize s) <> -1 ->
  fastPath (sanitize s) (findStart (sanitize s)) = Normal None ->
  snipJson (VString s) = structural (sanitize s) (findStart (sanitize s)).
Proof.
  intros Hstart Hfast.
  unfold snipJson. destruct s; [exfalso; apply Hstart; reflexivity|].
  cbn [isEmpty sanitizeContent bind].
  unfold extract.
  assert ((findStart (sanitize (n :: s)) =? -1) = false) as ->
      by (apply Z.eqb_neq; exact Hstart).
  rewrite Hfast. reflexivity.
Qed.

(** The balanced span that does not decode, in the revision without a
    file name.  When the fast path does not return, the scan of the
    sanitized text ends balanced at index [e], and the decoder rejects
    the slice from the start index through [e] with the error [err], the
    engine returns status [Check], a comment that ends with the message
    of [err], no data, and the slice as raw. *)
Theorem balanced_but_undecodable (s : jsstring) (e : Z) (err : Error) :
  findStart (sanitize s) <> -1 ->
  fastPath (sanitize s) (findStart (sanitize s)) = Normal None ->
  scan (from (sanitize s) (findStart (sanitize s))) (findStart (sanitize s)) []
    = Balanced e ->
  JSON.parse (slice (sanitize s) (findStart (sanitize s)) (e + 1)) = Throw err ->
  snipJson (VString s) =
    Normal {| status := Check;
              comments := js "Structurally valid JSON failed to parse: "
                          ++ message err;
              data := VNull;
              raw := VString (slice (sanitize s) (findStart (sanitize s)) (e + 1)) |}.
Proof.
  intros Hstart Hfast Hscan Hparse.
  rewrite snipJson_slow_path by assumption.
  unfold structural. rewrite Hscan.
  unfold parseJsonSafely. rewrite Hparse. reflexivity.
Qed.

(** An array with a trailing comma is balanced and undecodable. *)
Lemma balanced_but_undecodable_witness :
  fastPath (sanitize (js "[1,]")) (findStart (sanitize (js "[1,]"))) = Normal None
  /\ scan (from (sanitize (js "[1,]")) (findStart (sanitize (js "[1,]"))))
          (findStart (sanitize (js "[1,]"))) [] = Balanced 3
  /\ JSON.parse (js "[1,]") = Throw (SyntaxError JSON.unexpectedToken)
  /\ snipJson (VString (js "[1,]")) =
       Normal {| status := Check;
                 comments := js "Structurally valid JSON failed to parse: "
                             ++ JSON.unexpectedToken;
                 data := VNull;
                 raw := VString (js "[1,]") |}.
Proof.
  split; [reflexivity|]. split; [reflexivity|]. split; [reflexivity|].
  exact (balanced_but_undecodable (js "[1,]") 3 (SyntaxError JSON.unexpectedToken)
           ltac:(vm_compute; discriminate) eq_refl eq_refl eq_refl).
Defined.

(** The branch of [src/snipJson.js] with that outcome is reached when
    its loop, which runs to the end of the text, ends with an empty
    stack: the slice that is decoded, and returned as raw, runs from the
    start index through the last index of the text, whether or not the
    stack was empty before. *)
Lemma src_balanced_but_undecodable
      (content : jsstring) (start jsonEnd : Z) (err : Error) :
  SrcSnipJson.scan (from content start) start [] (-1) = SrcSnipJson.Done [] jsonEnd ->
  JSON.parse (slice content start (jsonEnd + 1)) = Throw err ->
  SrcSnipJson.structural content start =
    Normal {| status := Check;
              comments := js "Extracted candidate JSON passed bracket validation but failed to parse. Check result.raw. Error : "
                          ++ message err;
              data := VNull;
              raw := VString (slice content start (jsonEnd + 1)) |}.
Proof.
  intros Hscan Hparse. unfold SrcSnipJson.structural. rewrite Hscan.
  unfold SrcSnipJson.parseJson. rewrite Hparse. reflexivity.
Qed.

(** X17.  The unresolved end of input in the revision without a file
    name.
    When the fast path does not return and the scan exhausts the
    sanitized text, the stack is non-empty and holds opening delimiters.
    With exactly one, [last], the engine decodes the text from the start
    index on followed by the closer of [last]: a decoded value gives
    [Check] with that value as data and no raw, a decoding error gives
    [Fail] with no data and the repaired text as raw.  With more than one
    it returns [Fail], the comment "Unbalanced JSON structure." and the
    text from the start index on as raw. *)
Lemma unresolved_end_of_input (s : jsstring) (open_ : list N) :
  findStart (sanitize s) <> -1 ->
  fastPath (sanitize s) (findStart (sanitize s)) = Normal None ->
  scan (from (sanitize s) (findStart (sanitize s))) (findStart (sanitize s)) []
    = Unclosed open_ ->
  let content := sanitize s in
  let start := findStart content in
  match open_ with
  | [] => False
  | [last] =>
      exists closer,
        PAIRS last = Some closer /\
        let repaired := sliceFrom content start ++ [closer] in
        (forall v, JSON.parse repaired = Normal v ->
           snipJson (VString s) =
             Normal {| status := Check;
                       comments := js "One missing closing bracket auto-added. Please verify.";
                       data := v; raw := VNull |}) /\
        (forall err, JSON.parse repaired = Throw err ->
           snipJson (VString s) =
             Normal {| status := Fail;
                       comments := js "Auto-closure attempted but parsing failed: "
                                   ++ message err;
                       data := VNull; raw := VString repaired |})
  | _ :: _ :: _ =>
      snipJson (VString s) =
        Normal {| status := Fail;
                  comments := js "Unbalanced JSON structure.";
                  data := VNull;
                  raw := VString (sliceFrom content start) |}
  end.
Proof.
  intros Hstart Hfast Hscan content start.
  pose proof (snipJson_slow_path s Hstart Hfast) as Hslow.
  fold content in Hslow, Hscan, Hstart. fold start in Hslow, Hscan.
  destruct (ScanFacts.findStart_opening content Hstart) as (H0 & c & rest & Hc & Ho).
  fold start in Hc.
  assert (Hopen : open_ <> [] /\ Forall (fun c => OPENING c = true) open_).
  { rewrite Hc in Hscan. simpl in Hscan. rewrite Ho in Hscan.
    eapply ScanFacts.scan_unclosed; [|repeat constructor; exact Ho|exact Hscan].
    discriminate. }
  destruct Hopen as [Hne Hall].
  unfold structural in Hslow. rewrite Hscan in Hslow.
  destruct open_ as [|last [|x more]]; [congruence| |exact Hslow].
  inversion Hall as [|? ? Hlast _]; subst.
  assert (Hp : exists closer, PAIRS last = Some closer).
  { unfold OPENING in Hlast. unfold PAIRS.
    destruct (N.eqb last 123); [eauto|]. destruct (N.eqb last 91); [eauto|discriminate]. }
  destruct Hp as [closer Hp]. exists closer. split; [exact Hp|].
  unfold pairText in Hslow. rewrite Hp in Hslow.
  cbv zeta. split.
  - intros v Hv. rewrite Hslow. unfold parseJsonSafely. rewrite Hv. reflexivity.
  - intros err He. rewrite Hslow. unfold parseJsonSafely. rewrite He. reflexivity.
Qed.

(** Two brackets left open. *)
Lemma unresolved_end_of_input_witness :
  snipJson (VString (js "[[1,2")) =
    Normal {| status := Fail;
              comments := js "Unbalanced JSON structure.";
              data := VNull;
              raw := VString (sliceFrom (sanitize (js "[[1,2"))
                                        (findStart (sanitize (js "[[1,2")))) |}.
Proof.
  exact (unresolved_end_of_input (js "[[1,2") [91%N; 91%N]
           ltac:(vm_compute; discriminate) eq_refl eq_refl).
Defined.

(* ===================================================================== *)
(** * Where [src/snipJson.js] departs from the other revision             *)
(* ===================================================================== *)

(** C1.  [src/snipJson.js] calls [sanitizeContent] before its own input
    check: on [null] (and on [undefined], booleans, numbers, arrays and
    plain objects, which have no [replace] either) the call
    [content.replace] throws a [TypeError], which [snipSmart] lets
    through, where the claim has a [Fail] result returned.  The other
    revision checks first and returns that result. *)
Theorem src_snipJson_throws_on_null :
  SrcSnipJson.snipJson VNull =
    Throw (TypeError (js "Cannot read properties of null (reading 'replace')"))
  /\ Index.snipSmart VNull Index.Omitted =
       Throw (TypeError (js "Cannot read properties of null (reading 'replace')"))
  /\ SnipJson.snipJson VNull =
       Normal (failWith (js "Invalid input: content must be a non-empty string.") VNull).
Proof. repeat split. Qed.

(** C2.  The loop of [src/snipJson.js] has no [break]: on a text with two
    objects it runs past the first balanced span (which ends at index 6),
    takes the whole text as candidate and returns [Check], although it
    returns [Success] when the text stops at index 6.  The other revision
    stops at index 6 and returns [Success] on both. *)
Theorem src_scan_runs_past_first_balanced_span :
  SrcSnipJson.snipJson (VString (jq "{'a':1} and {'b':2}")) =
    Normal {| status := Check;
              comments := js "Extracted candidate JSON passed bracket validation but failed to parse. Check result.raw. Error : "
                          ++ JSON.unexpectedToken;
              data := VNull;
              raw := VString (jq "{'a':1} and {'b':2}") |}
  /\ SrcSnipJson.snipJson (VString (jq "{'a':1}")) =
       Normal {| status := Success;
                 comments := js "JSON successfully extracted and parsed.";
                 data := VObject [(js "a", VNumber (js "1"))];
                 raw := VNull |}
  /\ SrcSnipJson.scan (jq "{'a':1} and {'b':2}") 0 [] (-1) = SrcSnipJson.Done [] 18
  /\ SnipJson.scan (jq "{'a':1} and {'b':2}") 0 [] = Balanced 6
  /\ SnipJson.snipJson (VString (jq "{'a':1} and {'b':2}")) =
       SnipJson.snipJson (VString (jq "{'a':1}"))
  /\ SnipJson.snipJson (VString (jq "{'a':1}")) =
       Normal {| status := Success;
                 comments := js "JSON successfully extracted and parsed.";
                 data := VObject [(js "a", VNumber (js "1"))];
                 raw := VNull |}.
Proof. repeat split; vm_compute; reflexivity. Qed.

(** C5.  In [src/snipJson.js] the span at whose end the stack is empty
    again is not what is decoded and reported.  In the text
    "Here: [1,] done" the stack is empty again at index 9 and the span
    from index 6 through 9 does not decode: the loop runs on to index 14,
    the end of the text, and the result is a [Check] whose raw is the
    text from index 6 on, not the span.  In the text "[1,] ]" the stack
    is empty again at index 3, and the bracket at index 5 makes the
    result a [Fail] with the comment "Bracket mismatch" and the whole
    text as raw.  The other revision stops at the span and returns the
    [Check] of the claim on both texts, with the span as raw. *)
Theorem src_balanced_span_not_reported :
  SnipJson.scan (from (js "Here: [1,] done") 6) 6 [] = Balanced 9
  /\ slice (js "Here: [1,] done") 6 (9 + 1) = js "[1,]"
  /\ (exists err, JSON.parse (js "[1,]") = Throw err)
  /\ SrcSnipJson.scan (from (js "Here: [1,] done") 6) 6 [] (-1) = SrcSnipJson.Done [] 14
  /\ (exists m,
        SrcSnipJson.snipJson (VString (js "Here: [1,] done")) =
          Normal {| status := Check;
                    comments := js "Extracted candidate JSON passed bracket validation but failed to parse. Check result.raw. Error : " ++ m;
                    data := VNull;
                    raw := VString (js "[1,] done") |})
  /\ (exists m,
        SnipJson.snipJson (VString (js "Here: [1,] done")) =
          Normal {| status := Check;
                    comments := js "Structurally valid JSON failed to parse: " ++ m;
                    data := VNull;
                    raw := VString (js "[1,]") |})
  /\ SnipJson.scan (js "[1,] ]") 0 [] = Balanced 3
  /\ SrcSnipJson.scan (js "[1,] ]") 0 [] (-1) = SrcSnipJson.Mismatch 5
  /\ SrcSnipJson.snipJson (VString (js "[1,] ]")) =
       Normal {| status := Fail;
                 comments := js "Bracket mismatch";
                 data := VNull;
                 raw := VString (js "[1,] ]") |}
  /\ (exists m,
        SnipJson.snipJson (VString (js "[1,] ]")) =
          Normal {| status := Check;
                    comments := js "Structurally valid JSON failed to parse: " ++ m;
                    data := VNull;
                    raw := VString (js "[1,]") |}).
Proof.
  split; [reflexivity|]. split; [reflexivity|].
  split; [eexists; vm_compute; reflexivity|].
  split; [reflexivity|].
  split; [eexists; vm_compute; reflexivity|].
  split; [eexists; vm_compute; reflexivity|].
  split; [reflexivity|]. split; [reflexivity|].
  split; [vm_compute; reflexivity|].
  eexists; vm_compute; reflexivity.
Qed.

(** C3, as stated, fails for [src/snipJson.js]: with two delimiters left
    open it returns the comment "Bracket mismatch", the one of its
    mismatch branch, where the claim (and the other revision) has
    "Unbalanced JSON structure."; status, data and raw are as claimed. *)
Theorem src_unbalanced_reported_as_mismatch :
  SrcSnipJson.snipJson (VString (js "[[1,2")) =
    Normal {| status := Fail;
              comments := js "Bracket mismatch";
              data := VNull;
              raw := VString (js "[[1,2") |}
  /\ SnipJson.scan (js "[[1,2") 0 [] = Unclosed [91%N; 91%N]
  /\ SnipJson.snipJson (VString (js "[[1,2")) =
       Normal {| status := Fail;
                 comments := js "Unbalanced JSON structure.";
                 data := VNull;
                 raw := VString (js "[[1,2") |}.
Proof. repeat split; vm_compute; reflexivity. Qed.

(* ===================================================================== *)
(** * The JSON engine sanitizes its input                                 *)
(* ===================================================================== *)

Module SanitizeFacts.

Lemma In_firstn (n : nat) (l : jsstring) (x : N) : In x (firstn n l) -> In x l.
Proof.
  intros H. rewrite <- (firstn_skipn n l). apply in_or_app. now left.
Qed.

Lemma In_skipn (n : nat) (l : jsstring) (x : N) : In x (skipn n l) -> In x l.
Proof.
  intros H. rewrite <- (firstn_skipn n l). apply in_or_app. now right.
Qed.

Lemma In_slice (s : jsstring) (a b : Z) (x : N) : In x (slice s a b) -> In x s.
Proof. unfold slice. intros H. apply In_firstn, In_skipn in H. exact H. Qed.

Lemma In_trimStart (s : jsstring) (x : N) : In x (trimStart s) -> In x s.
Proof.
  induction s as [|c t IH]; simpl; [auto|].
  destruct (isSpace c); [intros H; right; auto|auto].
Qed.

Lemma In_trim (s : jsstring) (x : N) : In x (trim s) -> In x s.
Proof.
  unfold trim, trimEnd. intros H.
  apply in_rev in H. apply In_trimStart in H. apply in_rev in H.
  apply In_trimStart in H. exact H.
Qed.

(** A global replacement only emits code units of the input and of the
    replacement text. *)
Lemma In_replaceFrom (m : matcher) (rep : jsstring) (x : N) (s : jsstring) :
  forall prev skip,
    In x (replaceFrom m rep prev skip s) -> In x rep \/ In x s.
Proof.
  induction s as [|c t IH]; intros prev skip H; simpl in H; [contradiction|].
  destruct skip as [|k].
  - destruct (m prev (c :: t)) as [[|k]|].
    + destruct H as [->|H]; [right; now left|].
      apply IH in H as [H|H]; [now left|right; now right].
    + apply in_app_or in H as [H|H]; [now left|].
      apply IH in H as [H|H]; [now left|right; now right].
    + destruct H as [->|H]; [right; now left|].
      apply IH in H as [H|H]; [now left|right; now right].
  - apply IH in H as [H|H]; [now left|right; now right].
Qed.

(** After the removal of the backticks there is none left. *)
Lemma backticks_removed (s : jsstring) :
  forall prev skip, ~ In 96%N (replaceFrom SnipJson.backtick [] prev skip s).
Proof.
  induction s as [|c t IH]; intros prev skip H; simpl in H; [contradiction|].
  destruct skip as [|k]; [|eapply IH; exact H].
  destruct (N.eqb_spec c 96) as [->|Hne].
  - simpl in H. eapply IH; exact H.
  - destruct H as [->|H]; [congruence|eapply IH; exact H].
Qed.

Lemma sanitize_no_backtick (s : jsstring) : ~ In 96%N (SnipJson.sanitize s).
Proof.
  unfold SnipJson.sanitize, replaceAll. intros H.
  apply In_trim in H. apply In_replaceFrom in H as [H|H].
  - simpl in H. destruct H as [H|[]]; discriminate.
  - eapply backticks_removed; exact H.
Qed.

(** The raw text of a result consists of code units of the text the
    engine scans, and of the closer the repair appends. *)
Lemma extract_raw (content : jsstring) (r : Result) (t : jsstring) (x : N) :
  SnipJson.extract content = Normal r ->
  raw r = VString t ->
  In x t -> In x content \/ x = 125%N \/ x = 93%N.
Proof.
  unfold SnipJson.extract.
  destruct (Z.eqb_spec (SnipJson.findStart content) (-1)) as [|Hstart];
    [intros H; inversion H; subst; discriminate|].
  destruct (SnipJsonFacts.fastPath_returns content (SnipJson.findStart content))
    as [Hf|[v Hf]]; rewrite Hf; simpl.
  2: { intros H; inversion H; subst; discriminate. }
  unfold SnipJson.structural.
  destruct (SnipJson.scan _ _ _) as [i|e|[|last [|? ?]]] eqn:Hscan.
  - intros H Hr Hx; inversion H; subst; simpl in Hr; inversion Hr; subst.
    left. eapply In_slice; exact Hx.
  - destruct (SnipJsonFacts.parseJsonSafely_cases
                (slice content (SnipJson.findStart content) (e + 1)))
      as [(v & _ & Hp)|(m & _ & Hp)]; rewrite Hp; simpl;
      intros H Hr Hx; inversion H; subst; simpl in Hr; inversion Hr; subst.
    left. eapply In_slice; exact Hx.
  - intros H Hr Hx; inversion H; subst; simpl in Hr; inversion Hr; subst.
    left. eapply In_slice; exact Hx.
  - assert (Hlast : SnipJson.OPENING last = true).
    { destruct (ScanFacts.findStart_opening content Hstart)
        as (H0 & c & rest & Hc & Ho).
      rewrite Hc in Hscan. simpl in Hscan. rewrite Ho in Hscan.
      apply ScanFacts.scan_unclosed in Hscan as [_ Hall];
        [|discriminate|repeat constructor; exact Ho].
      inversion Hall; assumption. }
    destruct (SnipJsonFacts.parseJsonSafely_cases
                (sliceFrom content (SnipJson.findStart content)
                 ++ SnipJson.pairText (Some last)))
      as [(v & _ & Hp)|(m & _ & Hp)]; rewrite Hp; simpl;
      intros H Hr Hx; inversion H; subst; simpl in Hr; inversion Hr; subst.
    apply in_app_or in Hx as [Hx|Hx]; [left; eapply In_slice; exact Hx|].
    unfold SnipJson.pairText, SnipJson.PAIRS in Hx.
    unfold SnipJson.OPENING in Hlast.
    destruct (N.eqb last 123); [destruct Hx as [<-|[]]; auto|].
    destruct (N.eqb last 91); [destruct Hx as [<-|[]]; auto|discriminate].
  - intros H Hr Hx; inversion H; subst; simpl in Hr; inversion Hr; subst.
    left. eapply In_slice; exact Hx.
Qed.

End SanitizeFacts.

(** C6, as stated, fails: on a text with a backtick inside its brackets
    the engine returns what the extraction returns on the text without
    the backtick (a success), not what it returns on the text as given
    (a [Check] whose raw still has the backtick). *)
Lemma engine_as_given_counterexample :
  snipJson (VString (js "[`1]")) =
    Normal {| status := Success;
              comments := js "JSON successfully extracted and parsed.";
              data := VArray [VNumber (js "1")];
              raw := VNull |}
  /\ extract (js "[`1]") =
       Normal {| status := Check;
                 comments := js "Structurally valid JSON failed to parse: "
                             ++ JSON.unexpectedToken;
                 data := VNull;
                 raw := VString (js "[`1]") |}
  /\ snipJson (VString (js "[`1]")) <> extract (js "[`1]").
Proof.
  split; [vm_compute; reflexivity|].
  split; [vm_compute; reflexivity|].
  vm_compute. discriminate.
Qed.

(** C6, amended.  The engine normalizes the text itself.  In the
    revision without a file name the input check comes first: the empty
    string is refused, and on every other string the extraction runs on
    the result of [sanitizeContent], so that no raw text of a result
    holds a backtick.  In [src/snipJson.js] the call of
    [sanitizeContent] comes first: the rest of the function, its input
    check included, runs on the sanitized text, so that a string that is
    sanitized to nothing is refused.  In both, the engine operates on
    the input as given whenever [sanitizeContent] leaves it unchanged. *)
Theorem engine_sanitizes_its_input (s : jsstring) :
  (s = [] ->
   snipJson (VString s) =
     Normal (failWith (js "Invalid input: content must be a non-empty string.") VNull))
  /\ (s <> [] -> snipJson (VString s) = extract (sanitize s))
  /\ (forall r t, snipJson (VString s) = Normal r -> raw r = VString t ->
                  ~ In 96%N t)
  /\ SrcSnipJson.snipJson (VString s) = SrcSnipJson.extract (SrcSnipJson.sanitize s)
  /\ (SrcSnipJson.sanitize s = [] ->
      SrcSnipJson.snipJson (VString s) =
        Normal (failWith (js "Invalid input: content must be a string.") VNull))
  /\ (s <> [] -> sanitize s = s -> snipJson (VString s) = extract s)
  /\ (SrcSnipJson.sanitize s = s ->
      SrcSnipJson.snipJson (VString s) = SrcSnipJson.extract s).
Proof.
  assert (Heq : s <> [] -> snipJson (VString s) = extract (sanitize s)).
  { intros Hs. unfold snipJson. destruct s; [congruence|reflexivity]. }
  assert (Hsrc : SrcSnipJson.snipJson (VString s)
                 = SrcSnipJson.extract (SrcSnipJson.sanitize s)) by reflexivity.
  split; [intros ->; reflexivity|].
  split; [exact Heq|]. split.
  { intros r t Hr Hraw Hin.
    destruct s as [|c0 t0]; [inversion Hr; subst r; discriminate|].
    rewrite Heq in Hr by discriminate.
    destruct (SanitizeFacts.extract_raw _ _ _ _ Hr Hraw Hin) as [H|[H|H]];
      try discriminate.
    exact (SanitizeFacts.sanitize_no_backtick _ H). }
  split; [exact Hsrc|]. split; [|split].
  - intros E. rewrite Hsrc, E. reflexivity.
  - intros Hs E. rewrite Heq, E by exact Hs. reflexivity.
  - intros E. rewrite Hsrc, E. reflexivity.
Qed.

(** A text with a backtick, a text that [sanitizeContent] leaves as it
    is, a bare code fence, and the empty string. *)
Lemma engine_sanitizes_its_input_witness :
  snipJson (VString (js "[`1]")) = extract (js "[1]")
  /\ snipJson (VString (js "[1]")) = extract (js "[1]")
  /\ SrcSnipJson.snipJson (VString (js "[1]")) = SrcSnipJson.extract (js "[1]")
  /\ SrcSnipJson.snipJson (VString (js "```json")) =
       Normal (failWith (js "Invalid input: content must be a string.") VNull)
  /\ snipJson (VString []) =
       Normal (failWith (js "Invalid input: content must be a non-empty string.") VNull).
Proof.
  split; [exact (proj1 (proj2 (engine_sanitizes_its_input (js "[`1]")))
                   ltac:(discriminate))|].
  destruct (engine_sanitizes_its_input (js "[1]")) as (_ & _ & _ & _ & _ & Hnew & Hsrc).
  split; [exact (Hnew ltac:(discriminate) eq_refl)|].
  split; [exact (Hsrc eq_refl)|].
  destruct (engine_sanitizes_its_input (js "```json")) as (_ & _ & _ & _ & Hempty & _).
  split; [exact (Hempty eq_refl)|].
  exact (proj1 (engine_sanitizes_its_input []) eq_refl).
Defined.

(* ===================================================================== *)
(** * Feeding the data of a success back: the tag engine                  *)
(* ===================================================================== *)


Module LexFacts.
Import SnipByTag TagRun JSFacts.

Lemma skipAttributes_shift (rest : jsstring) :
  forall i p, skipAttributes rest (p + i)
            = (fst (skipAttributes rest i), p + snd (skipAttributes rest i)).
Proof.
  induction rest as [|c rest' IH]; intros i p; simpl; [reflexivity|].
  destruct (N.eqb c 62); [reflexivity|].
  destruct (_ && _)%bool; [simpl; f_equal; lia|].
  replace (p + i + 1) with (p + (i + 1)) by lia. apply IH.
Qed.

Lemma skipAttributes_le (rest : jsstring) :
  forall i, snd (skipAttributes rest i) <= i + len rest.
Proof.
  unfold len.
  induction rest as [|c rest' IH]; intros i; simpl; [lia|].
  destruct (N.eqb c 62); simpl; [lia|].
  destruct rest' as [|d rest''].
  - rewrite andb_false_r. simpl. lia.
  - destruct (N.eqb c 47 && N.eqb d 62)%bool; simpl; [lia|].
    specialize (IH (i + 1)). simpl in IH. cbn [length]. lia.
Qed.

(** The lexical part of an iteration behind a prefix [pre]. *)
Lemma lexTag_shift (pre d : jsstring) (i : Z) :
  0 <= i ->
  lexTag (pre ++ d) (len pre + i) = shiftLexed (len pre) (lexTag d i).
Proof.
  intros Hi. unfold lexTag, shiftLexed. cbv zeta.
  replace (len pre + i + 1) with (len pre + (i + 1)) by lia.
  rewrite charIs_app_shift by lia.
  set (i2 := if charIs d (i + 1) 47 then i + 1 + 1 else i + 1).
  assert (Hi2 : 0 <= i2) by (unfold i2; destruct (charIs _ _ _); lia).
  replace (if charIs d (i + 1) 47 then len pre + (i + 1) + 1 else len pre + (i + 1))
    with (len pre + i2) by (unfold i2; destruct (charIs _ _ _); lia).
  assert (Hrn : readName (pre ++ d) (len pre + i2) = len pre + readName d i2).
  { unfold readName. rewrite from_app_shift by lia. lia. }
  rewrite Hrn.
  pose proof (readName_ge_0 := Z.le_trans _ _ _ Hi2 (SnipByTagFacts.readName_ge d i2)).
  rewrite from_app_shift by lia.
  rewrite slice_app_shift by lia.
  rewrite skipAttributes_shift.
  pose proof (SnipByTagFacts.skipAttributes_ge (from d (readName d i2)) (readName d i2)).
  destruct (skipAttributes (from d (readName d i2)) (readName d i2)) as [sc i4].
  simpl in *.
  rewrite charIs_app_shift by lia.
  destruct (charIs d i4 62); simpl; f_equal; lia.
Qed.

(** The index after a tag is within the text. *)
Lemma lexTag_bound (d : jsstring) (i : Z) :
  0 <= i < len d -> tagEnd (lexTag d i) <= len d.
Proof.
  intros Hi. unfold lexTag. cbv zeta.
  set (i2 := if charIs d (i + 1) 47 then i + 1 + 1 else i + 1).
  assert (Hi2 : 0 <= i2 <= len d).
  { unfold i2. destruct (charIs d (i + 1) 47) eqn:E; [|lia].
    apply SnipByTagFacts.charIs_true in E as [_ E].
    assert (Z.to_nat (i + 1) < length d)%nat
      by (apply nth_error_Some; rewrite E; discriminate).
    unfold len. lia. }
  assert (Hrn : i2 <= readName d i2 <= len d).
  { unfold readName.
    pose proof (spanLength_le isTagNameChar (from d i2)) as Hs.
    pose proof (from_length d i2 ltac:(lia)) as Hf. unfold len in *. lia. }
  pose proof (skipAttributes_le (from d (readName d i2)) (readName d i2)) as Hle.
  pose proof (SnipByTagFacts.skipAttributes_ge (from d (readName d i2)) (readName d i2)).
  rewrite from_length in Hle by lia.
  destruct (skipAttributes (from d (readName d i2)) (readName d i2)) as [sc i4].
  simpl in *.
  destruct (charIs d i4 62) eqn:E; simpl; [|lia].
  apply SnipByTagFacts.charIs_true in E as [_ E].
  assert (Z.to_nat i4 < length d)%nat
    by (apply nth_error_Some; rewrite E; discriminate).
  unfold len in *. lia.
Qed.

End LexFacts.

Module CutFacts.
Import SnipByTag TagRun JSFacts LexFacts.

(** Cutting the text after the end of a tag does not change how its
    attributes are skipped.  [fin] is the index after the [>], if there
    is one where the loop stops. *)
Lemma skipAttributes_firstn (rest : jsstring) :
  forall i m,
    (if headIs (skipn (Z.to_nat (snd (skipAttributes rest i) - i)) rest) 62
     then snd (skipAttributes rest i) + 1
     else snd (skipAttributes rest i)) <= i + Z.of_nat m ->
    skipAttributes (firstn m rest) i = skipAttributes rest i /\
    headIs (skipn (Z.to_nat (snd (skipAttributes rest i) - i)) (firstn m rest)) 62
    = headIs (skipn (Z.to_nat (snd (skipAttributes rest i) - i)) rest) 62.
Proof.
  induction rest as [|c rest' IH]; intros i m Hfin.
  { rewrite firstn_nil. split; reflexivity. }
  pose proof (SnipByTagFacts.skipAttributes_ge (c :: rest') i) as Hge.
  destruct m as [|m'].
  - (* nothing is kept: the original run cannot have moved *)
    exfalso. simpl in Hfin, Hge.
    destruct (N.eqb c 62) eqn:Ec.
    + simpl in Hfin. rewrite Z.sub_diag in Hfin. simpl in Hfin.
      rewrite Ec in Hfin. lia.
    + destruct (_ && _)%bool.
      * simpl in Hfin. destruct (headIs _ _); lia.
      * pose proof (SnipByTagFacts.skipAttributes_ge rest' (i + 1)).
        destruct (headIs _ _); lia.
  - cbn [firstn]. simpl in Hfin |- *.
    destruct (N.eqb c 62) eqn:Ec.
    { simpl. rewrite Z.sub_diag. simpl. split; reflexivity. }
    destruct rest' as [|d rest''].
    + rewrite firstn_nil. rewrite andb_false_r in *. simpl in *.
      replace (Z.to_nat (i + 1 - i)) with 1%nat by lia.
      split; reflexivity.
    + destruct (N.eqb c 47 && N.eqb d 62)%bool eqn:Es.
      * simpl in Hfin.
        replace (Z.to_nat (i + 2 - i)) with 2%nat in * by lia.
        simpl in Hfin.
        destruct m' as [|m'']; [exfalso; destruct (headIs rest'' 62); lia|].
        cbn [firstn]. rewrite Es. simpl.
        replace (Z.to_nat (i + 2 - i)) with 2%nat by lia. simpl.
        split; [reflexivity|].
        rewrite headIs_firstn.
        destruct (headIs rest'' 62) eqn:Eh; [|apply andb_false_r].
        destruct m''; [lia|reflexivity].
      * assert (Hs' : (N.eqb c 47 &&
                       match firstn m' (d :: rest'') with
                       | d0 :: _ => N.eqb d0 62
                       | [] => false
                       end)%bool = false).
        { destruct m'; simpl; [apply andb_false_r|exact Es]. }
        rewrite Hs'.
        pose proof (SnipByTagFacts.skipAttributes_ge (d :: rest'') (i + 1)) as Hge'.
        set (r := skipAttributes (d :: rest'') (i + 1)) in *.
        replace (Z.to_nat (snd r - i)) with (S (Z.to_nat (snd r - (i + 1)))) in * by lia.
        cbn [skipn] in Hfin |- *.
        rewrite Zpos_P_of_succ_nat in Hfin.
        subst r. apply IH.
        destruct (headIs _ _); lia.
Qed.

Lemma headIs_from_skipn (d : jsstring) (x y : Z) (c : N) :
  0 <= x <= y ->
  headIs (skipn (Z.to_nat (y - x)) (from d x)) c = charIs d y c.
Proof.
  intros H. rewrite charIs_from by lia. unfold from.
  rewrite skipn_skipn. do 2 f_equal. lia.
Qed.

(** Cutting the text at or after the end of a tag does not change what
    is read of the tag. *)
Lemma lexTag_firstn (d : jsstring) (i : Z) (n : nat) :
  0 <= i ->
  tagEnd (lexTag d i) <= Z.of_nat n ->
  lexTag (firstn n d) i = lexTag d i.
Proof.
  intros Hi. unfold lexTag. cbv zeta.
  rewrite (charIs_firstn n d (i + 1)) by lia.
  set (i2 := if charIs d (i + 1) 47 then i + 1 + 1 else i + 1).
  pose proof (SnipByTagFacts.readName_ge d i2) as Hrn.
  pose proof (SnipByTagFacts.skipAttributes_ge (from d (readName d i2)) (readName d i2)) as Hsk.
  pose proof (skipAttributes_firstn (from d (readName d i2)) (readName d i2)
                (n - Z.to_nat (readName d i2))) as Hcut.
  assert (Hi2 : i + 1 <= i2) by (unfold i2; destruct (charIs _ _ _); lia).
  rewrite headIs_from_skipn in Hcut by lia.
  destruct (skipAttributes (from d (readName d i2)) (readName d i2)) as [sc i4] eqn:Esk.
  simpl in Hsk, Hcut |- *.
  intros Hend.
  assert (Hfin : (if charIs d i4 62 then i4 + 1 else i4) <= Z.of_nat n)
    by (destruct (charIs d i4 62); simpl in Hend; exact Hend).
  assert (Hi4 : i4 <= Z.of_nat n) by (destruct (charIs d i4 62); lia).
  (* the slash *)
  assert (Hslash : ((i + 1 <? Z.of_nat n) && charIs d (i + 1) 47)%bool
                   = charIs d (i + 1) 47).
  { destruct (charIs d (i + 1) 47) eqn:E; [|apply andb_false_r].
    rewrite andb_true_r. apply Z.ltb_lt.
    assert (Hb : i2 = i + 1 + 1) by reflexivity. lia. }
  rewrite Hslash. fold i2.
  (* the name *)
  assert (Hname : readName (firstn n d) i2 = readName d i2).
  { unfold readName in *. rewrite from_firstn, spanLength_firstn. lia. }
  rewrite Hname.
  rewrite slice_firstn by lia.
  (* the attributes *)
  rewrite from_firstn.
  destruct Hcut as [Hcut1 Hcut2];
    [destruct (charIs d i4 62); lia|].
  rewrite Hcut1.
  rewrite (charIs_firstn n d i4) by lia.
  destruct (charIs d i4 62) eqn:E; [|rewrite andb_false_r; reflexivity].
  assert ((i4 <? Z.of_nat n) = true) as -> by (apply Z.ltb_lt; lia).
  reflexivity.
Qed.

End CutFacts.

Module TagRunFacts.
Import SnipByTag TagRun JSFacts LexFacts CutFacts.

Lemma tagRun_unfold (fuel : nat) (cs : bool) (content : jsstring)
      (i : Z) (stack : list jsstring) (ss : Z) :
  tagRun (S fuel) cs content i stack ss =
    if negb (i <? len content) then Ended stack ss
    else if negb (charIs content i 60) then tagRun fuel cs content (i + 1) stack ss
    else
      let ss' := if ss =? -1 then i else ss in
      let tag := lexTag content i in
      if isEmpty (tagNameRaw tag) then InvalidName ss' (nameEnd tag)
      else
        let tagName := if cs then tagNameRaw tag else toLowerCase (tagNameRaw tag) in
        match processTag (isClosing tag) (isSelfClosing tag) tagName stack with
        | Unmatched last => Mismatched last tagName ss' (tagEnd tag)
        | Processed stack' =>
            if (Nat.eqb (length stack') 0 && negb (ss' =? -1))%bool
            then Valid ss' (tagEnd tag)
            else tagRun fuel cs content (tagEnd tag) stack' ss'
        end.
Proof. reflexivity. Qed.

(** The loop of the engine is the run, rendered. *)
Lemma tagLoop_render (fuel : nat) :
  forall cs content i stack ss,
    tagLoop fuel cs content i stack ss
    = render content (tagRun fuel cs content i stack ss).
Proof.
  induction fuel as [|f IH]; intros cs content i stack ss; [reflexivity|].
  rewrite SnipByTagFacts.tagLoop_unfold, tagRun_unfold. cbv zeta.
  destruct (negb (i <? len content)); [reflexivity|].
  destruct (negb (charIs content i 60)); [apply IH|].
  destruct (isEmpty _); [reflexivity|].
  destruct (processTag _ _ _ _); [|reflexivity].
  destruct (_ && _)%bool; [reflexivity|apply IH].
Qed.

(** More fuel does not change an outcome. *)
Lemma tagRun_more_fuel (fuel : nat) :
  forall cs content i stack ss o,
    tagRun fuel cs content i stack ss = o -> o <> Starved ->
    tagRun (S fuel) cs content i stack ss = o.
Proof.
  induction fuel as [|f IH]; intros cs content i stack ss o H Ho;
    [simpl in H; congruence|].
  rewrite tagRun_unfold in H. rewrite tagRun_unfold. cbv zeta in *.
  destruct (negb (i <? len content)); [exact H|].
  destruct (negb (charIs content i 60)); [apply IH; assumption|].
  destruct (isEmpty _); [exact H|].
  destruct (processTag _ _ _ _); [|exact H].
  destruct (_ && _)%bool; [exact H|apply IH; assumption].
Qed.

Lemma tagRun_fuel_le (f1 f2 : nat) cs content i stack ss :
  (f1 <= f2)%nat ->
  tagRun f1 cs content i stack ss <> Starved ->
  tagRun f2 cs content i stack ss = tagRun f1 cs content i stack ss.
Proof.
  induction 1 as [|f2 Hle IH]; intros H; [reflexivity|].
  apply tagRun_more_fuel; [apply IH; exact H|exact H].
Qed.

Lemma tagRun_enough_fuel (fuel : nat) cs content i stack ss :
  (Z.to_nat (len content - i) < fuel)%nat ->
  tagRun fuel cs content i stack ss <> Starved.
Proof.
  intros Hf H.
  apply (SnipByTagFacts.tagLoop_enough_fuel fuel cs content i stack ss Hf).
  rewrite tagLoop_render, H. reflexivity.
Qed.

(** The iterations over a stretch without [<] change nothing. *)
Lemma tagRun_skip (k : nat) :
  forall fuel cs content i stack ss,
    0 <= i -> i + Z.of_nat k <= len content ->
    (forall j, i <= j < i + Z.of_nat k -> charIs content j 60 = false) ->
    tagRun (k + fuel) cs content i stack ss
    = tagRun fuel cs content (i + Z.of_nat k) stack ss.
Proof.
  induction k as [|k IH]; intros fuel cs content i stack ss Hi Hlen Hno.
  - simpl. rewrite Z.add_0_r. reflexivity.
  - cbn [Nat.add]. rewrite tagRun_unfold.
    assert ((i <? len content) = true) as -> by (apply Z.ltb_lt; lia).
    rewrite (Hno i) by lia. cbn [negb].
    rewrite IH; [f_equal; lia|lia|lia|].
    intros j Hj. apply Hno. lia.
Qed.

(** A run behind a prefix [pre] is the run on the text, moved. *)
Lemma tagRun_shift (fuel : nat) :
  forall cs pre d i stack ss,
    0 <= i -> (ss = -1 \/ 0 <= ss) ->
    tagRun fuel cs (pre ++ d) (len pre + i) stack (shiftStart (len pre) ss)
    = shiftOutcome (len pre) (tagRun fuel cs d i stack ss).
Proof.
  induction fuel as [|f IH]; intros cs pre d i stack ss Hi Hss; [reflexivity|].
  pose proof (len_nonneg pre) as Hp.
  rewrite !tagRun_unfold. cbv zeta.
  rewrite len_app, charIs_app_shift by exact Hi.
  replace (len pre + i <? len pre + len d) with (i <? len d)
    by (destruct (Z.ltb_spec i (len d)), (Z.ltb_spec (len pre + i) (len pre + len d));
        try reflexivity; lia).
  destruct (negb (i <? len d)); [reflexivity|].
  destruct (negb (charIs d i 60)).
  { replace (len pre + i + 1) with (len pre + (i + 1)) by lia.
    apply IH; [lia|exact Hss]. }
  rewrite lexTag_shift by exact Hi.
  assert (Hst : (if shiftStart (len pre) ss =? -1 then len pre + i
                 else shiftStart (len pre) ss)
                = shiftStart (len pre) (if ss =? -1 then i else ss)).
  { unfold shiftStart. destruct Hss as [->|Hss].
    - simpl. destruct (Z.eqb_spec i (-1)); [lia|reflexivity].
    - assert (E1 : (ss =? -1) = false) by (apply Z.eqb_neq; lia).
      assert (E2 : (len pre + ss =? -1) = false) by (apply Z.eqb_neq; lia).
      rewrite E1, E2, E1. reflexivity. }
  rewrite Hst.
  set (ss' := if ss =? -1 then i else ss).
  assert (Hss' : 0 <= ss') by (unfold ss'; destruct (Z.eqb_spec ss (-1)); lia).
  assert (Hneg : (shiftStart (len pre) ss' =? -1) = (ss' =? -1)).
  { unfold shiftStart. destruct (Z.eqb_spec ss' (-1)); [lia|].
    destruct (Z.eqb_spec (len pre + ss') (-1)); [lia|reflexivity]. }
  cbn [shiftLexed tagNameRaw nameEnd isClosing isSelfClosing tagEnd].
  destruct (isEmpty _); [reflexivity|].
  destruct (processTag _ _ _ _); [|reflexivity].
  rewrite Hneg.
  destruct (_ && _)%bool; [reflexivity|].
  apply IH; [|right; exact Hss'].
  pose proof (SnipByTagFacts.lexTag_advances d i). lia.
Qed.

(** A run that ends [Valid] at index [j] has read nothing beyond [j]: it
    is the same on the text cut at [j]. *)
Lemma tagRun_cut (fuel : nat) :
  forall cs d i stack ss ss' j,
    0 <= i ->
    tagRun fuel cs d i stack ss = Valid ss' j ->
    i < j <= len d /\
    tagRun fuel cs (firstn (Z.to_nat j) d) i stack ss = Valid ss' j.
Proof.
  induction fuel as [|f IH]; intros cs d i stack ss ss' j Hi H; [discriminate|].
  rewrite tagRun_unfold in H. cbv zeta in H.
  destruct (Z.ltb_spec i (len d)) as [Hlt|]; cbn [negb] in H; [|discriminate].
  pose proof (SnipByTagFacts.lexTag_advances d i) as Hadv.
  pose proof (lexTag_bound d i ltac:(lia)) as Hbound.
  assert (Hcut : i < j <= len d ->
                 (tagEnd (lexTag d i) <= j \/ charIs d i 60 = false) ->
                 tagRun (S f) cs (firstn (Z.to_nat j) d) i stack ss
                 = (if negb (charIs d i 60)
                    then tagRun f cs (firstn (Z.to_nat j) d) (i + 1) stack ss
                    else
                      let ss0 := if ss =? -1 then i else ss in
                      let tag := lexTag d i in
                      if isEmpty (tagNameRaw tag) then InvalidName ss0 (nameEnd tag)
                      else
                        let tagName := if cs then tagNameRaw tag
                                       else toLowerCase (tagNameRaw tag) in
                        match processTag (isClosing tag) (isSelfClosing tag) tagName stack with
                        | Unmatched last => Mismatched last tagName ss0 (tagEnd tag)
                        | Processed stack' =>
                            if (Nat.eqb (length stack') 0 && negb (ss0 =? -1))%bool
                            then Valid ss0 (tagEnd tag)
                            else tagRun f cs (firstn (Z.to_nat j) d) (tagEnd tag) stack' ss0
                        end)).
  { intros Hj Hend. rewrite tagRun_unfold. cbv zeta.
    rewrite len_firstn.
    assert ((i <? Z.min (Z.of_nat (Z.to_nat j)) (len d)) = true) as ->
        by (apply Z.ltb_lt; lia).
    cbn [negb].
    rewrite charIs_firstn by exact Hi.
    assert ((i <? Z.of_nat (Z.to_nat j)) = true) as -> by (apply Z.ltb_lt; lia).
    cbn [andb].
    destruct (charIs d i 60) eqn:Ec; cbn [negb]; [|reflexivity].
    destruct Hend as [Hend|Hend]; [|discriminate].
    rewrite lexTag_firstn by lia. reflexivity. }
  destruct (charIs d i 60) eqn:Ec; cbn [negb] in H.
  - destruct (isEmpty _) eqn:En; [discriminate|].
    destruct (processTag _ _ _ _) as [stack'|] eqn:Ep; [|discriminate].
    destruct (_ && _)%bool eqn:Ev.
    + inversion H; subst. split; [lia|].
      rewrite Hcut by (auto; lia). cbn [negb]. cbv zeta.
      rewrite En, Ep, Ev. reflexivity.
    + apply IH in H as [Hj Hrun]; [|lia]. split; [lia|].
      rewrite Hcut by (try left; lia). cbn [negb]. cbv zeta.
      rewrite En, Ep, Ev. exact Hrun.
  - apply IH in H as [Hj Hrun]; [|lia]. split; [lia|].
    rewrite Hcut by (try right; auto; lia). cbn [negb]. exact Hrun.
Qed.

End TagRunFacts.

Module FeedbackFacts.
Import SnipByTag TagRun JSFacts LexFacts CutFacts TagRunFacts.

(** The snippet start of a [Valid] outcome: the one the run started
    with, or else the first [<] from [i] on. *)
Lemma tagRun_valid_start (fuel : nat) :
  forall cs d i stack ss ss0 j0,
    0 <= i ->
    tagRun fuel cs d i stack ss = Valid ss0 j0 ->
    (ss <> -1 -> ss0 = ss) /\
    (ss = -1 ->
       i <= ss0 /\ charIs d ss0 60 = true /\
       forall j, i <= j < ss0 -> charIs d j 60 = false).
Proof.
  induction fuel as [|f IH]; intros cs d i stack ss ss0 j0 Hi H; [discriminate|].
  rewrite tagRun_unfold in H. cbv zeta in H.
  destruct (negb (i <? len d)); [discriminate|].
  destruct (charIs d i 60) eqn:Ec; cbn [negb] in H.
  - assert (Hset : (ss <> -1 -> (if ss =? -1 then i else ss) = ss) /\
                   (ss = -1 -> (if ss =? -1 then i else ss) = i)).
    { destruct (Z.eqb_spec ss (-1)); split; congruence. }
    assert (Hnew : (if ss =? -1 then i else ss) <> -1 ->
                   ss0 = (if ss =? -1 then i else ss)).
    { destruct (isEmpty _); [discriminate|].
      destruct (processTag _ _ _ _); [|discriminate].
      destruct (_ && _)%bool; [inversion H; reflexivity|].
      intros Hne. eapply IH in H as [H _]; [exact (H Hne)|].
      pose proof (SnipByTagFacts.lexTag_advances d i). lia. }
    destruct Hset as [Hs1 Hs2]. split.
    + intros Hne. rewrite Hnew; rewrite Hs1; auto.
    + intros He. rewrite Hnew; rewrite Hs2 by exact He; [|lia].
      split; [lia|]. split; [exact Ec|]. intros j Hj. lia.
  - apply IH in H as [H1 H2]; [|lia]. split; [exact H1|].
    intros He. destruct (H2 He) as (Hle & Hc & Hno).
    split; [lia|]. split; [exact Hc|].
    intros j Hj. destruct (Z.eq_dec j i) as [->|]; [exact Ec|apply Hno; lia].
Qed.

(** The data of a success, given back to the tag engine under the same
    options, is returned as the data of the same success. *)
Lemma snipByTag_feedback (content : Value) (opts : option Options) (r : Result) :
  snipByTag content opts = Normal r ->
  status r = Success ->
  snipByTag (data r) opts = Normal r.
Proof.
  unfold snipByTag at 1.
  destruct content as [| |b|lit|s|items|props];
    try (intros H; inversion H; subst; discriminate).
  destruct (isEmpty s); [intros H; inversion H; subst; discriminate|].
  set (cs := caseSensitiveOf opts).
  rewrite tagLoop_render.
  destruct (tagRun (S (length s)) cs s 0 [] (-1)) as [p j| | |stack ss0|] eqn:Hrun;
    cbn [render]; intros H; inversion H; subst r; clear H;
    try (intros; discriminate).
  2: { unfold endOfInput. destruct stack; [destruct (negb _)|]; discriminate. }
  intros _. cbn [data].
  (* the snippet starts at the first [<], at index [p] *)
  destruct (tagRun_valid_start _ _ _ _ _ _ _ _ (Z.le_refl 0) Hrun) as [_ Hstart].
  destruct (Hstart eq_refl) as (Hp & Hlt & Hno). clear Hstart.
  assert (Hplen : p < len s).
  { apply SnipByTagFacts.charIs_true in Hlt as [_ Hn].
    assert (Z.to_nat p < length s)%nat by (apply nth_error_Some; rewrite Hn; discriminate).
    unfold len. lia. }
  (* the run from [p] *)
  assert (Hfrom : tagRun (S (length s)) cs s p [] (-1) = Valid p j).
  { rewrite <- (Z2Nat.id p) at 1 by exact Hp.
    rewrite <- (Z.add_0_l (Z.of_nat (Z.to_nat p))).
    rewrite <- tagRun_skip; [|lia|lia|intros k Hk; apply Hno; lia].
    rewrite tagRun_fuel_le with (f1 := S (length s)); [exact Hrun|lia|].
    rewrite Hrun. discriminate. }
  (* the run on the text from [p] on *)
  set (pre := firstn (Z.to_nat p) s).
  set (d' := from s p).
  assert (Hs : s = pre ++ d') by (symmetry; apply firstn_skipn).
  assert (Hpre : len pre = p) by (unfold pre; rewrite len_firstn; lia).
  assert (Hshift : shiftOutcome p (tagRun (S (length s)) cs d' 0 [] (-1)) = Valid p j).
  { rewrite <- Hpre at 1. rewrite <- tagRun_shift by (auto; lia).
    unfold shiftStart. cbn [Z.eqb]. rewrite Z.add_0_r, Hpre, <- Hs. exact Hfrom. }
  destruct (tagRun (S (length s)) cs d' 0 [] (-1)) as [q j0| | | |] eqn:Hrun';
    try discriminate.
  cbn [shiftOutcome] in Hshift. injection Hshift as Hq Hj.
  assert (q = 0) as ->.
  { unfold shiftStart in Hq. destruct (Z.eqb_spec q (-1)); lia. }
  clear Hq. subst j.
  (* the run on the text cut at the end of the snippet *)
  destruct (tagRun_cut _ _ _ _ _ _ _ _ (Z.le_refl 0) Hrun') as [Hj0 Hcut].
  assert (Hlen' : len d' = len s - p).
  { unfold d'. rewrite from_length by exact Hp. lia. }
  assert (Hd : slice s p (p + j0) = firstn (Z.to_nat j0) d').
  { rewrite ScanFacts.slice_from by lia. unfold d'. f_equal. lia. }
  rewrite Hd.
  set (d := firstn (Z.to_nat j0) d') in *.
  assert (Hdlen : len d = j0) by (unfold d; rewrite len_firstn; lia).
  unfold snipByTag.
  destruct d as [|c t] eqn:Ed; [unfold len in Hdlen; simpl in Hdlen; lia|].
  cbn [isEmpty]. rewrite <- Ed in *. fold cs.
  rewrite tagLoop_render.
  rewrite (tagRun_fuel_le (S (length d)) (S (length s))) in Hcut.
  - rewrite Hcut. cbn [render].
    assert (Hself : slice d 0 j0 = d).
    { rewrite ScanFacts.slice_from by lia.
      unfold from. simpl. apply firstn_all2. unfold len in Hdlen. lia. }
    rewrite Hself. reflexivity.
  - unfold len in *. lia.
  - apply tagRun_enough_fuel. unfold len. lia.
Qed.

End FeedbackFacts.

(* ===================================================================== *)
(** * Feeding the data of a success back: the JSON engine                 *)
(* ===================================================================== *)

Module JsonFeedbackFacts.
Import JSON SnipJson JSFacts.

(** What starts with a brace decodes to an object, what starts with a
    bracket to an array. *)
Lemma parse_containers (fuel : nat) :
  (forall s acc v r, parseElements fuel s acc = Parsed v r -> isContainer v = true) /\
  (forall s acc v r, parseMembers fuel s acc = Parsed v r -> isContainer v = true).
Proof.
  induction fuel as [|f [IHe IHm]]; [split; intros; discriminate|].
  split.
  - intros s acc v r H. simpl in H.
    destruct (parseValue f s) as [v0 r0| |]; try discriminate.
    destruct (skipSpace r0) as [|d r1]; [discriminate|].
    destruct (N.eqb d 44); [eapply IHe; exact H|].
    destruct (N.eqb d 93); inversion H; reflexivity.
  - intros s acc v r H. simpl in H.
    destruct s as [|q t]; [discriminate|].
    destruct (N.eqb q 34); [|discriminate].
    destruct (parseStringBody t) as [k r0| |]; try discriminate.
    destruct (skipSpace r0) as [|d r1]; [discriminate|].
    destruct (N.eqb d 58); [|discriminate].
    destruct (parseValue f (skipSpace r1)) as [v0 r2| |]; try discriminate.
    destruct (skipSpace r2) as [|e r3]; [discriminate|].
    destruct (N.eqb e 44); [eapply IHm; exact H|].
    destruct (N.eqb e 125); inversion H; reflexivity.
Qed.

Lemma parse_opening (c : N) (rest : jsstring) (v : Value) :
  OPENING c = true ->
  parse (c :: rest) = Normal v ->
  isContainer v = true.
Proof.
  intros Ho. unfold parse.
  assert (Hsp : skipSpace (c :: rest) = c :: rest).
  { unfold OPENING in Ho. simpl. unfold isJsonSpace.
    destruct (N.eqb_spec c 123) as [->|]; [reflexivity|].
    destruct (N.eqb_spec c 91) as [->|]; [reflexivity|discriminate]. }
  rewrite Hsp.
  destruct (parseValue _ _) as [v0 r0| |] eqn:Hp; try discriminate.
  destruct (skipSpace r0); [|discriminate].
  intros H; inversion H; subst v0. clear H.
  cbn [parseValue] in Hp.
  unfold OPENING in Ho.
  destruct (N.eqb c 123).
  { destruct (skipSpace rest) as [|d r]; [discriminate|].
    destruct (N.eqb d 125); [inversion Hp; reflexivity|].
    eapply (proj2 (parse_containers _)); exact Hp. }
  destruct (N.eqb c 91); [|discriminate].
  destruct (skipSpace rest) as [|d r]; [discriminate|].
  destruct (N.eqb d 93); [inversion Hp; reflexivity|].
  eapply (proj1 (parse_containers _)); exact Hp.
Qed.

(** A slice that starts inside the text starts with the code unit
    there. *)
Lemma slice_head (content : jsstring) (start b : Z) (c : N) (rest : jsstring) :
  0 <= start < b ->
  from content start = c :: rest ->
  exists tl, slice content start b = c :: tl.
Proof.
  intros Hb Hc. unfold slice, clampIndex.
  assert (Hl : start < len content).
  { pose proof (JSFacts.from_length content start ltac:(lia)) as Hf.
    rewrite Hc in Hf. unfold len in *. cbn [length] in Hf. lia. }
  assert ((start <? 0) = false) as -> by (apply Z.ltb_ge; lia).
  assert ((b <? 0) = false) as -> by (apply Z.ltb_ge; lia).
  rewrite (Z.min_l start) by lia.
  unfold from in Hc. rewrite Hc.
  destruct (Z.to_nat (Z.min b (len content) - start)) as [|n] eqn:E; [lia|].
  simpl. eauto.
Qed.

Lemma structural_success
      (text : jsstring) (start : Z) (c : N) (rest : jsstring) (r : Result) :
  0 <= start ->
  from text start = c :: rest ->
  OPENING c = true ->
  structural text start = Normal r ->
  status r = Success ->
  r = {| status := Success;
         comments := js "JSON successfully extracted and parsed.";
         data := data r;
         raw := VNull |}
  /\ isContainer (data r) = true.
Proof.
  intros H0 Hc Ho. unfold structural.
  destruct (scan (from text start) start []) as [i|e|[|last [|? ?]]] eqn:Hscan;
    try (intros H; inversion H; subst; discriminate).
  - destruct (SnipJsonFacts.scan_balanced_prefix _ _ _ _ Hscan) as [Hb _].
    destruct (slice_head text start (e + 1) c rest ltac:(lia) Hc) as [tl Hsl].
    rewrite Hsl. unfold parseJsonSafely.
    destruct (parse (c :: tl)) as [v|err|] eqn:Hp; cbn [bind Attempt.success];
      try (intros H; inversion H; subst; discriminate).
    intros H _. inversion H; subst r. cbn [data Attempt.data].
    split; [reflexivity|]. eapply parse_opening; eassumption.
  - unfold parseJsonSafely.
    destruct (parse _) as [v|err|]; cbn [bind Attempt.success];
      intros H; inversion H; subst; discriminate.
Qed.

(** A success of the engine: its comment, its empty raw, and its data,
    an object or an array. *)
Lemma snipJson_success (content : Value) (r : Result) :
  snipJson content = Normal r ->
  status r = Success ->
  r = {| status := Success;
         comments := js "JSON successfully extracted and parsed.";
         data := data r;
         raw := VNull |}
  /\ isContainer (data r) = true.
Proof.
  unfold snipJson.
  destruct content as [| |b|lit|s|items|props];
    try (intros H; inversion H; subst; discriminate).
  destruct (isEmpty s); [intros H; inversion H; subst; discriminate|].
  cbn [sanitizeContent bind]. unfold extract.
  set (text := sanitize s).
  destruct (Z.eqb_spec (findStart text) (-1)) as [|Hstart];
    [intros H; inversion H; subst; discriminate|].
  destruct (ScanFacts.findStart_opening text Hstart) as (H0 & c & rest & Hc & Ho).
  unfold fastPath.
  destruct (Z.gtb_spec (lastIndexOf text (pairText (charAt text (findStart text))))
                       (findStart text)) as [Hgt|Hle].
  - destruct (slice_head text (findStart text)
                (lastIndexOf text (pairText (charAt text (findStart text))) + 1)
                c rest ltac:(lia) Hc) as [tl Hsl].
    rewrite Hsl. unfold parseJsonSafely.
    destruct (parse (c :: tl)) as [v|e|] eqn:Hp; cbn [bind Attempt.success].
    + intros H _. inversion H; subst r. cbn [data]. split; [reflexivity|].
      eapply parse_opening; eassumption.
    + apply structural_success with (c := c) (rest := rest); assumption.
    + discriminate.
  - cbn [bind]. apply structural_success with (c := c) (rest := rest); assumption.
Qed.

(** The text [JSON.stringify] gives for an object or an array starts with
    the opening delimiter and ends with its closer. *)
Lemma stringify_container (v : Value) (t : jsstring) :
  isContainer v = true ->
  stringify v = Some t ->
  exists o c body, PAIRS o = Some c /\ t = o :: body ++ [c].
Proof.
  destruct v; try discriminate; intros _ H; simpl in H; inversion H.
  - exists 91%N, 93%N. eexists. split; reflexivity.
  - exists 123%N, 125%N. eexists. split; reflexivity.
Qed.

Lemma lastIndexOfFrom_last (c : N) (x : jsstring) :
  forall i, 0 <= i -> lastIndexOfFrom [c] (x ++ [c]) i = i + len x.
Proof.
  unfold len.
  induction x as [|a x' IH]; intros i Hi.
  - simpl. rewrite N.eqb_refl. simpl. lia.
  - cbn [app lastIndexOfFrom]. rewrite IH by lia.
    assert ((i + 1 + Z.of_nat (length x') =? -1) = false) as ->
        by (apply Z.eqb_neq; lia).
    cbn [length]. lia.
Qed.

Lemma findStart_head (o : N) (t : jsstring) :
  OPENING o = true -> findStart (o :: t) = 0.
Proof.
  unfold OPENING, findStart, indexOf. intros Ho. cbn [indexOfFrom].
  destruct (N.eqb_spec o 123) as [->|Hn].
  - cbn [N.eqb Pos.eqb]. simpl (0 =? -1).
    destruct (ScanFacts.indexOfFrom_range 91 t (0 + 1) ltac:(lia)) as [->|H]; [reflexivity|].
    destruct (Z.eqb_spec (indexOfFrom 91 t (0 + 1)) (-1)); [reflexivity|lia].
  - destruct (N.eqb_spec o 91) as [->|]; [|discriminate].
    destruct (ScanFacts.indexOfFrom_range 123 t (0 + 1) ltac:(lia)) as [->|H]; [reflexivity|].
    destruct (Z.eqb_spec (indexOfFrom 123 t (0 + 1)) (-1)); [reflexivity|].
    simpl (0 =? -1). cbv iota. lia.
Qed.

(** On a text that is an opening delimiter, a body and the closer, and
    that decodes, the fast path returns the decoded value. *)
Lemma extract_bracketed (o c : N) (body : jsstring) (v : Value) :
  PAIRS o = Some c ->
  parse (o :: body ++ [c]) = Normal v ->
  extract (o :: body ++ [c]) =
    Normal {| status := Success;
              comments := js "JSON successfully extracted and parsed.";
              data := v;
              raw := VNull |}.
Proof.
  intros Hp Hv.
  assert (Ho : OPENING o = true).
  { unfold PAIRS in Hp. unfold OPENING.
    destruct (N.eqb o 123); [reflexivity|].
    destruct (N.eqb o 91); [reflexivity|discriminate]. }
  unfold extract. rewrite findStart_head by exact Ho. simpl (0 =? -1).
  unfold fastPath. change (charAt (o :: body ++ [c]) 0) with (Some o).
  unfold pairText. rewrite Hp.
  change (o :: body ++ [c]) with ((o :: body) ++ [c]).
  unfold lastIndexOf. rewrite lastIndexOfFrom_last by lia.
  pose proof (len_nonneg (o :: body)) as Hl.
  assert (Hlen : len (o :: body) = 1 + len body) by (unfold len; cbn [length]; lia).
  assert ((0 + len (o :: body) >? 0) = true) as ->.
  { pose proof (len_nonneg body). apply Z.gtb_lt. lia. }
  assert (Hsl : slice ((o :: body) ++ [c]) 0 (0 + len (o :: body) + 1)
                = (o :: body) ++ [c]).
  { rewrite ScanFacts.slice_from; [|lia|rewrite len_app; unfold len; simpl; lia].
    unfold from. simpl skipn. apply firstn_all2.
    rewrite length_app. unfold len. simpl. lia. }
  rewrite Hsl. unfold parseJsonSafely.
  change ((o :: body) ++ [c]) with (o :: body ++ [c]). rewrite Hv.
  reflexivity.
Qed.

(** The data of a success, serialized and given back to the engine, is
    returned as the data of the same success, provided the serialized
    text is left alone by [sanitizeContent] and decodes to the data. *)
Lemma snipJson_feedback (content : Value) (r : Result) (t : jsstring) :
  snipJson content = Normal r ->
  status r = Success ->
  stringify (data r) = Some t ->
  sanitize t = t ->
  parse t = Normal (data r) ->
  snipJson (VString t) = Normal r.
Proof.
  intros Hr Hs Ht Hsan Hparse.
  destruct (snipJson_success content r Hr Hs) as [Hshape Hcont].
  destruct (stringify_container _ _ Hcont Ht) as (o & c & body & Hp & ->).
  unfold snipJson. cbn [isEmpty sanitizeContent bind]. rewrite Hsan.
  rewrite (extract_bracketed o c body (data r) Hp Hparse).
  rewrite Hshape at 2. reflexivity.
Qed.

End JsonFeedbackFacts.

(** C8, as stated, fails for the JSON engine.  An object whose string
    holds a backtick (written with an escape in the input) is a success;
    its serialization holds the backtick itself, which the engine
    removes before it decodes, so the second success carries another
    value.  An object whose string holds a line feed serializes with an
    escaped [\n], which the engine turns into a line feed inside the
    string literal: the second run is not a success. *)
Lemma feedback_counterexample :
  snipJson (VString (jq "{'a':'\u0060'}")) =
    Normal {| status := Success;
              comments := js "JSON successfully extracted and parsed.";
              data := VObject [(js "a", VString (js "`"))];
              raw := VNull |}
  /\ JSON.stringify (VObject [(js "a", VString (js "`"))]) = Some (jq "{'a':'`'}")
  /\ snipJson (VString (jq "{'a':'`'}")) =
       Normal {| status := Success;
                 comments := js "JSON successfully extracted and parsed.";
                 data := VObject [(js "a", VString [])];
                 raw := VNull |}
  /\ snipJson (VString (jq "{'a':'\u000a'}")) =
       Normal {| status := Success;
                 comments := js "JSON successfully extracted and parsed.";
                 data := VObject [(js "a", VString [10%N])];
                 raw := VNull |}
  /\ JSON.stringify (VObject [(js "a", VString [10%N])]) = Some (jq "{'a':'\n'}")
  /\ exists r, snipJson (VString (jq "{'a':'\n'}")) = Normal r /\ status r = Check.
Proof.
  repeat split; try (vm_compute; reflexivity).
  eexists. split; vm_compute; reflexivity.
Qed.

(** C8, amended.  A success of the tag engine, fed back its data under
    the same options, returns the same success.  A success of the JSON
    engine, fed back the serialization of its data, returns the same
    success when [sanitizeContent] leaves the serialized text unchanged
    and the text decodes to the data. *)
Theorem feeding_success_data_back (content : Value) (r : Result) :
  status r = Success ->
  (forall opts, snipByTag content opts = Normal r ->
                snipByTag (data r) opts = Normal r)
  /\ (forall t, snipJson content = Normal r ->
                JSON.stringify (data r) = Some t ->
                sanitize t = t ->
                JSON.parse t = Normal (data r) ->
                snipJson (VString t) = Normal r).
Proof.
  intros Hs. split.
  - intros opts Hr. apply (FeedbackFacts.snipByTag_feedback content); assumption.
  - intros t Hr Ht Hsan Hp. eapply JsonFeedbackFacts.snipJson_feedback; eassumption.
Qed.

Lemma feeding_success_data_back_witness :
  (snipByTag (VString (js "see <a href=x>this</a> and more")) None =
     Normal {| status := Success;
               comments := js "Valid tag structure found.";
               data := VString (js "<a href=x>this</a>");
               raw := VNull |}
   /\ snipByTag (VString (js "<a href=x>this</a>")) None =
        Normal {| status := Success;
                  comments := js "Valid tag structure found.";
                  data := VString (js "<a href=x>this</a>");
                  raw := VNull |})
  /\ (snipJson (VString (jq "noise {'a': [1, 2]} noise")) =
        Normal {| status := Success;
                  comments := js "JSON successfully extracted and parsed.";
                  data := VObject [(js "a", VArray [VNumber (js "1"); VNumber (js "2")])];
                  raw := VNull |}
      /\ snipJson (VString (jq "{'a':[1,2]}")) =
           Normal {| status := Success;
                     comments := js "JSON successfully extracted and parsed.";
                     data := VObject [(js "a", VArray [VNumber (js "1"); VNumber (js "2")])];
                     raw := VNull |}).
Proof.
  split; (split; [reflexivity|]).
  - exact (proj1 (feeding_success_data_back
                    (VString (js "see <a href=x>this</a> and more"))
                    {| status := Success;
                       comments := js "Valid tag structure found.";
                       data := VString (js "<a href=x>this</a>");
                       raw := VNull |}
                    eq_refl)
                 None eq_refl).
  - exact (proj2 (feeding_success_data_back
                    (VString (jq "noise {'a': [1, 2]} noise"))
                    {| status := Success;
                       comments := js "JSON successfully extracted and parsed.";
                       data := VObject [(js "a", VArray [VNumber (js "1");
                                                         VNumber (js "2")])];
                       raw := VNull |}
                    eq_refl)
                 (jq "{'a':[1,2]}") eq_refl eq_refl eq_refl eq_refl).
Defined.

(* ===================================================================== *)
(** * The documented examples                                             *)
(* ===================================================================== *)

(** The outputs that [examples/use-snipSmart.js] and [README.md] announce,
    computed by the model. *)

(** [examples/use-snipSmart.js], JSON mode: the announced comment is the
    one of the revision without a file name. *)
Example example_json_mismatch :
  Index.dispatch SnipJson.snipJson (VString exampleJsonInput)
                 (Index.FormatName (js "json")) =
    Normal {| status := Fail;
              comments := js "Bracket mismatch detected.";
              data := VNull;
              raw := VString (jq "{ 'key': 'value', 'open': [1, 2 }") |}.
Proof. vm_compute. reflexivity. Qed.

(** The same call over [src/snipJson.js]: same status and raw, with the
    comment of that revision. *)
Example example_json_mismatch_src :
  Index.snipSmart (VString exampleJsonInput) (Index.FormatName (js "json")) =
    Normal {| status := Fail;
              comments := js "Bracket mismatch";
              data := VNull;
              raw := VString (jq "{ 'key': 'value', 'open': [1, 2 }") |}.
Proof. vm_compute. reflexivity. Qed.

(** [examples/use-snipSmart.js], tag mode. *)
Example example_tag :
  Index.snipSmart (VString exampleTagInput) (Index.FormatName (js "tag")) =
    Normal {| status := Success;
              comments := js "Valid tag structure found.";
              data := VString (js "<div><p>Hello <b>World</b></p></div>");
              raw := VNull |}.
Proof. vm_compute. reflexivity. Qed.

(** [examples/use-snipSmart.js], an unknown format: no engine runs and
    the content comes back as raw. *)
Example example_invalid_format :
  Index.snipSmart (VString exampleJsonInput) (Index.FormatName (js "unknown")) =
    Normal {| status := Fail;
              comments := js "Invalid format 'unknown'. Expected 'json' or 'tag'.";
              data := VNull;
              raw := VString exampleJsonInput |}.
Proof. vm_compute. reflexivity. Qed.

(** [README.md], the repair of one missing brace: the announced comment
    is the one of [src/snipJson.js]; the other revision returns the same
    status and data under its own comment. *)
Example example_readme_repair :
  Index.snipSmart (VString (jq "Broken JSON: { 'name': 'Alice', 'age': 30 "))
                  (Index.FormatName (js "json")) =
    Normal {| status := Check;
              comments := js "Added missing closing brace. Parsing passed";
              data := VObject [(js "name", VString (js "Alice"));
                               (js "age", VNumber (js "30"))];
              raw := VNull |}
  /\ SnipJson.snipJson (VString (jq "Broken JSON: { 'name': 'Alice', 'age': 30 ")) =
       Normal {| status := Check;
                 comments := js "One missing closing bracket auto-added. Please verify.";
                 data := VObject [(js "name", VString (js "Alice"));
                                  (js "age", VNumber (js "30"))];
                 raw := VNull |}.
Proof. split; vm_compute; reflexivity. Qed.

(** [snipSmartOrThrow] on the three calls of
    [examples/use-snipSmartOrThrow.js]. *)
Example example_or_throw :
  (exists r, Index.snipSmartOrThrow (VString exampleJsonInput)
                                    (Index.FormatName (js "json"))
             = Throw (SnipSmartError (js "Bracket mismatch") r))
  /\ Index.snipSmartOrThrow
       (VString (js "
Noise before
<section><h1>Hello</h1><p>World</p></section>
Noise after
")) (Index.FormatName (js "tag"))
     = Normal (VString (js "<section><h1>Hello</h1><p>World</p></section>"))
  /\ (exists r, Index.snipSmartOrThrow (VString exampleJsonInput)
                                       (Index.FormatName (js "unknown"))
                = Throw (SnipSmartError
                           (js "Invalid format 'unknown'. Expected 'json' or 'tag'.") r)).
Proof.
  split; [eexists; vm_compute; reflexivity|].
  split; [vm_compute; reflexivity|].
  eexists; vm_compute; reflexivity.
Qed.

(* ===================================================================== *)
(** * Further properties of the tag engine                              *)
(* ===================================================================== *)

Module TagOutcomeFacts.
Import TagRun JSFacts LexFacts CutFacts TagRunFacts SnipByTagFacts.

Lemma indexOfFrom_absent (c : N) (s : jsstring) :
  forall k, 0 <= k -> (indexOfFrom c s k = -1 <-> ~ In c s).
Proof.
  induction s as [|x t IH]; intros k Hk; simpl.
  - split; auto.
  - destruct (N.eqb_spec x c) as [->|Hne].
    + split; [lia|]. intros H. exfalso. apply H. left. reflexivity.
    + rewrite IH by lia. split.
      * intros H [E|E]; auto.
      * intros H E. apply H. right. exact E.
Qed.

Lemma indexOf_absent (s : jsstring) (c : N) : indexOf s c = -1 <-> ~ In c s.
Proof. apply indexOfFrom_absent. lia. Qed.

Lemma charIs_In (s : jsstring) (i : Z) (c : N) : charIs s i c = true -> In c s.
Proof.
  intros H. apply charIs_true in H as [_ H]. eapply nth_error_In. exact H.
Qed.


Lemma tagRun_outcome (fuel : nat) :
  forall cs d i stack ss,
    0 <= i ->
    startState d i stack ss ->
    (ss <> -1 -> ss < i) ->
    (stack = [] -> ss = -1) ->
    match tagRun fuel cs d i stack ss with
    | Valid ss' j => anchored d ss' j
    | InvalidName ss' j => anchored d ss' j
    | Mismatched _ tagName ss' j => anchored d ss' j /\ tagName <> []
    | Ended st ss' =>
        (ss' = -1 /\ st = [] /\ indexOf d 60 = -1) \/
        (ss' = indexOf d 60 /\ charIs d ss' 60 = true /\ st <> [])
    | Starved => True
    end.
Proof.
  induction fuel as [|f IH]; intros cs d i stack ss Hi Hst Hlt Hemp; [exact I|].
  rewrite tagRun_unfold. cbv zeta.
  destruct (Z.ltb_spec i (len d)) as [Hlen|Hlen]; cbn [negb].
  2: { destruct Hst as [(-> & -> & Hno)|(H0 & Heq & Hc)];
         [left|right; repeat split; auto; intros ->; specialize (Hemp eq_refl); lia].
       repeat split; try reflexivity.
       apply indexOf_absent. intros Hin.
       apply In_nth_error in Hin as [n Hn].
       assert (n < length d)%nat by (apply nth_error_Some; rewrite Hn; discriminate).
       assert (charIs d (Z.of_nat n) 60 = true) as Ht.
       { apply charIs_true. rewrite Nat2Z.id. split; [lia|exact Hn]. }
       rewrite Hno in Ht; [discriminate|]. unfold len in Hlen. lia. }
  destruct (charIs d i 60) eqn:Ec; cbn [negb].
  2: { apply IH; [lia| |intros H; specialize (Hlt H); lia|exact Hemp].
       destruct Hst as [(-> & -> & Hno)|Hst]; [left|right; exact Hst].
       repeat split; try reflexivity.
       intros j Hj. destruct (Z.eq_dec j i) as [->|]; [exact Ec|apply Hno; lia]. }
  pose proof (lexTag_advances d i) as Hadv.
  pose proof (lexTag_bound d i ltac:(lia)) as Hbound.
  set (ss' := if ss =? -1 then i else ss).
  assert (Hss' : ss' = indexOf d 60 /\ charIs d ss' 60 = true /\ ss' <= i).
  { unfold ss'. destruct Hst as [(-> & _ & Hno)|(H0 & Heq & Hc)].
    - simpl. split; [symmetry; apply indexOf_first; assumption|]. split; [exact Ec|lia].
    - assert ((ss =? -1) = false) as -> by (apply Z.eqb_neq; lia).
      split; [exact Heq|]. split; [exact Hc|]. assert (ss <> -1) by lia. auto with zarith. }
  destruct Hss' as (Hidx & Hc' & Hle).
  destruct (isEmpty _) eqn:En.
  { unfold anchored. repeat split; auto; lia. }
  assert (Hname : forall cs0 : bool,
             (if cs0 then tagNameRaw (lexTag d i)
              else toLowerCase (tagNameRaw (lexTag d i))) <> []).
  { intros cs0. destruct (tagNameRaw (lexTag d i)); [discriminate|].
    destruct cs0; discriminate. }
  destruct (processTag _ _ _ _) as [stack'|last] eqn:Ep.
  2: { split; [|apply Hname]. unfold anchored. repeat split; auto; lia. }
  destruct (_ && _)%bool eqn:Ev.
  { unfold anchored. repeat split; auto; lia. }
  assert (H0 : 0 <= ss') by (apply charIs_true in Hc' as [H0 _]; exact H0).
  apply IH; [lia| |intros _; lia|].
  - right. split; [exact H0|split; assumption].
  - intros ->. simpl in Ev.
    destruct (Z.eqb_spec ss' (-1)); [lia|discriminate].
Qed.

End TagOutcomeFacts.

Module TagResultFacts.
Import TagRun JSFacts LexFacts CutFacts TagRunFacts SnipByTagFacts TagOutcomeFacts.


Lemma snipByTag_finish (s : jsstring) (opts : option Options) :
  s <> [] ->
  snipByTag (VString s) opts
  = finish s (tagRun (S (length s)) (caseSensitiveOf opts) s 0 [] (-1))
  /\ tagRun (S (length s)) (caseSensitiveOf opts) s 0 [] (-1) <> Starved.
Proof.
  intros Hs. split.
  - unfold snipByTag, finish. destruct s; [congruence|]. cbn [isEmpty].
    rewrite tagLoop_render. reflexivity.
  - apply tagRun_enough_fuel. unfold len. lia.
Qed.

Lemma snipByTag_outcome (s : jsstring) (opts : option Options) :
  match tagRun (S (length s)) (caseSensitiveOf opts) s 0 [] (-1) with
  | Valid ss' j => anchored s ss' j
  | InvalidName ss' j => anchored s ss' j
  | Mismatched _ tagName ss' j => anchored s ss' j /\ tagName <> []
  | Ended st ss' =>
      (ss' = -1 /\ st = [] /\ indexOf s 60 = -1) \/
      (ss' = indexOf s 60 /\ charIs s ss' 60 = true /\ st <> [])
  | Starved => True
  end.
Proof.
  apply tagRun_outcome; [lia| |congruence|reflexivity].
  left. repeat split; try reflexivity. intros j Hj. lia.
Qed.

Lemma anchored_slice (s : jsstring) (ss j : Z) :
  anchored s ss j ->
  0 <= ss /\ (ss =? -1) = false /\
  exists tl, slice s ss j = 60%N :: tl.
Proof.
  intros (Hidx & Hc & Hj).
  pose proof Hc as Hc'. apply charIs_true in Hc' as [H0 Hn].
  split; [exact H0|]. split; [apply Z.eqb_neq; lia|].
  rewrite ScanFacts.slice_from by lia.
  unfold from. 
  destruct (skipn (Z.to_nat ss) s) as [|c tl] eqn:Es.
  - exfalso. assert (nth_error s (Z.to_nat ss) = None).
    { rewrite <- (firstn_skipn (Z.to_nat ss) s), Es, app_nil_r.
      apply nth_error_None. rewrite length_firstn. lia. }
    congruence.
  - assert (c = 60%N) as ->.
    { assert (nth_error s (Z.to_nat ss) = Some c).
      { rewrite <- (Nat.add_0_r (Z.to_nat ss)), <- nth_error_skipn, Es. reflexivity. }
      congruence. }
    destruct (Z.to_nat (j - ss)) as [|n] eqn:En; [lia|].
    simpl. eexists. reflexivity.
Qed.

End TagResultFacts.

Import TagRun.

Ltac invalid_input :=
  eexists; split; [reflexivity|]; right; left; simpl; auto 10.

(** X1.  The outcomes of [snipByTag], for every value and every options
    object.  It returns a result of one of three kinds: a success, with
    the comment "Valid tag structure found.", a string as [data] and no
    [raw]; a failure with neither [data] nor [raw], whose comment is the
    one of the input check or "No tags found."; a failure with no [data]
    and a string as [raw], whose comment is "Invalid tag name.", that of
    a mismatched closing tag or that of an unclosed tag. *)
Theorem tag_outcome_table (content : Value) (opts : option Options) :
  exists r,
    snipByTag content opts = Normal r /\
    ((status r = Success /\ comments r = js "Valid tag structure found."
      /\ raw r = VNull /\ exists d, data r = VString d)
     \/
     (status r = Fail /\ data r = VNull /\ raw r = VNull
      /\ (comments r = js "Invalid input: content must be a non-empty string."
          \/ comments r = js "No tags found."))
     \/
     (status r = Fail /\ data r = VNull /\ (exists t, raw r = VString t)
      /\ (comments r = js "Invalid tag name."
          \/ (exists last tagName, comments r = mismatchComment last tagName)
          \/ (exists top, comments r = js "Unclosed tag <" ++ top ++ js ">.")))).
Proof.
  destruct content as [| |b|lit|s|items|props]; try solve [invalid_input].
  destruct s as [|c0 s0]; [invalid_input|].
  set (s := c0 :: s0).
  destruct (TagResultFacts.snipByTag_finish s opts ltac:(discriminate)) as [-> Hfuel].
  pose proof (TagResultFacts.snipByTag_outcome s opts) as Hout.
  destruct (tagRun _ _ _ _ _ _) as [ss j|ss j|last name ss j|st ss|];
    [| | | |congruence]; unfold finish; cbn [render].
  - eexists; split; [reflexivity|]. left. simpl. eauto.
  - destruct (TagResultFacts.anchored_slice _ _ _ Hout) as (_ & E & tl & Hsl).
    eexists; split; [reflexivity|]. right; right.
    unfold rawSlice. rewrite E. simpl. eauto 10.
  - destruct Hout as [Hout _].
    destruct (TagResultFacts.anchored_slice _ _ _ Hout) as (_ & E & tl & Hsl).
    eexists; split; [reflexivity|]. right; right.
    unfold rawSlice. rewrite E. simpl. eauto 10.
  - eexists; split; [reflexivity|].
    destruct Hout as [(-> & -> & _)|(Hidx & Hc & Hne)].
    + right; left. simpl. auto.
    + right; right.
      assert ((ss =? -1) = false) as E.
      { apply Z.eqb_neq. apply SnipByTagFacts.charIs_true in Hc. lia. }
      unfold endOfInput. destruct st as [|top st']; [congruence|].
      rewrite E. simpl. eauto 10.
Qed.

(** X2.  [snipByTag] answers "No tags found." exactly on the non-empty
    strings that hold no [<], and the result is then the bare failure,
    with neither [data] nor [raw]. *)
Theorem no_tags_found_iff (s : jsstring) (opts : option Options) :
  exists r,
    snipByTag (VString s) opts = Normal r /\
    (comments r = js "No tags found." <-> s <> [] /\ ~ In 60%N s) /\
    (comments r = js "No tags found." -> r = failWith (js "No tags found.") VNull).
Proof.
  destruct s as [|c0 s0].
  { eexists; split; [reflexivity|]. split; [split|]; simpl.
    - discriminate.
    - intros [H _]; congruence.
    - discriminate. }
  set (s := c0 :: s0).
  assert (Hs : s <> []) by discriminate.
  destruct (TagResultFacts.snipByTag_finish s opts Hs) as [-> Hfuel].
  pose proof (TagResultFacts.snipByTag_outcome s opts) as Hout.
  destruct (tagRun _ _ _ _ _ _) as [ss j|ss j|last name ss j|st ss|];
    [| | | |congruence]; unfold finish; cbn [render].
  1-3: eexists; split; [reflexivity|];
       assert (Hin : In 60%N s)
         by (try (destruct Hout as [Hout Hnm];
                  match type of Hnm with _ <> [] => idtac end);
             destruct Hout as (_ & Hc & _);
             eapply TagOutcomeFacts.charIs_In; exact Hc);
       split; [split; [|intros [_ H]; contradiction]|]; simpl;
       unfold mismatchComment; simpl; discriminate.
  eexists; split; [reflexivity|].
  destruct Hout as [(-> & -> & Hidx)|(Hidx & Hc & Hne)].
  - simpl. split; [split|]; auto.
    intros _. split; [exact Hs|].
    apply (proj1 (TagOutcomeFacts.indexOf_absent s 60)). exact Hidx.
  - assert (Hin : In 60%N s) by (eapply TagOutcomeFacts.charIs_In; exact Hc).
    destruct st as [|top st']; [congruence|]. simpl.
    split; [split; [|intros [_ H]; contradiction]|]; discriminate.
Qed.

(** X3.  Whatever string [snipByTag] returns as [data] or as [raw] is a
    slice of the input that starts at the first [<] of the input, so it
    begins with [<], and that ends within the input. *)
Theorem tag_snippet_anchor (s : jsstring) (opts : option Options) :
  exists r,
    snipByTag (VString s) opts = Normal r /\
    forall t, data r = VString t \/ raw r = VString t ->
      exists j tl,
        0 <= indexOf s 60 < j /\ j <= len s /\
        t = slice s (indexOf s 60) j /\ t = 60%N :: tl.
Proof.
  destruct s as [|c0 s0].
  { eexists; split; [reflexivity|]. simpl. intros t [H|H]; discriminate. }
  set (s := c0 :: s0).
  assert (Hs : s <> []) by discriminate.
  destruct (TagResultFacts.snipByTag_finish s opts Hs) as [-> Hfuel].
  pose proof (TagResultFacts.snipByTag_outcome s opts) as Hout.
  assert (Hanch : forall ss j t,
             anchored s ss j -> VString (slice s ss j) = VString t ->
             exists j tl, 0 <= indexOf s 60 < j /\ j <= len s /\
                          t = slice s (indexOf s 60) j /\ t = 60%N :: tl).
  { intros ss j t Ha Ht.
    destruct (TagResultFacts.anchored_slice _ _ _ Ha) as (H0 & _ & tl & Hsl).
    destruct Ha as (Hidx & _ & Hj). inversion Ht; subst t.
    exists j, tl. rewrite <- Hidx. repeat split; auto; lia. }
  destruct (tagRun _ _ _ _ _ _) as [ss j|ss j|last name ss j|st ss|];
    [| | | |congruence]; unfold finish; cbn [render].
  - eexists; split; [reflexivity|]. simpl. intros t [H|H]; [|discriminate].
    eapply Hanch; eassumption.
  - destruct (TagResultFacts.anchored_slice _ _ _ Hout) as (_ & E & _).
    eexists; split; [reflexivity|]. unfold rawSlice. rewrite E. simpl.
    intros t [H|H]; [discriminate|]. eapply Hanch; eassumption.
  - destruct Hout as [Hout _].
    destruct (TagResultFacts.anchored_slice _ _ _ Hout) as (_ & E & _).
    eexists; split; [reflexivity|]. unfold rawSlice. rewrite E. simpl.
    intros t [H|H]; [discriminate|]. eapply Hanch; eassumption.
  - eexists; split; [reflexivity|].
    destruct Hout as [(-> & -> & _)|(Hidx & Hc & Hne)].
    + simpl. intros t [H|H]; discriminate.
    + destruct st as [|top st']; [congruence|].
      assert (Ha : anchored s ss (len s)).
      { split; [exact Hidx|]. split; [exact Hc|].
        apply SnipByTagFacts.charIs_true in Hc as [H0 Hn].
        assert (Z.to_nat ss < length s)%nat
          by (apply nth_error_Some; rewrite Hn; discriminate).
        unfold len. lia. }
      destruct (TagResultFacts.anchored_slice _ _ _ Ha) as (_ & E & _).
      unfold endOfInput. rewrite E. simpl.
      intros t [H|H]; [discriminate|]. eapply Hanch; [exact Ha|exact H].
Qed.

Module TagPrefixFacts.
Import TagRun JSFacts LexFacts CutFacts TagRunFacts SnipByTagFacts TagOutcomeFacts.
Import TagResultFacts.

Lemma shiftStart_anchored (p ss : Z) :
  0 <= p -> 0 <= ss ->
  shiftStart p ss = p + ss /\ (p + ss =? -1) = false /\ (ss =? -1) = false.
Proof.
  intros Hp Hs. unfold shiftStart.
  assert ((ss =? -1) = false) as -> by (apply Z.eqb_neq; lia).
  repeat split. apply Z.eqb_neq. lia.
Qed.

Lemma sliceFrom_app_shift (pre d : jsstring) (a : Z) :
  0 <= a -> sliceFrom (pre ++ d) (len pre + a) = sliceFrom d a.
Proof.
  intros Ha. unfold sliceFrom. rewrite len_app.
  apply slice_app_shift; [exact Ha|apply len_nonneg].
Qed.

(** The result built from an outcome moved behind a prefix is the result
    built from the outcome. *)
Lemma finish_shift (pre d : jsstring) (o : Outcome) :
  match o with
  | Valid ss j | InvalidName ss j | Mismatched _ _ ss j => 0 <= ss /\ 0 <= j
  | Ended _ ss => ss = -1 \/ 0 <= ss
  | Starved => True
  end ->
  finish (pre ++ d) (shiftOutcome (len pre) o) = finish d o.
Proof.
  pose proof (len_nonneg pre) as Hp.
  destruct o as [ss j|ss j|last name ss j|st ss|]; unfold finish; cbn [shiftOutcome render].
  - intros [Hs Hj].
    destruct (shiftStart_anchored (len pre) ss Hp Hs) as (-> & _ & _).
    rewrite slice_app_shift by assumption. reflexivity.
  - intros [Hs Hj].
    destruct (shiftStart_anchored (len pre) ss Hp Hs) as (-> & E1 & E2).
    unfold rawSlice. rewrite E1, E2, slice_app_shift by assumption. reflexivity.
  - intros [Hs Hj].
    destruct (shiftStart_anchored (len pre) ss Hp Hs) as (-> & E1 & E2).
    unfold rawSlice. rewrite E1, E2, slice_app_shift by assumption. reflexivity.
  - intros [->|Hs].
    + unfold shiftStart. simpl. unfold endOfInput. simpl. reflexivity.
    + destruct (shiftStart_anchored (len pre) ss Hp Hs) as (-> & E1 & E2).
      unfold endOfInput. rewrite E1, E2, sliceFrom_app_shift by assumption.
      reflexivity.
  - reflexivity.
Qed.

Lemma charIs_prefix (pre d : jsstring) (c : N) :
  ~ In c pre ->
  forall j, 0 <= j < len pre -> charIs (pre ++ d) j c = false.
Proof.
  intros Hno j Hj. destruct (charIs (pre ++ d) j c) eqn:E; [|reflexivity].
  exfalso. apply charIs_true in E as [_ E]. apply Hno.
  rewrite nth_error_app1 in E by (unfold len in Hj; lia).
  eapply nth_error_In. exact E.
Qed.

Lemma tagRun_prefix (pre d : jsstring) (cs : bool) :
  ~ In 60%N pre ->
  tagRun (S (length (pre ++ d))) cs (pre ++ d) 0 [] (-1)
  = shiftOutcome (len pre) (tagRun (S (length d)) cs d 0 [] (-1)).
Proof.
  intros Hno.
  rewrite length_app.
  replace (S (length pre + length d)) with (length pre + S (length d))%nat by lia.
  rewrite tagRun_skip.
  - rewrite Z.add_0_l. fold (len pre).
    rewrite <- (Z.add_0_r (len pre)) at 1.
    change (-1) with (shiftStart (len pre) (-1)) at 1.
    apply tagRun_shift; [lia|left; reflexivity].
  - lia.
  - rewrite len_app. fold (len pre). pose proof (len_nonneg d). lia.
  - intros j Hj. apply charIs_prefix; [exact Hno|]. fold (len pre) in Hj. lia.
Qed.

End TagPrefixFacts.

(** X4.  Text before the first [<] is ignored: a prefix without [<] put
    in front of a non-empty text does not change the result. *)
Theorem tag_leading_text_ignored (pre d : jsstring) (opts : option Options) :
  d <> [] ->
  ~ In 60%N pre ->
  snipByTag (VString (pre ++ d)) opts = snipByTag (VString d) opts.
Proof.
  intros Hd Hno.
  assert (Hpd : pre ++ d <> []) by (destruct pre; [exact Hd|discriminate]).
  destruct (TagResultFacts.snipByTag_finish (pre ++ d) opts Hpd) as [-> _].
  destruct (TagResultFacts.snipByTag_finish d opts Hd) as [-> _].
  rewrite TagPrefixFacts.tagRun_prefix by exact Hno.
  apply TagPrefixFacts.finish_shift.
  pose proof (TagResultFacts.snipByTag_outcome d opts) as Hout.
  destruct (tagRun _ _ _ _ _ _) as [ss j|ss j|last name ss j|st ss|]; [| | | |exact I].
  1-3: try (destruct Hout as [Hout Hnm]; match type of Hnm with _ <> [] => idtac end);
       destruct (TagResultFacts.anchored_slice _ _ _ Hout) as (H0 & _);
       destruct Hout as (_ & _ & Hj); lia.
  destruct Hout as [(-> & _)|(_ & Hc & _)]; [left; reflexivity|right].
  apply SnipByTagFacts.charIs_true in Hc. lia.
Qed.

Lemma tag_leading_text_ignored_witness :
  snipByTag (VString (js "see: " ++ js "<b>x</b>")) None
  = snipByTag (VString (js "<b>x</b>")) None.
Proof.
  apply (tag_leading_text_ignored (js "see: ") (js "<b>x</b>") None).
  - discriminate.
  - vm_compute. intuition discriminate.
Defined.

Module FirstTagFacts.
Import TagRun JSFacts LexFacts CutFacts TagRunFacts SnipByTagFacts TagOutcomeFacts.
Import TagResultFacts.

Lemma indexOfFrom_least (c : N) (s : jsstring) :
  forall k n, 0 <= k -> indexOfFrom c s k = k + Z.of_nat n ->
    nth_error s n = Some c /\ forall m, (m < n)%nat -> nth_error s m <> Some c.
Proof.
  induction s as [|x t IH]; intros k n Hk H; simpl in H.
  - lia.
  - destruct (N.eqb_spec x c) as [->|Hne].
    + assert (n = 0%nat) as -> by lia. split; [reflexivity|]. intros m Hm. lia.
    + destruct (ScanFacts.indexOfFrom_range c t (k + 1)) as [E|E];
        try (rewrite E in H); try lia.
      destruct n as [|n']; [lia|].
      destruct (IH (k + 1) n') as [Hn Hb]; [lia|lia|].
      split; [exact Hn|].
      intros [|m] Hm; simpl; [congruence|]. apply Hb. lia.
Qed.

(** The index of the first occurrence of [c] in a text that holds one. *)
Lemma indexOf_least (s : jsstring) (c : N) :
  In c s ->
  0 <= indexOf s c < len s /\
  charIs s (indexOf s c) c = true /\
  forall j, 0 <= j < indexOf s c -> charIs s j c = false.
Proof.
  intros Hin.
  assert (Hne : indexOf s c <> -1) by (intros E; apply indexOf_absent in E; auto).
  destruct (ScanFacts.indexOfFrom_range c s 0 ltac:(lia)) as [E|E]; [contradiction|].
  fold (indexOf s c) in E.
  destruct (indexOfFrom_least c s 0 (Z.to_nat (indexOf s c)) ltac:(lia)) as [Hn Hb].
  { unfold indexOf. fold (indexOf s c). lia. }
  assert (Z.to_nat (indexOf s c) < length s)%nat
    by (apply nth_error_Some; rewrite Hn; discriminate).
  split; [unfold len; lia|]. split.
  - apply charIs_true. split; [lia|exact Hn].
  - intros j Hj. destruct (charIs s j c) eqn:Ec; [|reflexivity].
    exfalso. apply charIs_true in Ec as [_ Ec]. apply (Hb (Z.to_nat j)); [lia|exact Ec].
Qed.

(** The run reaches the first [<] unchanged. *)
Lemma tagRun_first (s : jsstring) (cs : bool) :
  In 60%N s ->
  tagRun (S (length s)) cs s 0 [] (-1)
  = tagRun (S (length s)) cs s (indexOf s 60) [] (-1).
Proof.
  intros Hin. destruct (indexOf_least s 60 Hin) as (Hk & Hc & Hno).
  set (k := indexOf s 60) in *.
  assert (Hrun : tagRun (Z.to_nat k + S (length s)) cs s 0 [] (-1)
                 = tagRun (S (length s)) cs s (0 + Z.of_nat (Z.to_nat k)) [] (-1)).
  { apply tagRun_skip; [lia|lia|]. intros j Hj. apply Hno. lia. }
  rewrite Z.add_0_l, Z2Nat.id in Hrun by lia.
  rewrite <- Hrun. symmetry. apply tagRun_fuel_le; [lia|].
  apply tagRun_enough_fuel. unfold len. lia.
Qed.

Lemma isTagNameChar_not_space (c : N) : isTagNameChar c = true -> isSpace c = false.
Proof.
  intros H. destruct (isSpace c) eqn:E; [|reflexivity]. exfalso.
  unfold isTagNameChar, isWord, isSpace, isLineTerminator, inRange in *.
  repeat rewrite ?orb_true_iff, ?andb_true_iff, ?N.eqb_eq, ?N.leb_le in *.
  lia.
Qed.

Lemma trimStart_id (s : jsstring) :
  Forall (fun c => isSpace c = false) s -> trimStart s = s.
Proof. intros H. destruct H as [|c t Hc _]; simpl; [reflexivity|]. rewrite Hc. reflexivity. Qed.

Lemma trim_id (s : jsstring) :
  Forall (fun c => isSpace c = false) s -> trim s = s.
Proof.
  intros H. unfold trim, trimEnd. rewrite (trimStart_id s H).
  rewrite trimStart_id; [apply rev_involutive|].
  apply Forall_rev. exact H.
Qed.

Lemma spanLength_Forall (p : N -> bool) (l : jsstring) :
  Forall (fun c => p c = true) (firstn (spanLength p l) l).
Proof.
  induction l as [|c t IH]; simpl; [constructor|].
  destruct (p c) eqn:E; simpl; [constructor; assumption|constructor].
Qed.

(** The name read from index [a] on: trimming it changes nothing. *)
Lemma name_slice (s : jsstring) (a : Z) :
  0 <= a <= len s ->
  trim (slice s a (readName s a)) = slice s a (readName s a)
  /\ slice s a (readName s a) = firstn (spanLength isTagNameChar (from s a)) (from s a).
Proof.
  intros Ha. unfold readName.
  pose proof (spanLength_le isTagNameChar (from s a)) as Hle.
  pose proof (from_length s a ltac:(lia)) as Hfl. unfold len in Hfl at 1.
  assert (Hsl : slice s a (a + Z.of_nat (spanLength isTagNameChar (from s a)))
                = firstn (spanLength isTagNameChar (from s a)) (from s a)).
  { rewrite ScanFacts.slice_from by lia. f_equal. lia. }
  split; [|exact Hsl]. rewrite Hsl. apply trim_id.
  eapply Forall_impl; [|apply spanLength_Forall].
  intros c Hc. apply isTagNameChar_not_space. exact Hc.
Qed.

End FirstTagFacts.

Module TagNameFacts.
Import TagRun JSFacts LexFacts CutFacts TagRunFacts SnipByTagFacts TagOutcomeFacts.
Import TagResultFacts FirstTagFacts.

Lemma charAt_from (s : jsstring) (x : Z) :
  0 <= x -> charAt s x = hd_error (from s x).
Proof.
  intros Hx. unfold charAt, from.
  assert ((x <? 0) = false) as -> by (apply Z.ltb_ge; lia).
  generalize (Z.to_nat x). clear. intros n. revert s.
  induction n as [|n IH]; intros [|c t]; simpl; auto.
Qed.

(** The name and the slash of the tag at index [k]. *)
Lemma lexTag_name (s : jsstring) (k : Z) :
  0 <= k < len s ->
  let a := if charIs s (k + 1) 47 then k + 1 + 1 else k + 1 in
  isClosing (lexTag s k) = charIs s (k + 1) 47 /\
  nameEnd (lexTag s k) = readName s a /\
  tagNameRaw (lexTag s k) = firstn (spanLength isTagNameChar (from s a)) (from s a).
Proof.
  intros Hk a. unfold lexTag. fold a.
  destruct (skipAttributes _ _) as [sc i4]. cbn [isClosing nameEnd tagNameRaw].
  assert (Ha : 0 <= a <= len s).
  { unfold a. destruct (charIs s (k + 1) 47) eqn:E; [|lia].
    apply charIs_true in E as [_ E].
    assert (Z.to_nat (k + 1) < length s)%nat
      by (apply nth_error_Some; rewrite E; discriminate).
    unfold len. lia. }
  destruct (name_slice s a Ha) as [Ht Hs].
  repeat split. rewrite Ht. exact Hs.
Qed.

End TagNameFacts.

(** X5.  When the first [<] of the text is followed by a code unit that
    is neither a tag-name character nor a slash, or by nothing at all,
    the engine fails with "Invalid tag name." and [raw] is the single
    character [<], whatever follows: a less-than sign, a comment or a
    doctype before the snippet is enough. *)
Theorem invalid_tag_name (s : jsstring) (opts : option Options) :
  In 60%N s ->
  (forall c, charAt s (indexOf s 60 + 1) = Some c ->
             isTagNameChar c = false /\ c <> 47%N) ->
  snipByTag (VString s) opts =
    Normal {| status := Fail;
              comments := js "Invalid tag name.";
              data := VNull;
              raw := VString (js "<") |}.
Proof.
  intros Hin Hnext.
  assert (Hs : s <> []) by (intros ->; contradiction).
  destruct (TagResultFacts.snipByTag_finish s opts Hs) as [-> _].
  rewrite FirstTagFacts.tagRun_first by exact Hin.
  destruct (FirstTagFacts.indexOf_least s 60 Hin) as (Hk & Hc & _).
  set (k := indexOf s 60) in *.
  rewrite TagRunFacts.tagRun_unfold. cbv zeta.
  assert ((k <? len s) = true) as -> by (apply Z.ltb_lt; lia).
  rewrite Hc. cbn [negb]. change (-1 =? -1) with true. cbv iota.
  destruct (TagNameFacts.lexTag_name s k Hk) as (Hcl & Hend & Hname).
  assert (Hslash : charIs s (k + 1) 47 = false).
  { unfold charIs. destruct (charAt s (k + 1)) as [c|] eqn:E; [|reflexivity].
    destruct (Hnext c eq_refl) as [_ Hne]. apply N.eqb_neq. exact Hne. }
  rewrite Hslash in Hend, Hname.
  assert (Hspan : spanLength isTagNameChar (from s (k + 1)) = 0%nat).
  { pose proof (TagNameFacts.charAt_from s (k + 1) ltac:(lia)) as Hat.
    destruct (from s (k + 1)) as [|c t]; [reflexivity|]. simpl in Hat.
    destruct (Hnext c Hat) as [Hp _]. simpl. rewrite Hp. reflexivity. }
  rewrite Hname, Hspan. cbn [firstn isEmpty].
  unfold finish. cbn [render]. unfold rawSlice, failWith.
  cbn [status data initialResult].
  assert ((k =? -1) = false) as -> by (apply Z.eqb_neq; lia).
  rewrite Hend. unfold readName. rewrite Hspan.
  destruct (TagResultFacts.anchored_slice s k (k + 1 + Z.of_nat 0)) as (_ & _ & tl & Hsl).
  { split; [reflexivity|]. split; [exact Hc|]. lia. }
  assert (Hlen : len (slice s k (k + 1 + Z.of_nat 0)) = 1).
  { rewrite ScanFacts.slice_from by lia. rewrite JSFacts.len_firstn.
    rewrite JSFacts.from_length by lia. lia. }
  rewrite Hsl in Hlen |- *. destruct tl; [reflexivity|].
  unfold len in Hlen. simpl in Hlen. lia.
Qed.

Lemma invalid_tag_name_witness :
  snipByTag (VString (js "if a < b then <i>x</i>")) None =
    Normal {| status := Fail;
              comments := js "Invalid tag name.";
              data := VNull;
              raw := VString (js "<") |}.
Proof.
  apply (invalid_tag_name (js "if a < b then <i>x</i>") None).
  - vm_compute. auto 10.
  - vm_compute. intros c H. inversion H. split; [reflexivity|discriminate].
Defined.

(** X6.  When the first tag of the text is a closing tag, [stack.pop()]
    finds the stack empty and yields [undefined]: the engine fails, the
    comment reads "expected </undefined>" followed by the name that was
    found (in lower case unless [caseSensitive] is set), and [raw] runs
    from the first [<] to the end of that tag, the index that the lexer
    gives it, which lies beyond the name and within the text. *)
Theorem stray_closing_tag (s : jsstring) (opts : option Options) (c : N) :
  In 60%N s ->
  charIs s (indexOf s 60 + 1) 47 = true ->
  charAt s (indexOf s 60 + 2) = Some c ->
  isTagNameChar c = true ->
  let tagNameRaw := slice s (indexOf s 60 + 2) (readName s (indexOf s 60 + 2)) in
  let tagName := if caseSensitiveOf opts then tagNameRaw else toLowerCase tagNameRaw in
  let endOfTag := tagEnd (lexTag s (indexOf s 60)) in
  indexOf s 60 + 2 < endOfTag <= len s /\
  snipByTag (VString s) opts =
    Normal {| status := Fail;
              comments := js "Mismatched closing tag: expected </undefined> but found </"
                          ++ tagName ++ js ">.";
              data := VNull;
              raw := VString (slice s (indexOf s 60) endOfTag) |}.
Proof.
  intros Hin Hslash Hat Hc0 nameRaw tagName endOfTag.
  assert (Hs : s <> []) by (intros ->; contradiction).
  destruct (TagResultFacts.snipByTag_finish s opts Hs) as [-> _].
  rewrite FirstTagFacts.tagRun_first by exact Hin.
  destruct (FirstTagFacts.indexOf_least s 60 Hin) as (Hk & Hc & _).
  set (k := indexOf s 60) in *.
  rewrite TagRunFacts.tagRun_unfold. cbv zeta.
  assert ((k <? len s) = true) as -> by (apply Z.ltb_lt; lia).
  rewrite Hc. cbn [negb]. change (-1 =? -1) with true. cbv iota.
  destruct (TagNameFacts.lexTag_name s k Hk) as (Hcl & Hend & Hname).
  rewrite Hslash in Hcl, Hend, Hname.
  replace (k + 1 + 1) with (k + 2) in Hend, Hname by lia.
  assert (Hk2 : 0 <= k + 2 <= len s).
  { unfold charAt in Hat. destruct (k + 2 <? 0); [discriminate|].
    assert (Z.to_nat (k + 2) < length s)%nat
      by (apply nth_error_Some; rewrite Hat; discriminate).
    unfold len. lia. }
  destruct (FirstTagFacts.name_slice s (k + 2) Hk2) as [_ Hsl].
  fold nameRaw in Hsl. rewrite <- Hsl in Hname.
  assert (Hspan : (1 <= spanLength isTagNameChar (from s (k + 2)))%nat).
  { rewrite (TagNameFacts.charAt_from s (k + 2)) in Hat by lia.
    destruct (from s (k + 2)) as [|x t]; [discriminate|]. simpl in Hat.
    inversion Hat; subst x. simpl. rewrite Hc0. lia. }
  assert (Hne : nameRaw <> []).
  { rewrite Hsl. rewrite (TagNameFacts.charAt_from s (k + 2)) in Hat by lia.
    destruct (from s (k + 2)) as [|x t]; [discriminate|].
    destruct (spanLength isTagNameChar (x :: t)); [lia|discriminate]. }
  rewrite Hname, Hcl.
  destruct nameRaw as [|n0 nt] eqn:En; [congruence|]. cbn [isEmpty]. rewrite <- En.
  fold tagName. unfold processTag.
  unfold finish. cbn [render]. unfold rawSlice, failWith.
  cbn [status data initialResult].
  assert ((k =? -1) = false) as -> by (apply Z.eqb_neq; lia).
  split.
  - pose proof (SnipByTagFacts.lexTag_advances s k) as [_ Hadv].
    pose proof (LexFacts.lexTag_bound s k Hk).
    rewrite Hend in Hadv. unfold readName in Hadv. unfold endOfTag. lia.
  - subst tagName. rewrite En. reflexivity.
Qed.

(** A closing tag in capitals before a self-closing tag. *)
Lemma stray_closing_tag_witness :
  0 + 2 < 4 <= 8 /\
  snipByTag (VString (js "</B><a/>")) None =
    Normal {| status := Fail;
              comments := js "Mismatched closing tag: expected </undefined> but found </b>.";
              data := VNull;
              raw := VString (js "</B>") |}.
Proof.
  exact (stray_closing_tag (js "</B><a/>") None 66%N
           (or_introl eq_refl) eq_refl eq_refl eq_refl).
Defined.

(** X7.  When the first tag of the text is self-closing, it is the whole
    snippet: the engine returns a success whose [data] is the slice from
    the first [<] to the end of that tag, whatever follows it. *)
Theorem leading_self_closing_tag (s : jsstring) (opts : option Options) :
  In 60%N s ->
  isClosing (lexTag s (indexOf s 60)) = false ->
  tagNameRaw (lexTag s (indexOf s 60)) <> [] ->
  isSelfClosing (lexTag s (indexOf s 60)) = true ->
  snipByTag (VString s) opts =
    Normal {| status := Success;
              comments := js "Valid tag structure found.";
              data := VString (slice s (indexOf s 60) (tagEnd (lexTag s (indexOf s 60))));
              raw := VNull |}.
Proof.
  intros Hin Hcl Hname Hself.
  assert (Hs : s <> []) by (intros ->; contradiction).
  destruct (TagResultFacts.snipByTag_finish s opts Hs) as [-> _].
  rewrite FirstTagFacts.tagRun_first by exact Hin.
  destruct (FirstTagFacts.indexOf_least s 60 Hin) as (Hk & Hc & _).
  set (k := indexOf s 60) in *.
  rewrite TagRunFacts.tagRun_unfold. cbv zeta.
  assert ((k <? len s) = true) as -> by (apply Z.ltb_lt; lia).
  rewrite Hc. cbn [negb]. change (-1 =? -1) with true. cbv iota.
  destruct (tagNameRaw (lexTag s k)) as [|n0 nt] eqn:En; [congruence|].
  cbn [isEmpty]. rewrite Hcl, Hself. unfold processTag. cbn [length Nat.eqb andb].
  assert ((k =? -1) = false) as -> by (apply Z.eqb_neq; lia).
  reflexivity.
Qed.

Lemma leading_self_closing_tag_witness :
  snipByTag (VString (js "a <br/><p>b</p>")) None =
    Normal {| status := Success;
              comments := js "Valid tag structure found.";
              data := VString (js "<br/>");
              raw := VNull |}.
Proof.
  exact (leading_self_closing_tag (js "a <br/><p>b</p>") None
           (or_intror (or_intror (or_introl eq_refl))) eq_refl
           ltac:(discriminate) eq_refl).
Defined.

Module CaseFacts.
Import TagRun JSFacts SnipByTagFacts.

Lemma toLowerCase_id (l : jsstring) :
  (forall c, In c l -> inRange 65 90 c = false) -> toLowerCase l = l.
Proof.
  induction l as [|c t IH]; intros H; simpl; [reflexivity|].
  unfold lowerUnit. rewrite (H c) by (left; reflexivity).
  f_equal. apply IH. intros x Hx. apply H. right. exact Hx.
Qed.

Lemma tagNameRaw_In (s : jsstring) (i : Z) (c : N) :
  In c (tagNameRaw (lexTag s i)) -> In c s.
Proof.
  unfold lexTag. destruct (skipAttributes _ _). cbn [tagNameRaw].
  intros H. apply SanitizeFacts.In_trim in H. apply SanitizeFacts.In_slice in H. exact H.
Qed.

(** On a text without upper-case letters the loop does not depend on
    [caseSensitive]. *)
Lemma tagLoop_case (fuel : nat) (s : jsstring) :
  (forall c, In c s -> inRange 65 90 c = false) ->
  forall cs i stack ss,
    tagLoop fuel cs s i stack ss = tagLoop fuel false s i stack ss.
Proof.
  intros Hlow. induction fuel as [|f IH]; intros cs i stack ss; [reflexivity|].
  rewrite !tagLoop_unfold. cbv zeta.
  assert (Hname : (if cs then tagNameRaw (lexTag s i)
                   else toLowerCase (tagNameRaw (lexTag s i)))
                  = toLowerCase (tagNameRaw (lexTag s i))).
  { destruct cs; [|reflexivity]. symmetry. apply toLowerCase_id.
    intros c Hc. apply Hlow. eapply tagNameRaw_In. exact Hc. }
  rewrite Hname.
  destruct (negb (i <? len s)); [reflexivity|].
  destruct (negb (charIs s i 60)); [apply IH|].
  destruct (isEmpty _); [reflexivity|].
  destruct (processTag _ _ _ _); [|reflexivity].
  destruct (_ && _)%bool; [reflexivity|apply IH].
Qed.

End CaseFacts.

(** X8.  On a text without the letters A to Z the option [caseSensitive]
    has no effect: any two options objects give the same result. *)
Theorem case_option_without_capitals (s : jsstring) (opts opts' : option Options) :
  (forall c, In c s -> inRange 65 90 c = false) ->
  snipByTag (VString s) opts = snipByTag (VString s) opts'.
Proof.
  intros Hlow. unfold snipByTag. destruct (isEmpty s); [reflexivity|].
  rewrite (CaseFacts.tagLoop_case _ s Hlow (caseSensitiveOf opts)).
  rewrite (CaseFacts.tagLoop_case _ s Hlow (caseSensitiveOf opts')).
  reflexivity.
Qed.

Lemma case_option_without_capitals_witness :
  snipByTag (VString (js "<a><b/></a>")) (Some (mkOptions None (Some true)))
  = snipByTag (VString (js "<a><b/></a>")) None.
Proof.
  apply (case_option_without_capitals (js "<a><b/></a>")).
  intros c Hc. vm_compute in Hc.
  repeat (destruct Hc as [<-|Hc]; [reflexivity|]). contradiction.
Defined.

Module AttributeFacts.
Import JSFacts SnipByTagFacts.

Lemma indexOfFrom_shift (c : N) (s : jsstring) :
  forall k, indexOfFrom c s k =
            if indexOfFrom c s 0 =? -1 then -1 else k + indexOfFrom c s 0.
Proof.
  induction s as [|x t IH]; intros k; simpl; [reflexivity|].
  destruct (N.eqb x c); [simpl; lia|].
  rewrite (IH (k + 1)), (IH 1).
  destruct (Z.eqb_spec (indexOfFrom c t 0) (-1)) as [E|E]; [reflexivity|].
  destruct (ScanFacts.indexOfFrom_range c t 0 ltac:(lia)) as [E'|E']; [contradiction|].
  destruct (Z.eqb_spec (1 + indexOfFrom c t 0) (-1)); lia.
Qed.

Lemma indexOf_cons (c x : N) (t : jsstring) :
  indexOf (x :: t) c =
    if N.eqb x c then 0 else if indexOf t c =? -1 then -1 else indexOf t c + 1.
Proof.
  unfold indexOf. simpl. destruct (N.eqb x c); [reflexivity|].
  rewrite indexOfFrom_shift. destruct (indexOfFrom c t 0 =? -1); lia.
Qed.

Lemma charIs_cons (x : N) (t : jsstring) (k : Z) (c : N) :
  1 <= k -> charIs (x :: t) k c = charIs t (k - 1) c.
Proof.
  intros Hk. unfold charIs, charAt.
  assert ((k <? 0) = false) as -> by (apply Z.ltb_ge; lia).
  assert ((k - 1 <? 0) = false) as -> by (apply Z.ltb_ge; lia).
  replace (Z.to_nat k) with (S (Z.to_nat (k - 1))) by lia. reflexivity.
Qed.

(** The loop that skips the attributes, in terms of the first [>] of the
    text it is given. *)
Lemma skipAttributes_first_gt (rest : jsstring) (i : Z) :
  (~ In 62%N rest -> skipAttributes rest i = (false, i + len rest))
  /\ (In 62%N rest ->
      skipAttributes rest i =
        if charIs rest (indexOf rest 62 - 1) 47
        then (true, i + indexOf rest 62 + 1)
        else (false, i + indexOf rest 62)).
Proof.
  revert i. induction rest as [|c t IH]; intros i.
  { split; [intros _; simpl; f_equal; unfold len; simpl; lia|intros []]. }
  rewrite indexOf_cons. cbn [skipAttributes].
  destruct (N.eqb_spec c 62) as [->|Hc].
  { split; [intros H; exfalso; apply H; left; reflexivity|].
    intros _. simpl. f_equal. lia. }
  assert (Hin : In 62%N (c :: t) <-> In 62%N t).
  { split; [intros [E|E]; [congruence|exact E]|intros E; right; exact E]. }
  destruct (IH (i + 1)) as [IHno IHyes].
  destruct (N.eqb_spec c 47) as [->|Hs]; cbn [andb].
  - destruct t as [|d t'].
    + split; [intros _; unfold len; simpl; f_equal; lia|].
      intros H. apply Hin in H. destruct H.
    + destruct (N.eqb_spec d 62) as [->|Hd].
      * split; [intros H; exfalso; apply H; right; left; reflexivity|].
        intros _. rewrite indexOf_cons. simpl. f_equal. lia.
      * split.
        -- intros H. rewrite IHno by (rewrite <- Hin; exact H).
           f_equal. unfold len. cbn [length]. lia.
        -- intros H. apply Hin in H. rewrite (IHyes H).
           destruct (FirstTagFacts.indexOf_least _ _ H) as (Hk & Hat & _).
           assert (E : (indexOf (d :: t') 62 =? -1) = false) by (apply Z.eqb_neq; lia).
           rewrite E.
           assert (Hk1 : 1 <= indexOf (d :: t') 62).
           { destruct (Z.eq_dec (indexOf (d :: t') 62) 0) as [E0|]; [|lia].
             rewrite E0 in Hat. unfold charIs, charAt in Hat. simpl in Hat.
             apply N.eqb_eq in Hat. congruence. }
           replace (indexOf (d :: t') 62 + 1 - 1) with (indexOf (d :: t') 62) by lia.
           rewrite (charIs_cons 47 (d :: t') _ 47 Hk1).
           destruct (charIs (d :: t') (indexOf (d :: t') 62 - 1) 47); f_equal; lia.
  - split.
    + intros H. rewrite IHno by (rewrite <- Hin; exact H).
      f_equal. unfold len. cbn [length]. lia.
    + intros H. apply Hin in H. rewrite (IHyes H).
      destruct (FirstTagFacts.indexOf_least _ _ H) as (Hk & Hat & _).
      assert (E : (indexOf t 62 =? -1) = false) by (apply Z.eqb_neq; lia).
      rewrite E.
      replace (indexOf t 62 + 1 - 1) with (indexOf t 62) by lia.
      destruct (Z.eq_dec (indexOf t 62) 0) as [E0|E0].
      * rewrite E0. change (charIs t (0 - 1) 47) with false.
        assert (charIs (c :: t) 0 47 = false) as ->.
        { unfold charIs, charAt. simpl. apply N.eqb_neq. exact Hs. }
        f_equal. lia.
      * rewrite (charIs_cons c t (indexOf t 62) 47) by lia.
        destruct (charIs t (indexOf t 62 - 1) 47); f_equal; lia.
Qed.

Lemma charIs_from_shift (s : jsstring) (n x : Z) (c : N) :
  0 <= n <= len s -> 0 <= x ->
  charIs s (n + x) c = charIs (from s n) x c.
Proof.
  intros Hn Hx.
  assert (Hl : len (firstn (Z.to_nat n) s) = n) by (rewrite len_firstn; lia).
  pose proof (charIs_app_shift (firstn (Z.to_nat n) s) (from s n) x c Hx) as H.
  unfold from in H at 1. rewrite firstn_skipn, Hl in H. exact H.
Qed.

(** The object that [lexTag] builds, field by field. *)
Lemma lexTag_fields (s : jsstring) (i : Z) :
  lexTag s i =
    let a := if charIs s (i + 1) 47 then i + 1 + 1 else i + 1 in
    let n := readName s a in
    let p := skipAttributes (from s n) n in
    mkLexed (charIs s (i + 1) 47) n (trim (slice s a n)) (fst p)
            (if charIs s (snd p) 62 then snd p + 1 else snd p).
Proof. unfold lexTag. cbv zeta. destruct (skipAttributes _ _). reflexivity. Qed.

End AttributeFacts.

(** X21.  Where a tag ends.  After the name, the engine looks for the
    first [>] of the text and interprets nothing else, quotes included:
    without any [>] the tag runs to the end of the text; with a slash
    just before that [>] the tag is self-closing and ends after it, or
    after one more [>] if one follows at once; otherwise the tag ends
    after that [>].  An attribute value that holds a [>] therefore cuts
    its tag short. *)
Theorem tag_ends_at_first_gt (s : jsstring) (i : Z) :
  0 <= i < len s ->
  let tag := lexTag s i in
  let rest := from s (nameEnd tag) in
  (~ In 62%N rest -> isSelfClosing tag = false /\ tagEnd tag = len s)
  /\ (In 62%N rest ->
      let k := indexOf rest 62 in
      if charIs rest (k - 1) 47
      then isSelfClosing tag = true
           /\ tagEnd tag = nameEnd tag + k + 1 + (if charIs rest (k + 1) 62 then 1 else 0)
      else isSelfClosing tag = false /\ tagEnd tag = nameEnd tag + k + 1).
Proof.
  intros Hi tag rest.
  pose proof (SnipByTagFacts.lexTag_advances s i) as [Ha1 Ha2].
  pose proof (LexFacts.lexTag_bound s i Hi) as Hb.
  fold tag in Ha1, Ha2, Hb.
  assert (Hn : 0 <= nameEnd tag <= len s) by lia.
  assert (Hshape :
            isSelfClosing tag = fst (skipAttributes (from s (nameEnd tag)) (nameEnd tag)) /\
            tagEnd tag = (if charIs s (snd (skipAttributes (from s (nameEnd tag))
                                                          (nameEnd tag))) 62
                          then snd (skipAttributes (from s (nameEnd tag)) (nameEnd tag)) + 1
                          else snd (skipAttributes (from s (nameEnd tag)) (nameEnd tag)))).
  { unfold tag. rewrite AttributeFacts.lexTag_fields. cbv zeta.
    cbn [isSelfClosing tagEnd nameEnd]. split; reflexivity. }
  destruct Hshape as (Hself & Hend).
  fold rest in Hself, Hend.
  destruct (AttributeFacts.skipAttributes_first_gt rest (nameEnd tag)) as [Hno Hyes].
  pose proof (JSFacts.from_length s (nameEnd tag) ltac:(lia)) as Hl. fold rest in Hl.
  split.
  - intros H. rewrite (Hno H) in Hself, Hend. cbn [fst snd] in Hself, Hend.
    split; [exact Hself|]. rewrite Hend.
    replace (nameEnd tag + len rest) with (len s) by lia.
    assert (charIs s (len s) 62 = false) as ->; [|reflexivity].
    unfold charIs, charAt. pose proof (JSFacts.len_nonneg s).
    assert ((len s <? 0) = false) as -> by (apply Z.ltb_ge; lia).
    assert (nth_error s (Z.to_nat (len s)) = None) as ->; [|reflexivity].
    apply nth_error_None. unfold len. lia.
  - intros H k. rewrite (Hyes H) in Hself, Hend. fold k in Hself, Hend.
    destruct (FirstTagFacts.indexOf_least rest 62 H) as (Hk & Hat & _). fold k in Hk, Hat.
    destruct (charIs rest (k - 1) 47); cbn [fst snd] in Hself, Hend.
    + split; [exact Hself|]. rewrite Hend.
      replace (nameEnd tag + k + 1) with (nameEnd tag + (k + 1)) by lia.
      rewrite (AttributeFacts.charIs_from_shift s (nameEnd tag) (k + 1) 62) by lia.
      fold rest. destruct (charIs rest (k + 1) 62); lia.
    + split; [exact Hself|]. rewrite Hend.
      rewrite (AttributeFacts.charIs_from_shift s (nameEnd tag) k 62) by lia.
      fold rest. rewrite Hat. reflexivity.
Qed.

Lemma tag_ends_at_first_gt_witness :
  isSelfClosing (lexTag (js "<a title='x>y'>") 0) = false
  /\ tagEnd (lexTag (js "<a title='x>y'>") 0) = 12.
Proof.
  exact (proj2 (tag_ends_at_first_gt (js "<a title='x>y'>") 0 (conj (Z.le_refl 0) eq_refl))
           (or_intror (or_intror (or_intror (or_intror (or_intror (or_intror
             (or_intror (or_intror (or_intror (or_introl eq_refl))))))))))).
Defined.


(* ===================================================================== *)
(** * Further properties of the JSON engine                             *)
(* ===================================================================== *)

Module StartFacts.
Import JSFacts SnipByTagFacts TagOutcomeFacts FirstTagFacts.

Lemma charAt_In (s : jsstring) (i : Z) (c : N) : charAt s i = Some c -> In c s.
Proof.
  unfold charAt. destruct (i <? 0); [discriminate|]. apply nth_error_In.
Qed.

Lemma charAt_charIs (s : jsstring) (i : Z) (c : N) :
  charIs s i c = true <-> charAt s i = Some c.
Proof.
  unfold charIs. destruct (charAt s i) as [x|]; split; try discriminate.
  - intros H. apply N.eqb_eq in H. congruence.
  - intros H. inversion H. apply N.eqb_refl.
Qed.

(** What [indexOf] returns: [-1] when the character is absent, otherwise
    the index of its first occurrence. *)
Lemma indexOf_cases (s : jsstring) (c : N) :
  (indexOf s c = -1 /\ ~ In c s) \/
  (0 <= indexOf s c < len s /\ charAt s (indexOf s c) = Some c /\
   forall j, 0 <= j < indexOf s c -> charAt s j <> Some c).
Proof.
  destruct (in_dec N.eq_dec c s) as [Hin|Hno].
  - right. destruct (indexOf_least s c Hin) as (Hk & Hc & Hb).
    split; [exact Hk|]. split; [apply charAt_charIs; exact Hc|].
    intros j Hj E. apply charAt_charIs in E. rewrite Hb in E; [discriminate|exact Hj].
  - left. split; [apply indexOf_absent; exact Hno|exact Hno].
Qed.

(** No start index: exactly when the text has no opening delimiter. *)
Lemma findStart_none (content : jsstring) :
  SnipJson.findStart content = -1 <->
  forall c, In c content -> SnipJson.OPENING c = false.
Proof.
  assert (Hnone : forall c', SnipJson.OPENING c' = false <-> c' <> 123%N /\ c' <> 91%N).
  { intros c'. unfold SnipJson.OPENING. rewrite orb_false_iff, !N.eqb_neq. tauto. }
  unfold SnipJson.findStart.
  destruct (indexOf_cases content 123) as [[E1 N1]|(R1 & A1 & B1)];
    destruct (indexOf_cases content 91) as [[E2 N2]|(R2 & A2 & B2)].
  - rewrite E1, E2. change (-1 =? -1) with true; cbv iota.
    split; [|reflexivity]. intros _ c Hc. apply Hnone. split; intros ->; contradiction.
  - rewrite E1. change (-1 =? -1) with true; cbv iota.
    split; [lia|]. intros H. exfalso.
    apply charAt_In in A2. specialize (H _ A2). discriminate.
  - assert ((indexOf content 123 =? -1) = false) as -> by (apply Z.eqb_neq; lia).
    rewrite E2. change (-1 =? -1) with true; cbv iota.
    split; [lia|]. intros H. exfalso.
    apply charAt_In in A1. specialize (H _ A1). discriminate.
  - assert ((indexOf content 123 =? -1) = false) as -> by (apply Z.eqb_neq; lia).
    assert ((indexOf content 91 =? -1) = false) as -> by (apply Z.eqb_neq; lia).
    split; [lia|]. intros H. exfalso.
    apply charAt_In in A1. specialize (H _ A1). discriminate.
Qed.

End StartFacts.

(** X9.  Step 1 of the JSON engine.  The start index is [-1] exactly
    when the text holds neither an opening brace nor an opening bracket;
    otherwise it lies within the text, the code unit there is an opening
    delimiter, and no code unit before it is one. *)
Theorem findStart_first_opening (content : jsstring) :
  (findStart content = -1 <-> forall c, In c content -> OPENING c = false) /\
  (findStart content <> -1 ->
     0 <= findStart content < len content /\
     exists c, charAt content (findStart content) = Some c /\ OPENING c = true /\
       forall j c', 0 <= j < findStart content ->
                    charAt content j = Some c' -> OPENING c' = false).
Proof.
  split; [apply StartFacts.findStart_none|].
  assert (Hnone : forall c', OPENING c' = false <-> c' <> 123%N /\ c' <> 91%N).
  { intros c'. unfold OPENING. rewrite orb_false_iff, !N.eqb_neq. tauto. }
  assert (Hfirst : forall a b : N,
            OPENING a = true ->
            0 <= indexOf content a < len content ->
            charAt content (indexOf content a) = Some a ->
            (forall j, 0 <= j < indexOf content a -> charAt content j <> Some a) ->
            (forall j, 0 <= j < indexOf content a -> charAt content j <> Some b) ->
            (forall c', c' <> a /\ c' <> b -> OPENING c' = false) ->
            0 <= indexOf content a < len content /\
            exists c, charAt content (indexOf content a) = Some c /\ OPENING c = true /\
              forall j c', 0 <= j < indexOf content a ->
                           charAt content j = Some c' -> OPENING c' = false).
  { intros a b Ha R A Ba Bb Hab. split; [exact R|]. exists a. repeat split; auto.
    intros j c' Hj Hc'. apply Hab. split; intros ->.
    - apply (Ba j Hj Hc').
    - apply (Bb j Hj Hc'). }
  assert (H123 : forall c', c' <> 123%N /\ c' <> 91%N -> OPENING c' = false)
    by (intros c' H; apply Hnone; exact H).
  assert (H91 : forall c', c' <> 91%N /\ c' <> 123%N -> OPENING c' = false)
    by (intros c' [H1 H2]; apply Hnone; auto).
  unfold findStart.
  destruct (StartFacts.indexOf_cases content 123) as [[E1 N1]|(R1 & A1 & B1)];
    destruct (StartFacts.indexOf_cases content 91) as [[E2 N2]|(R2 & A2 & B2)].
  - rewrite E1, E2. change (-1 =? -1) with true; cbv iota. congruence.
  - rewrite E1. change (-1 =? -1) with true; cbv iota. intros _.
    apply (Hfirst 91%N 123%N); auto.
    intros j Hj Hc. apply N1. eapply StartFacts.charAt_In. exact Hc.
  - assert ((indexOf content 123 =? -1) = false) as -> by (apply Z.eqb_neq; lia).
    rewrite E2. change (-1 =? -1) with true; cbv iota. intros _.
    apply (Hfirst 123%N 91%N); auto.
    intros j Hj Hc. apply N2. eapply StartFacts.charAt_In. exact Hc.
  - assert ((indexOf content 123 =? -1) = false) as -> by (apply Z.eqb_neq; lia).
    assert ((indexOf content 91 =? -1) = false) as -> by (apply Z.eqb_neq; lia).
    intros _.
    destruct (Z.min_spec (indexOf content 123) (indexOf content 91))
      as [[Hlt ->]|[Hlt ->]].
    + apply (Hfirst 123%N 91%N); auto. intros j Hj. apply B2. lia.
    + apply (Hfirst 91%N 123%N); auto. intros j Hj. apply B1. lia.
Qed.

Module SanitizerFacts.
Import JSFacts.

(** ** What a [replace] call keeps *)


Lemma replaceFrom_keeps (m : matcher) (rep : jsstring) (p : N -> bool) (x : N) :
  consumes m p -> p x = false ->
  forall s prev skip,
    In x (skipn skip s) -> In x (replaceFrom m rep prev skip s).
Proof.
  intros Hm Hx. induction s as [|c t IH]; intros prev skip Hin.
  - destruct skip; simpl in Hin; contradiction.
  - destruct skip as [|k]; simpl.
    + simpl in Hin.
      destruct (m prev (c :: t)) as [[|k]|] eqn:Em.
      * destruct Hin as [->|Hin]; [left; reflexivity|right; apply IH; exact Hin].
      * apply in_or_app. right. apply IH.
        assert (Hout : ~ In x (firstn (S k) (c :: t))).
        { intros H. rewrite (Hm _ _ _ Em x H) in Hx. discriminate. }
        simpl in Hout. destruct Hin as [->|Hin]; [exfalso; apply Hout; left; reflexivity|].
        rewrite <- (firstn_skipn k t) in Hin. apply in_app_or in Hin as [Hin|Hin];
          [exfalso; apply Hout; right; exact Hin|exact Hin].
      * destruct Hin as [->|Hin]; [left; reflexivity|right; apply IH; exact Hin].
    + apply IH. exact Hin.
Qed.

Lemma replaceAll_keeps (m : matcher) (rep : jsstring) (p : N -> bool) (x : N) (s : jsstring) :
  consumes m p -> p x = false -> In x s -> In x (replaceAll m rep s).
Proof. intros Hm Hx Hin. apply (replaceFrom_keeps m rep p x Hm Hx). exact Hin. Qed.

Lemma trimStart_keeps (s : jsstring) (x : N) :
  isSpace x = false -> In x s -> In x (trimStart s).
Proof.
  intros Hx. induction s as [|c t IH]; simpl; [auto|].
  intros [->|Hin].
  - rewrite Hx. left. reflexivity.
  - destruct (isSpace c); [apply IH; exact Hin|right; exact Hin].
Qed.

Lemma trim_keeps (s : jsstring) (x : N) :
  isSpace x = false -> In x s -> In x (trim s).
Proof.
  intros Hx Hin. unfold trim, trimEnd. apply in_rev. rewrite rev_involutive.
  apply trimStart_keeps; [exact Hx|]. apply in_rev. rewrite rev_involutive.
  apply trimStart_keeps; assumption.
Qed.

(** ** The length of the result of a [replace] call *)

Lemma replaceFrom_length (m : matcher) (rep : jsstring) :
  (length rep <= 1)%nat ->
  forall s prev skip,
    (length (replaceFrom m rep prev skip s) <= length s)%nat.
Proof.
  intros Hrep. induction s as [|c t IH]; intros prev skip; simpl; [lia|].
  destruct skip as [|k].
  - destruct (m prev (c :: t)) as [[|k]|].
    + simpl. specialize (IH (Some c) 0%nat). lia.
    + rewrite length_app. specialize (IH (Some c) k). lia.
    + simpl. specialize (IH (Some c) 0%nat). lia.
  - specialize (IH (Some c) k). lia.
Qed.

Lemma trimStart_length (s : jsstring) : (length (trimStart s) <= length s)%nat.
Proof.
  induction s as [|c t IH]; simpl; [lia|]. destruct (isSpace c); simpl; lia.
Qed.

Lemma trim_length (s : jsstring) : (length (trim s) <= length s)%nat.
Proof.
  unfold trim, trimEnd. rewrite length_rev.
  pose proof (trimStart_length (rev (trimStart s))) as H1.
  rewrite length_rev in H1. pose proof (trimStart_length s). lia.
Qed.

(** ** The matchers of [sanitizeContent] *)


Lemma firstn_plus (n m : nat) (l : jsstring) :
  firstn (n + m) l = firstn n l ++ firstn m (skipn n l).
Proof.
  revert l. induction n as [|n IH]; intros [|c t]; simpl; try reflexivity.
  - rewrite firstn_nil. reflexivity.
  - rewrite IH. reflexivity.
Qed.

Lemma spanLength_In (p : N -> bool) (l : jsstring) (x : N) :
  In x (firstn (spanLength p l) l) -> p x = true.
Proof.
  intros H. pose proof (FirstTagFacts.spanLength_Forall p l) as Hall.
  rewrite Forall_forall in Hall. apply Hall. exact H.
Qed.

Lemma startsWith_firstn (needle s : jsstring) :
  startsWith needle s = true -> firstn (length needle) s = needle.
Proof.
  revert s. induction needle as [|a n IH]; intros [|b s] H; simpl in *;
    try reflexivity; try discriminate.
  apply andb_true_iff in H as [E H]. apply N.eqb_eq in E. subst.
  rewrite IH by exact H. reflexivity.
Qed.

Lemma removable_quote (c : N) : isQuote c = true -> removable c = true.
Proof. intros H. unfold removable. rewrite H. reflexivity. Qed.

Lemma removable_space (c : N) : isSpace c = true -> removable c = true.
Proof. intros H. unfold removable. rewrite H. destruct (isQuote c); reflexivity. Qed.

Lemma concatArtifact_consumes : consumes SnipJson.concatArtifact removable.
Proof.
  intros prev rest k Hm x Hin. unfold SnipJson.concatArtifact in Hm.
  destruct rest as [|q t]; [discriminate|].
  destruct (isQuote q) eqn:Eq; [|discriminate].
  destruct (skipn (spanLength isSpace t) t) as [|p t2] eqn:Et; [discriminate|].
  destruct (N.eqb_spec p 43) as [->|]; [|discriminate].
  inversion Hm as [Hk]. clear Hm.
  set (n1 := spanLength isSpace t) in *.
  set (n2 := spanLength isSpace t2) in *.
  set (n3 := match skipn n2 t2 with
             | q2 :: _ => if isQuote q2 then 1%nat else 0%nat
             | [] => 0%nat
             end) in *.
  replace (S k) with (S (n1 + (1 + (n2 + n3))))%nat in Hin by lia.
  simpl in Hin. destruct Hin as [<-|Hin]; [apply removable_quote; exact Eq|].
  rewrite firstn_plus, Et in Hin. apply in_app_or in Hin as [Hin|Hin].
  { apply removable_space. eapply spanLength_In. exact Hin. }
  simpl in Hin. destruct Hin as [<-|Hin]; [reflexivity|].
  rewrite firstn_plus in Hin. apply in_app_or in Hin as [Hin|Hin].
  { apply removable_space. eapply spanLength_In. exact Hin. }
  unfold n3 in Hin. destruct (skipn n2 t2) as [|q2 t3]; [destruct Hin|].
  destruct (isQuote q2) eqn:Eq2; [|destruct Hin].
  simpl in Hin. destruct Hin as [<-|[]]. apply removable_quote. exact Eq2.
Qed.

Lemma fence_consumes : consumes SnipJson.fence removable.
Proof.
  intros prev rest k Hm x Hin. unfold SnipJson.fence in Hm.
  destruct (SnipJson.atLineStart prev && startsWith (js "```json") rest)%bool eqn:E1.
  - inversion Hm; subst k. apply andb_true_iff in E1 as [_ E1].
    apply startsWith_firstn in E1. change (length (js "```json")) with 7%nat in E1.
    rewrite E1 in Hin. vm_compute in Hin.
    repeat (destruct Hin as [<-|Hin]; [reflexivity|]). destruct Hin.
  - destruct (startsWith (js "```") rest && SnipJson.atLineEnd (skipn 3 rest))%bool eqn:E2;
      [|discriminate].
    inversion Hm; subst k. apply andb_true_iff in E2 as [E2 _].
    apply startsWith_firstn in E2. change (length (js "```")) with 3%nat in E2.
    rewrite E2 in Hin. vm_compute in Hin.
    repeat (destruct Hin as [<-|Hin]; [reflexivity|]). destruct Hin.
Qed.

Lemma outerQuote_consumes : consumes SnipJson.outerQuote removable.
Proof.
  intros prev rest k Hm x Hin. unfold SnipJson.outerQuote in Hm.
  destruct rest as [|q t]; [discriminate|].
  destruct (isQuote q) eqn:Eq; [|discriminate].
  assert (k = 0%nat) as -> by (destruct prev, t; inversion Hm; reflexivity).
  simpl in Hin. destruct Hin as [<-|[]]. apply removable_quote. exact Eq.
Qed.

Lemma backtick_consumes : consumes SnipJson.backtick removable.
Proof.
  intros prev rest k Hm x Hin. unfold SnipJson.backtick in Hm.
  destruct rest as [|c t]; [discriminate|].
  destruct (N.eqb_spec c 96) as [->|]; [|discriminate].
  inversion Hm; subst k. simpl in Hin. destruct Hin as [<-|[]]. reflexivity.
Qed.

Lemma escapedNewline_consumes : consumes SnipJson.escapedNewline removable.
Proof.
  intros prev rest k Hm x Hin. unfold SnipJson.escapedNewline in Hm.
  destruct rest as [|c [|d t]]; try discriminate.
  destruct (N.eqb_spec c 92) as [->|]; [|discriminate].
  destruct (N.eqb_spec d 110) as [->|]; [|discriminate].
  inversion Hm; subst k. simpl in Hin. destruct Hin as [<-|[<-|[]]]; reflexivity.
Qed.

Lemma removable_not_space (x : N) : removable x = false -> isSpace x = false.
Proof.
  unfold removable. intros H.
  destruct (isQuote x), (isSpace x); simpl in H; try discriminate; reflexivity.
Qed.

(** [sanitizeContent] keeps every code unit that is not removable. *)
Lemma sanitize_keeps (s : jsstring) (x : N) :
  removable x = false -> In x s -> In x (SnipJson.sanitize s).
Proof.
  intros Hx Hin. unfold SnipJson.sanitize.
  apply trim_keeps; [apply removable_not_space; exact Hx|].
  apply (replaceAll_keeps _ _ removable x _ escapedNewline_consumes Hx).
  apply (replaceAll_keeps _ _ removable x _ backtick_consumes Hx).
  apply (replaceAll_keeps _ _ removable x _ outerQuote_consumes Hx).
  apply (replaceAll_keeps _ _ removable x _ fence_consumes Hx).
  apply (replaceAll_keeps _ _ removable x _ concatArtifact_consumes Hx).
  exact Hin.
Qed.

Lemma src_sanitize_keeps (s : jsstring) (x : N) :
  removable x = false -> In x s -> In x (SrcSnipJson.sanitize s).
Proof.
  intros Hx Hin. unfold SrcSnipJson.sanitize.
  apply trim_keeps; [apply removable_not_space; exact Hx|].
  apply (replaceAll_keeps _ _ removable x _ fence_consumes Hx).
  apply (replaceAll_keeps _ _ removable x _ concatArtifact_consumes Hx).
  exact Hin.
Qed.

(** It adds nothing but line feeds. *)
Lemma sanitize_adds (s : jsstring) (x : N) :
  In x (SnipJson.sanitize s) -> In x s \/ x = 10%N.
Proof.
  unfold SnipJson.sanitize, replaceAll. intros H.
  apply SanitizeFacts.In_trim in H.
  apply SanitizeFacts.In_replaceFrom in H as [[->|[]]|H]; [right; reflexivity|].
  repeat (apply SanitizeFacts.In_replaceFrom in H as [[]|H]).
  left. exact H.
Qed.

Lemma src_sanitize_adds (s : jsstring) (x : N) :
  In x (SrcSnipJson.sanitize s) -> In x s.
Proof.
  unfold SrcSnipJson.sanitize, replaceAll. intros H.
  apply SanitizeFacts.In_trim in H.
  repeat (apply SanitizeFacts.In_replaceFrom in H as [[]|H]).
  exact H.
Qed.

Lemma sanitize_length (s : jsstring) : len (SnipJson.sanitize s) <= len s.
Proof.
  unfold SnipJson.sanitize, replaceAll, len.
  pose proof (trim_length
    (replaceFrom SnipJson.escapedNewline [10%N] None 0
       (replaceFrom SnipJson.backtick [] None 0
          (replaceFrom SnipJson.outerQuote [] None 0
             (replaceFrom SnipJson.fence [] None 0
                (replaceFrom SnipJson.concatArtifact [] None 0 s)))))) as H0.
  pose proof (replaceFrom_length SnipJson.escapedNewline [10%N] ltac:(simpl; lia)
    (replaceFrom SnipJson.backtick [] None 0
          (replaceFrom SnipJson.outerQuote [] None 0
             (replaceFrom SnipJson.fence [] None 0
                (replaceFrom SnipJson.concatArtifact [] None 0 s)))) None 0%nat) as H1.
  pose proof (replaceFrom_length SnipJson.backtick [] ltac:(simpl; lia)
          (replaceFrom SnipJson.outerQuote [] None 0
             (replaceFrom SnipJson.fence [] None 0
                (replaceFrom SnipJson.concatArtifact [] None 0 s))) None 0%nat) as H2.
  pose proof (replaceFrom_length SnipJson.outerQuote [] ltac:(simpl; lia)
             (replaceFrom SnipJson.fence [] None 0
                (replaceFrom SnipJson.concatArtifact [] None 0 s)) None 0%nat) as H3.
  pose proof (replaceFrom_length SnipJson.fence [] ltac:(simpl; lia)
                (replaceFrom SnipJson.concatArtifact [] None 0 s) None 0%nat) as H4.
  pose proof (replaceFrom_length SnipJson.concatArtifact [] ltac:(simpl; lia)
                s None 0%nat) as H5.
  lia.
Qed.

Lemma src_sanitize_length (s : jsstring) : len (SrcSnipJson.sanitize s) <= len s.
Proof.
  unfold SrcSnipJson.sanitize, replaceAll, len.
  pose proof (trim_length
             (replaceFrom SnipJson.fence [] None 0
                (replaceFrom SnipJson.concatArtifact [] None 0 s))) as H0.
  pose proof (replaceFrom_length SnipJson.fence [] ltac:(simpl; lia)
                (replaceFrom SnipJson.concatArtifact [] None 0 s) None 0%nat) as H4.
  pose proof (replaceFrom_length SnipJson.concatArtifact [] ltac:(simpl; lia)
                s None 0%nat) as H5.
  lia.
Qed.

End SanitizerFacts.

Module FixedPointFacts.
Import JSFacts SanitizerFacts.


Lemma replaceFrom_none (m : matcher) (rep : jsstring) (p : N -> bool) :
  needs m p ->
  forall s prev, (forall x, In x s -> p x = false) ->
    replaceFrom m rep prev 0 s = s.
Proof.
  intros Hm. induction s as [|c t IH]; intros prev Hno; simpl; [reflexivity|].
  destruct (m prev (c :: t)) as [k|] eqn:Em.
  - destruct (Hm _ _ _ Em) as (x & Hin & Hp). rewrite Hno in Hp by exact Hin. discriminate.
  - f_equal. apply IH. intros x Hx. apply Hno. right. exact Hx.
Qed.

Lemma concatArtifact_needs : needs SnipJson.concatArtifact (fun c => N.eqb c 43).
Proof.
  intros prev rest k Hm. unfold SnipJson.concatArtifact in Hm.
  destruct rest as [|q t]; [discriminate|].
  destruct (isQuote q); [|discriminate].
  destruct (skipn (spanLength isSpace t) t) as [|p t2] eqn:Et; [discriminate|].
  destruct (N.eqb_spec p 43) as [->|]; [|discriminate].
  exists 43%N. split; [|reflexivity]. right.
  apply (SanitizeFacts.In_skipn (spanLength isSpace t)). rewrite Et. left. reflexivity.
Qed.

Lemma startsWith_head (a : N) (n s : jsstring) :
  startsWith (a :: n) s = true -> In a s.
Proof.
  destruct s as [|b s]; simpl; [discriminate|].
  intros H. apply andb_true_iff in H as [E _]. apply N.eqb_eq in E. left. auto.
Qed.

Lemma fence_needs : needs SnipJson.fence (fun c => N.eqb c 96).
Proof.
  intros prev rest k Hm. unfold SnipJson.fence in Hm.
  exists 96%N. split; [|reflexivity].
  destruct (SnipJson.atLineStart prev && startsWith (js "```json") rest)%bool eqn:E1.
  - apply andb_true_iff in E1 as [_ E1]. apply (startsWith_head _ _ _ E1).
  - destruct (startsWith (js "```") rest && SnipJson.atLineEnd (skipn 3 rest))%bool eqn:E2;
      [|discriminate].
    apply andb_true_iff in E2 as [E2 _]. apply (startsWith_head _ _ _ E2).
Qed.

Lemma backtick_needs : needs SnipJson.backtick (fun c => N.eqb c 96).
Proof.
  intros prev rest k Hm. unfold SnipJson.backtick in Hm.
  destruct rest as [|c t]; [discriminate|].
  destruct (N.eqb_spec c 96) as [->|]; [|discriminate].
  exists 96%N. split; [left|]; reflexivity.
Qed.

Lemma escapedNewline_needs : needs SnipJson.escapedNewline (fun c => N.eqb c 92).
Proof.
  intros prev rest k Hm. unfold SnipJson.escapedNewline in Hm.
  destruct rest as [|c [|d t]]; try discriminate.
  destruct (N.eqb_spec c 92) as [->|]; [|discriminate].
  exists 92%N. split; [left|]; reflexivity.
Qed.

(** Past the first code unit, the outer-quote expression matches only a
    quote that ends the input. *)
Lemma outerQuote_inner (s : jsstring) :
  isQuote (last s 0%N) = false ->
  forall p, replaceFrom SnipJson.outerQuote [] (Some p) 0 s = s.
Proof.
  induction s as [|c t IH]; intros Hlast p; [reflexivity|].
  cbn [replaceFrom]. unfold SnipJson.outerQuote at 1.
  destruct t as [|d t'].
  - simpl in Hlast. rewrite Hlast. reflexivity.
  - assert (Hnone : (if isQuote c then @None nat else None) = None)
      by (destruct (isQuote c); reflexivity).
    rewrite Hnone. f_equal. apply IH. exact Hlast.
Qed.

Lemma outerQuote_id (s : jsstring) :
  isQuote (hd 0%N s) = false -> isQuote (last s 0%N) = false ->
  replaceAll SnipJson.outerQuote [] s = s.
Proof.
  intros Hhd Hlast. destruct s as [|c t]; [reflexivity|].
  unfold replaceAll. cbn [replaceFrom]. unfold SnipJson.outerQuote at 1.
  simpl in Hhd. rewrite Hhd. f_equal.
  destruct t as [|d t']; [reflexivity|]. apply outerQuote_inner. exact Hlast.
Qed.

Lemma trim_ends (s : jsstring) :
  isSpace (hd 0%N s) = false -> isSpace (last s 0%N) = false -> trim s = s.
Proof.
  intros Hhd Hlast. unfold trim, trimEnd.
  assert (Hs : trimStart s = s).
  { destruct s as [|c t]; [reflexivity|]. simpl in *. rewrite Hhd. reflexivity. }
  rewrite Hs.
  destruct (rev s) as [|c r] eqn:Er; [simpl; rewrite <- (rev_involutive s), Er; reflexivity|].
  assert (Es : s = rev r ++ [c]).
  { rewrite <- (rev_involutive s), Er. reflexivity. }
  assert (Hc : isSpace c = false).
  { rewrite Es, last_last in Hlast. exact Hlast. }
  cbn [trimStart]. rewrite Hc. rewrite <- Er. apply rev_involutive.
Qed.

End FixedPointFacts.

Module PairFacts.
Import JSFacts.

Lemma hasPair_cons (a b x : N) (l : jsstring) :
  hasPair a b (x :: l) = ((N.eqb x a && TagRun.headIs l b) || hasPair a b l)%bool.
Proof.
  destruct l as [|y t]; simpl; [rewrite andb_false_r; reflexivity|reflexivity].
Qed.

Lemma hasPair_app (a b : N) (l1 l2 : jsstring) :
  hasPair a b (l1 ++ l2) = false -> hasPair a b l1 = false /\ hasPair a b l2 = false.
Proof.
  induction l1 as [|x t IH]; intros H; [split; [reflexivity|exact H]|].
  cbn [app] in H. rewrite hasPair_cons in H |- *.
  apply orb_false_iff in H as [H1 H2]. destruct (IH H2) as [Ht Hl2].
  split; [|exact Hl2]. rewrite Ht, orb_false_r.
  destruct (N.eqb x a); [|reflexivity]. cbn [andb] in *.
  destruct t as [|y t']; [reflexivity|exact H1].
Qed.

Lemma hasPair_trim (a b : N) (s : jsstring) :
  hasPair a b s = false -> hasPair a b (trim s) = false.
Proof.
  assert (Hstart : forall l, exists p, l = p ++ trimStart l).
  { induction l as [|c t [p IH]]; [exists []; reflexivity|]. simpl.
    destruct (isSpace c); [exists (c :: p); simpl; f_equal; exact IH|exists []; reflexivity]. }
  intros H. unfold trim, trimEnd.
  destruct (Hstart s) as [p Hp].
  destruct (Hstart (rev (trimStart s))) as [q Hq].
  assert (Hts : trimStart s = rev (trimStart (rev (trimStart s))) ++ rev q).
  { rewrite <- rev_app_distr, <- Hq, rev_involutive. reflexivity. }
  rewrite Hp in H. apply hasPair_app in H as [_ H].
  rewrite Hts in H. apply hasPair_app in H as [H _]. exact H.
Qed.

(** After [replace(/\\n/g, "\n")] no backslash is followed by the
    letter n. *)
Lemma escapedNewline_gone (s : jsstring) :
  forall prev skip,
    hasPair 92 110 (replaceFrom SnipJson.escapedNewline [10%N] prev skip s) = false
    /\ (skip = 0%nat ->
        TagRun.headIs (replaceFrom SnipJson.escapedNewline [10%N] prev skip s) 110 = true ->
        TagRun.headIs s 110 = true).
Proof.
  induction s as [|c t IH]; intros prev skip; [split; [reflexivity|discriminate]|].
  destruct skip as [|k].
  - cbn [replaceFrom].
    destruct (SnipJson.escapedNewline prev (c :: t)) as [[|k]|] eqn:Em.
    + unfold SnipJson.escapedNewline in Em. destruct t as [|d t']; [discriminate|].
      destruct (_ && _)%bool; discriminate.
    + destruct (IH (Some c) k) as [H1 _]. split.
      * cbn [app]. rewrite hasPair_cons, H1. reflexivity.
      * intros _ H. discriminate.
    + destruct (IH (Some c) 0%nat) as [H1 H2]. split; [|intros _ H; exact H].
      rewrite hasPair_cons, H1, orb_false_r.
      destruct (N.eqb_spec c 92) as [->|]; [|reflexivity]. cbn [andb].
      destruct (TagRun.headIs (replaceFrom _ _ _ _ t) 110) eqn:Eh; [|reflexivity].
      specialize (H2 eq_refl eq_refl).
      destruct t as [|d t']; [discriminate|]. simpl in H2.
      unfold SnipJson.escapedNewline in Em. rewrite H2 in Em. discriminate.
  - cbn [replaceFrom]. destruct (IH (Some c) k) as [H1 _]. split; [exact H1|discriminate].
Qed.

Lemma sanitize_no_escaped_newline (s : jsstring) :
  hasPair 92 110 (SnipJson.sanitize s) = false.
Proof.
  unfold SnipJson.sanitize. apply hasPair_trim. apply escapedNewline_gone.
Qed.

End PairFacts.

Module TrimFacts.

Lemma last_rev_hd (l : jsstring) (d : N) : last (rev l) d = hd d l.
Proof. destruct l as [|c t]; [reflexivity|]. simpl. apply last_last. Qed.

Lemma trimStart_hd (l : jsstring) : isSpace (hd 0%N (trimStart l)) = false.
Proof.
  induction l as [|c t IH]; [reflexivity|]. simpl.
  destruct (isSpace c) eqn:E; [exact IH|exact E].
Qed.

(** A trimmed text does not end with white space. *)
Lemma trim_last (s : jsstring) : isSpace (last (trim s) 0%N) = false.
Proof. unfold trim, trimEnd. rewrite last_rev_hd. apply trimStart_hd. Qed.


Lemma trimStart_snoc (l : jsstring) (c : N) :
  isSpace c = false -> trimStart (l ++ [c]) = trimStart l ++ [c].
Proof.
  intros Hc. induction l as [|x t IH]; simpl; [rewrite Hc; reflexivity|].
  destruct (isSpace x); [exact IH|reflexivity].
Qed.

(** A trimmed text does not start with white space. *)
Lemma trim_hd (s : jsstring) : isSpace (hd 0%N (trim s)) = false.
Proof.
  unfold trim, trimEnd.
  pose proof (trimStart_hd s) as H.
  destruct (trimStart s) as [|c t]; [reflexivity|]. simpl in H.
  cbn [rev]. rewrite trimStart_snoc by exact H.
  rewrite rev_app_distr. simpl. exact H.
Qed.

End TrimFacts.

Module KeptFacts.
Import JSFacts SanitizerFacts.

Lemma kept_app (a b : jsstring) : kept (a ++ b) = kept a ++ kept b.
Proof. apply filter_app. Qed.

Lemma kept_cons (c : N) (t : jsstring) :
  kept (c :: t) = if removable c then kept t else c :: kept t.
Proof. unfold kept. cbn [filter]. destruct (removable c); reflexivity. Qed.

Lemma kept_removable (l : jsstring) :
  (forall x, In x l -> removable x = true) -> kept l = [].
Proof.
  induction l as [|c t IH]; intros H; [reflexivity|].
  rewrite kept_cons, (H c) by (left; reflexivity).
  apply IH. intros x Hx. apply H. right. exact Hx.
Qed.

(** A [replace] call whose matches and whose replacement text are made
    of removable code units leaves the others as they are, each
    occurrence in its place. *)
Lemma replaceFrom_kept (m : matcher) (rep : jsstring) :
  consumes m removable -> (forall x, In x rep -> removable x = true) ->
  forall s prev skip,
    (forall x, In x (firstn skip s) -> removable x = true) ->
    kept (replaceFrom m rep prev skip s) = kept (skipn skip s).
Proof.
  intros Hm Hrep. induction s as [|c t IH]; intros prev skip Hskip.
  - destruct skip; reflexivity.
  - destruct skip as [|k]; cbn [replaceFrom skipn].
    + destruct (m prev (c :: t)) as [[|k]|] eqn:Em.
      * rewrite !kept_cons, (IH (Some c) 0%nat) by (intros x []). reflexivity.
      * rewrite kept_app, (kept_removable rep Hrep). cbn [app].
        pose proof (Hm _ _ _ Em) as Hall.
        rewrite (IH (Some c) k).
        2: { intros x Hx. apply Hall. right. exact Hx. }
        rewrite <- (firstn_skipn (S k) (c :: t)) at 1.
        rewrite kept_app, (kept_removable _ Hall). reflexivity.
      * rewrite !kept_cons, (IH (Some c) 0%nat) by (intros x []). reflexivity.
    + apply IH. intros x Hx. apply Hskip. right. exact Hx.
Qed.

Lemma replaceAll_kept (m : matcher) (rep : jsstring) (s : jsstring) :
  consumes m removable -> (forall x, In x rep -> removable x = true) ->
  kept (replaceAll m rep s) = kept s.
Proof.
  intros Hm Hrep. unfold replaceAll.
  rewrite (replaceFrom_kept m rep Hm Hrep) by (intros x []). reflexivity.
Qed.

Lemma trimStart_kept (s : jsstring) : kept (trimStart s) = kept s.
Proof.
  induction s as [|c t IH]; [reflexivity|]. cbn [trimStart].
  destruct (isSpace c) eqn:E; [|reflexivity].
  rewrite IH, kept_cons, (removable_space c E). reflexivity.
Qed.

Lemma kept_rev (s : jsstring) : kept (rev s) = rev (kept s).
Proof.
  induction s as [|c t IH]; [reflexivity|]. cbn [rev].
  rewrite kept_app, IH, !kept_cons.
  destruct (removable c); [apply app_nil_r|reflexivity].
Qed.

Lemma trim_kept (s : jsstring) : kept (trim s) = kept s.
Proof.
  unfold trim, trimEnd.
  rewrite kept_rev, trimStart_kept, kept_rev, rev_involutive. apply trimStart_kept.
Qed.

Lemma sanitize_kept (s : jsstring) : kept (SnipJson.sanitize s) = kept s.
Proof.
  unfold SnipJson.sanitize. rewrite trim_kept.
  rewrite (replaceAll_kept _ _ _ escapedNewline_consumes)
    by (intros x [<-|[]]; reflexivity).
  rewrite (replaceAll_kept _ _ _ backtick_consumes) by (intros x []).
  rewrite (replaceAll_kept _ _ _ outerQuote_consumes) by (intros x []).
  rewrite (replaceAll_kept _ _ _ fence_consumes) by (intros x []).
  apply (replaceAll_kept _ _ _ concatArtifact_consumes). intros x [].
Qed.

Lemma src_sanitize_kept (s : jsstring) : kept (SrcSnipJson.sanitize s) = kept s.
Proof.
  unfold SrcSnipJson.sanitize. rewrite trim_kept.
  rewrite (replaceAll_kept _ _ _ fence_consumes) by (intros x []).
  apply (replaceAll_kept _ _ _ concatArtifact_consumes). intros x [].
Qed.

End KeptFacts.

(** X10.  What [sanitizeContent] returns, in both revisions: a text that
    is not longer than its input and neither starts nor ends with white
    space; in which every occurrence of a code unit that is not
    [removable] is kept, in its place among the others (the text left
    when the removable code units are taken out is the same before and
    after); and that holds no code unit that the input does not hold,
    apart from the line feed in the revision that replaces escaped
    newlines, whose result has no backtick and no backslash followed by
    the letter n.  Brackets, braces, colons, commas and digits are not
    removable. *)
Theorem sanitizer_output (s : jsstring) :
  (len (SnipJson.sanitize s) <= len s
   /\ (forall c, In c (SnipJson.sanitize s) -> In c s \/ c = 10%N)
   /\ kept (SnipJson.sanitize s) = kept s
   /\ isSpace (hd 0%N (SnipJson.sanitize s)) = false
   /\ isSpace (last (SnipJson.sanitize s) 0%N) = false
   /\ hasPair 92 110 (SnipJson.sanitize s) = false
   /\ forallb (fun c => negb (N.eqb c 96)) (SnipJson.sanitize s) = true)
  /\
  (len (SrcSnipJson.sanitize s) <= len s
   /\ (forall c, In c (SrcSnipJson.sanitize s) -> In c s)
   /\ kept (SrcSnipJson.sanitize s) = kept s
   /\ isSpace (hd 0%N (SrcSnipJson.sanitize s)) = false
   /\ isSpace (last (SrcSnipJson.sanitize s) 0%N) = false)
  /\
  kept (js "{}[]:,0123456789") = js "{}[]:,0123456789".
Proof.
  split; [|split; [|reflexivity]].
  - split; [apply SanitizerFacts.sanitize_length|].
    split; [apply SanitizerFacts.sanitize_adds|].
    split; [apply KeptFacts.sanitize_kept|].
    split; [apply TrimFacts.trim_hd|].
    split; [apply TrimFacts.trim_last|].
    split; [apply PairFacts.sanitize_no_escaped_newline|].
    apply forallb_forall. intros c Hc.
    destruct (N.eqb_spec c 96) as [->|]; [|reflexivity].
    exfalso. exact (SanitizeFacts.sanitize_no_backtick s Hc).
  - split; [apply SanitizerFacts.src_sanitize_length|].
    split; [apply SanitizerFacts.src_sanitize_adds|].
    split; [apply KeptFacts.src_sanitize_kept|].
    split; [apply TrimFacts.trim_hd|apply TrimFacts.trim_last].
Qed.

(** X11.  A text without plus sign, backtick and backslash that neither
    starts nor ends with a quote or white space is left unchanged by
    [sanitizeContent] in both revisions, so that [snipJson] is then the
    extraction over the text as given. *)
Theorem sanitizer_leaves_plain_text (s : jsstring) :
  (forall c, In c s -> c <> 43%N /\ c <> 96%N /\ c <> 92%N) ->
  isQuote (hd 0%N s) = false -> isSpace (hd 0%N s) = false ->
  isQuote (last s 0%N) = false -> isSpace (last s 0%N) = false ->
  SnipJson.sanitize s = s
  /\ SrcSnipJson.sanitize s = s
  /\ (s <> [] -> SnipJson.snipJson (VString s) = SnipJson.extract s)
  /\ SrcSnipJson.snipJson (VString s) = SrcSnipJson.extract s.
Proof.
  intros Hno Hq1 Hs1 Hq2 Hs2.
  assert (Hplus : forall x, In x s -> N.eqb x 43 = false)
    by (intros x Hx; apply N.eqb_neq; apply (Hno x Hx)).
  assert (Htick : forall x, In x s -> N.eqb x 96 = false)
    by (intros x Hx; apply N.eqb_neq; apply (Hno x Hx)).
  assert (Hback : forall x, In x s -> N.eqb x 92 = false)
    by (intros x Hx; apply N.eqb_neq; apply (Hno x Hx)).
  assert (H1 : replaceAll SnipJson.concatArtifact [] s = s)
    by (apply (FixedPointFacts.replaceFrom_none _ _ _
                 FixedPointFacts.concatArtifact_needs); exact Hplus).
  assert (H2 : replaceAll SnipJson.fence [] s = s)
    by (apply (FixedPointFacts.replaceFrom_none _ _ _
                 FixedPointFacts.fence_needs); exact Htick).
  assert (H3 : replaceAll SnipJson.outerQuote [] s = s)
    by (apply FixedPointFacts.outerQuote_id; assumption).
  assert (H4 : replaceAll SnipJson.backtick [] s = s)
    by (apply (FixedPointFacts.replaceFrom_none _ _ _
                 FixedPointFacts.backtick_needs); exact Htick).
  assert (H5 : replaceAll SnipJson.escapedNewline [10%N] s = s)
    by (apply (FixedPointFacts.replaceFrom_none _ _ _
                 FixedPointFacts.escapedNewline_needs); exact Hback).
  assert (H6 : trim s = s) by (apply FixedPointFacts.trim_ends; assumption).
  assert (Hnew : SnipJson.sanitize s = s).
  { unfold SnipJson.sanitize. rewrite H1, H2, H3, H4, H5. exact H6. }
  assert (Hold : SrcSnipJson.sanitize s = s).
  { unfold SrcSnipJson.sanitize. rewrite H1, H2. exact H6. }
  split; [exact Hnew|]. split; [exact Hold|]. split.
  - intros Hne. unfold SnipJson.snipJson. destruct s; [congruence|].
    cbn [isEmpty SnipJson.sanitizeContent bind]. rewrite Hnew. reflexivity.
  - unfold SrcSnipJson.snipJson. cbn [SrcSnipJson.sanitizeContent bind].
    rewrite Hold. reflexivity.
Qed.

Lemma sanitizer_leaves_plain_text_witness :
  SnipJson.sanitize (jq "{'a': [1, 2]} trailing") = jq "{'a': [1, 2]} trailing"
  /\ SrcSnipJson.sanitize (jq "{'a': [1, 2]} trailing") = jq "{'a': [1, 2]} trailing"
  /\ (jq "{'a': [1, 2]} trailing" <> [] ->
      SnipJson.snipJson (VString (jq "{'a': [1, 2]} trailing"))
      = SnipJson.extract (jq "{'a': [1, 2]} trailing"))
  /\ SrcSnipJson.snipJson (VString (jq "{'a': [1, 2]} trailing"))
     = SrcSnipJson.extract (jq "{'a': [1, 2]} trailing").
Proof.
  apply (sanitizer_leaves_plain_text (jq "{'a': [1, 2]} trailing")); try reflexivity.
  intros c Hc. vm_compute in Hc.
  repeat (destruct Hc as [<-|Hc]; [repeat split; discriminate|]). contradiction.
Defined.

Module ExtractFacts.
Import JSFacts SnipJsonFacts ScanFacts.

Lemma scan_mismatch_range (rest : jsstring) :
  forall i stack j,
    scan rest i stack = Mismatch j ->
    i <= j < i + len rest /\
    exists c, nth_error rest (Z.to_nat (j - i)) = Some c /\ CLOSING c = true.
Proof.
  unfold len.
  induction rest as [|c rest' IH]; intros i stack j H; [discriminate|].
  assert (Hhere : j = i -> i <= j < i + Z.of_nat (length (c :: rest')) /\
                           (CLOSING c = true ->
                            exists c0, nth_error (c :: rest') (Z.to_nat (j - i)) = Some c0
                                       /\ CLOSING c0 = true)).
  { intros ->. cbn [length]. split; [lia|]. intros Hc. rewrite Z.sub_diag. exists c. auto. }
  assert (Hnext : forall st, scan rest' (i + 1) st = Mismatch j ->
            i <= j < i + Z.of_nat (length (c :: rest')) /\
            exists c0, nth_error (c :: rest') (Z.to_nat (j - i)) = Some c0
                       /\ CLOSING c0 = true).
  { intros st Hs. apply IH in Hs as [Hb (c0 & Hn & Hc)]. cbn [length]. split; [lia|].
    exists c0. split; [|exact Hc].
    replace (Z.to_nat (j - i)) with (S (Z.to_nat (j - (i + 1)))) by lia. exact Hn. }
  simpl in H.
  destruct (OPENING c); [eapply Hnext; exact H|].
  destruct (CLOSING c) eqn:Hc; [|eapply Hnext; exact H].
  destruct stack as [|last stack'].
  { inversion H; subst. destruct (Hhere eq_refl) as [Hb Hx]. split; [exact Hb|auto]. }
  destruct (PAIRS last).
  2: { inversion H; subst. destruct (Hhere eq_refl) as [Hb Hx]. split; [exact Hb|auto]. }
  destruct (N.eqb _ _).
  2: { inversion H; subst. destruct (Hhere eq_refl) as [Hb Hx]. split; [exact Hb|auto]. }
  destruct stack'; [discriminate|]. eapply Hnext; exact H.
Qed.

(** The delimiter at the bottom of the stack stays there for as long as
    the scan goes on. *)
Lemma scan_bottom (rest : jsstring) (b : N) :
  forall i above open_,
    scan rest i (above ++ [b]) = Unclosed open_ ->
    exists above', open_ = above' ++ [b].
Proof.
  induction rest as [|c rest' IH]; intros i above open_ H; simpl in H.
  - inversion H. eauto.
  - destruct (OPENING c).
    { apply (IH (i + 1) (c :: above)). exact H. }
    destruct (CLOSING c); [|eapply IH; exact H].
    destruct above as [|a above']; simpl in H.
    + destruct (PAIRS b); [|discriminate]. destruct (N.eqb _ _); discriminate.
    + destruct (PAIRS a); [|discriminate]. destruct (N.eqb _ _); [|discriminate].
      destruct (above' ++ [b]) eqn:E; [destruct above'; discriminate|].
      rewrite <- E in H. eapply IH. exact H.
Qed.

Lemma lastIndexOfFrom_range (needle s : jsstring) :
  needle <> [] ->
  forall i, 0 <= i ->
            lastIndexOfFrom needle s i = -1 \/
            i <= lastIndexOfFrom needle s i < i + len s.
Proof.
  intros Hne. unfold len.
  induction s as [|c t IH]; intros i Hi.
  - left. simpl. destruct needle; [congruence|reflexivity].
  - cbn [lastIndexOfFrom length].
    destruct (IH (i + 1) ltac:(lia)) as [E|E].
    + rewrite E. change (-1 =? -1) with true. cbv iota.
      destruct (startsWith needle (c :: t)); [right; lia|left; reflexivity].
    + destruct (Z.eqb_spec (lastIndexOfFrom needle t (i + 1)) (-1)); [lia|right; lia].
Qed.

Lemma pairText_nonempty (c : option N) : pairText c <> [].
Proof.
  unfold pairText. destruct c as [o|]; [|discriminate].
  destruct (PAIRS o); discriminate.
Qed.

Lemma opening_pair (o : N) :
  OPENING o = true -> exists closer, PAIRS o = Some closer /\ pairText (Some o) = [closer].
Proof.
  unfold OPENING, PAIRS, pairText, PAIRS. intros H.
  destruct (N.eqb o 123); [eauto|]. destruct (N.eqb o 91); [eauto|discriminate].
Qed.

End ExtractFacts.

Module ExtractCases.
Import JSFacts SnipJsonFacts ScanFacts ExtractFacts.

Lemma structural_cases (content : jsstring) (start : Z) (o : N) (rest : jsstring) :
  0 <= start ->
  from content start = o :: rest ->
  OPENING o = true ->
  exists r, structural content start = Normal r /\ extraction content start r.
Proof.
  intros H0 Hfrom Ho.
  assert (Hat : charAt content start = Some o).
  { rewrite TagNameFacts.charAt_from by exact H0. rewrite Hfrom. reflexivity. }
  pose proof (from_length content start H0) as Hl. rewrite Hfrom in Hl.
  unfold len in Hl at 1. cbn [length] in Hl.
  destruct (opening_pair o Ho) as (closer & Hp & Htext).
  unfold structural, extraction.
  destruct (scan (from content start) start []) as [i|e|open_] eqn:Hscan.
  - (* mismatch *)
    eexists; split; [reflexivity|]. do 4 right. left. exists i. split; [|reflexivity].
    rewrite Hfrom in Hscan. simpl in Hscan. rewrite Ho in Hscan.
    apply scan_mismatch_range in Hscan as [Hb _].
    unfold len in Hb. lia.
  - (* balanced *)
    destruct (scan_balanced_prefix _ _ _ _ Hscan) as [Hb _].
    rewrite Hfrom in Hscan. simpl in Hscan. rewrite Ho in Hscan.
    destruct (scan_balanced_prefix _ _ _ _ Hscan) as [Hb' _].
    rewrite Hfrom in Hb. unfold len in Hb, Hb'. cbn [length] in Hb.
    destruct (parseJsonSafely_cases (slice content start (e + 1)))
      as [(v & Hv & H)|(m & Hm & H)]; rewrite H; cbn [bind Attempt.success Attempt.data];
      (eexists; split; [reflexivity|]).
    + left. exists (e + 1), v. repeat split; auto; lia.
    + right; left. exists (e + 1), m. repeat split; auto; lia.
  - (* the text is exhausted *)
    rewrite Hfrom in Hscan. simpl in Hscan. rewrite Ho in Hscan.
    destruct (scan_bottom rest o (start + 1) [] open_ Hscan) as [above ->].
    destruct above as [|a above'].
    + cbn [app]. rewrite Htext.
      destruct (parseJsonSafely_cases (sliceFrom content start ++ [closer]))
        as [(v & Hv & H)|(m & Hm & H)]; rewrite H;
        cbn [bind Attempt.success Attempt.data];
        (eexists; split; [reflexivity|]).
      * do 2 right; left. exists o, closer, v. auto.
      * do 3 right; left. exists o, closer, m. repeat split; auto.
    + assert (E : exists x y more, (a :: above') ++ [o] = x :: y :: more).
      { destruct above'; simpl; eauto. }
      destruct E as (x & y & more & ->).
      eexists; split; [reflexivity|]. do 5 right. reflexivity.
Qed.

Lemma extract_cases (content : jsstring) :
  findStart content <> -1 ->
  exists r, extract content = Normal r /\ extraction content (findStart content) r.
Proof.
  intros Hstart. set (start := findStart content).
  destruct (findStart_opening content Hstart) as (H0 & o & rest & Hfrom & Ho).
  fold start in H0, Hfrom.
  assert (Hat : charAt content start = Some o).
  { rewrite TagNameFacts.charAt_from by exact H0. rewrite Hfrom. reflexivity. }
  assert (Hlen : start < len content).
  { pose proof (from_length content start H0) as Hl. rewrite Hfrom in Hl.
    unfold len in Hl at 1. cbn [length] in Hl. lia. }
  destruct (opening_pair o Ho) as (closer & Hp & Htext).
  unfold extract. fold start.
  assert ((start =? -1) = false) as -> by (apply Z.eqb_neq; exact Hstart).
  unfold fastPath. rewrite Hat, Htext.
  destruct (Z.gtb_spec (lastIndexOf content [closer]) start) as [Hgt|Hle];
    [|apply (structural_cases content start o rest H0 Hfrom Ho)].
  destruct (lastIndexOfFrom_range [closer] content ltac:(discriminate) 0 ltac:(lia))
    as [E|E]; fold (lastIndexOf content [closer]) in E; [lia|].
  destruct (parseJsonSafely_cases
              (slice content start (lastIndexOf content [closer] + 1)))
    as [(v & Hv & H)|(m & Hm & H)]; rewrite H; cbn [bind Attempt.success];
    [|apply (structural_cases content start o rest H0 Hfrom Ho)].
  eexists; split; [reflexivity|]. left.
  exists (lastIndexOf content [closer] + 1), v. repeat split; auto; lia.
Qed.

(** The engine on a string: the input check, then the extraction over
    the sanitized text. *)
Lemma snipJson_cases (s : jsstring) :
  (s = [] /\
   snipJson (VString s) =
     Normal (failWith (js "Invalid input: content must be a non-empty string.") VNull))
  \/
  (s <> [] /\ findStart (sanitize s) = -1 /\
   snipJson (VString s) = Normal (failWith (js "No JSON structure found.") VNull))
  \/
  (s <> [] /\ findStart (sanitize s) <> -1 /\
   exists r, snipJson (VString s) = Normal r /\
             extraction (sanitize s) (findStart (sanitize s)) r).
Proof.
  destruct s as [|c t]; [left; split; reflexivity|right].
  assert (Hne : c :: t <> []) by discriminate.
  unfold snipJson. cbn [isEmpty sanitizeContent bind].
  destruct (Z.eq_dec (findStart (sanitize (c :: t))) (-1)) as [E|E].
  - left. split; [exact Hne|]. split; [exact E|].
    unfold extract. rewrite E. reflexivity.
  - right. split; [exact Hne|]. split; [exact E|]. apply extract_cases. exact E.
Qed.

End ExtractCases.

Module OriginFacts.
Import JSFacts SnipJsonFacts ScanFacts ExtractFacts ExtractCases.

Lemma decoded_container (content : jsstring) (start e : Z) (v : Value) :
  findStart content <> -1 -> start = findStart content ->
  start < e ->
  JSON.parse (slice content start e) = Normal v ->
  isContainer v = true.
Proof.
  intros Hstart -> He Hv.
  destruct (findStart_opening content Hstart) as (H0 & o & rest & Hfrom & Ho).
  destruct (JsonFeedbackFacts.slice_head content (findStart content) e o rest
              ltac:(lia) Hfrom) as [tl Hsl].
  rewrite Hsl in Hv. eapply JsonFeedbackFacts.parse_opening; eassumption.
Qed.

Lemma repaired_container (content : jsstring) (o closer : N) (v : Value) :
  findStart content <> -1 ->
  charAt content (findStart content) = Some o ->
  JSON.parse (sliceFrom content (findStart content) ++ [closer]) = Normal v ->
  isContainer v = true.
Proof.
  intros Hstart Hat Hv.
  destruct (findStart_opening content Hstart) as (H0 & o' & rest & Hfrom & Ho).
  assert (Hlen : findStart content < len content).
  { pose proof (from_length content _ H0) as Hl. rewrite Hfrom in Hl.
    unfold len in Hl at 1. cbn [length] in Hl. lia. }
  unfold sliceFrom in Hv.
  destruct (JsonFeedbackFacts.slice_head content (findStart content) (len content) o' rest
              ltac:(lia) Hfrom)
    as [tl Hsl].
  rewrite Hsl in Hv. cbn [app] in Hv.
  eapply JsonFeedbackFacts.parse_opening; eassumption.
Qed.

End OriginFacts.

(** X13.  Where the [data] of the revision without a file name comes
    from.  It is always an object or an array, and it comes with no
    [raw].  With status [Success] it is the decoding of a slice of the
    sanitized text that starts at the first opening delimiter; with
    status [Check] it is the decoding of the sanitized text from that
    delimiter on, followed by the closer of that same delimiter (the
    repair closes the outermost structure). *)
Theorem json_data_origin (s : jsstring) :
  let content := sanitize s in
  let start := findStart content in
  exists r,
    snipJson (VString s) = Normal r /\
    (populated (data r) = true ->
       isContainer (data r) = true /\ raw r = VNull /\
       ((status r = Success /\
         exists e, start < e <= len content /\
                   JSON.parse (slice content start e) = Normal (data r))
        \/
        (status r = Check /\ comments r = repairNote /\
         exists o closer,
           charAt content start = Some o /\ PAIRS o = Some closer /\
           JSON.parse (sliceFrom content start ++ [closer]) = Normal (data r)))).
Proof.
  intros content start.
  destruct (ExtractCases.snipJson_cases s)
    as [[_ H]|[(_ & _ & H)|(_ & Hstart & r & H & Hx)]];
    try (rewrite H; eexists; split; [reflexivity|]; simpl; discriminate).
  fold content in Hstart, Hx. fold start in Hx.
  exists r. split; [exact H|].
  destruct Hx as [(e & v & He & Hv & ->)|[(e & m & He & Hm & ->)|
                 [(o & closer & v & Hat & Hp & Hv & ->)|
                 [(o & closer & m & Hat & Hp & Hm & ->)|[(i & Hi & ->)| ->]]]]];
    cbn [data raw status comments failWith initialResult populated];
    try discriminate; intros _.
  - split; [eapply OriginFacts.decoded_container; eauto; lia|].
    split; [reflexivity|]. left. split; [reflexivity|]. eauto.
  - split; [eapply OriginFacts.repaired_container; eauto|].
    split; [reflexivity|]. right. split; [reflexivity|]. split; [reflexivity|]. eauto.
Qed.

(** X12.  The outcomes of [snipJson] in the revision without a file
    name, for every value: a success with [data] and the comment "JSON
    successfully extracted and parsed."; a [Check] with [data] and the
    comment of the repair; a [Check] without [data], with [raw] and a
    comment that starts "Structurally valid JSON failed to parse: "; a
    failure with neither [data] nor [raw], from the input check or for
    want of a structure; a failure with [raw], for a mismatch, an
    unbalanced structure or a repair that does not decode. *)
Theorem json_outcome_table (content : Value) :
  exists r,
    SnipJson.snipJson content = Normal r /\
    ((status r = Success /\ populated (data r) = true /\ raw r = VNull
      /\ comments r = js "JSON successfully extracted and parsed.")
     \/
     (status r = Check /\ populated (data r) = true /\ raw r = VNull
      /\ comments r = js "One missing closing bracket auto-added. Please verify.")
     \/
     (status r = Check /\ data r = VNull /\ (exists t, raw r = VString t)
      /\ exists m, comments r = js "Structurally valid JSON failed to parse: " ++ m)
     \/
     (status r = Fail /\ data r = VNull /\ raw r = VNull
      /\ (comments r = js "Invalid input: content must be a non-empty string."
          \/ comments r = js "No JSON structure found."))
     \/
     (status r = Fail /\ data r = VNull /\ (exists t, raw r = VString t)
      /\ (comments r = js "Bracket mismatch detected."
          \/ comments r = js "Unbalanced JSON structure."
          \/ exists m, comments r = js "Auto-closure attempted but parsing failed: " ++ m))).
Proof.
  assert (Hinvalid : forall c : Value,
            (forall s, c <> VString s) ->
            SnipJson.snipJson c =
              Normal (failWith (js "Invalid input: content must be a non-empty string.")
                               VNull)).
  { intros c Hc. destruct c; try reflexivity. exfalso. eapply Hc. reflexivity. }
  destruct content as [| |b|lit|s|items|props];
    try solve [rewrite Hinvalid by discriminate; eexists; split; [reflexivity|];
               do 3 right; left; simpl; auto 10].
  assert (Hcont : forall v, isContainer v = true -> populated v = true)
    by (intros [] Hv; try discriminate; reflexivity).
  destruct (ExtractCases.snipJson_cases s)
    as [[_ H]|[(_ & _ & H)|(_ & Hstart & r & H & Hx)]];
    try solve [rewrite H; eexists; split; [reflexivity|];
               do 3 right; left; simpl; auto 10].
  exists r. split; [exact H|].
  destruct Hx as [(e & v & He & Hv & ->)|[(e & m & He & Hm & ->)|
                 [(o & closer & v & Hat & Hp & Hv & ->)|
                 [(o & closer & m & Hat & Hp & Hm & ->)|[(i & Hi & ->)| ->]]]]];
    cbn [data raw status comments failWith initialResult].
  - left. repeat split.
    apply Hcont. eapply OriginFacts.decoded_container; eauto; lia.
  - right; right; left. repeat split; eauto.
  - right; left. repeat split.
    apply Hcont. eapply OriginFacts.repaired_container; eauto.
  - do 4 right. repeat split; eauto.
  - do 4 right. repeat split; eauto.
  - do 4 right. repeat split; eauto.
Qed.

(** X14.  The revision without a file name answers "No JSON structure
    found." exactly on the non-empty strings that hold neither an
    opening brace nor an opening bracket (the sanitizer neither adds nor
    removes one), and the result is then the bare failure. *)
Theorem no_json_structure_iff (s : jsstring) :
  exists r,
    snipJson (VString s) = Normal r /\
    (comments r = js "No JSON structure found."
     <-> s <> [] /\ forall c, In c s -> OPENING c = false) /\
    (comments r = js "No JSON structure found."
     -> r = failWith (js "No JSON structure found.") VNull).
Proof.
  assert (Hopen : forall c, OPENING c = true -> removable c = false /\ c <> 10%N).
  { intros c Hc. unfold OPENING in Hc. apply orb_true_iff in Hc.
    rewrite !N.eqb_eq in Hc. destruct Hc as [->| ->]; split; try reflexivity; discriminate. }
  destruct (ExtractCases.snipJson_cases s)
    as [[Hs H]|[(Hs & Hstart & H)|(Hs & Hstart & r & H & Hx)]].
  - rewrite H. eexists; split; [reflexivity|]. simpl.
    split; [split|]; try discriminate. intros [Hne _]. contradiction.
  - rewrite H. eexists; split; [reflexivity|]. simpl.
    split; [split|]; auto. intros _. split; [exact Hs|].
    intros c Hc. destruct (OPENING c) eqn:Ho; [|reflexivity].
    destruct (Hopen c Ho) as [Hrem _].
    pose proof (proj1 (StartFacts.findStart_none (sanitize s)) Hstart) as Hnone.
    rewrite (Hnone c) in Ho; [discriminate|].
    apply SanitizerFacts.sanitize_keeps; assumption.
  - exists r. split; [exact H|].
    assert (Hin : ~ (forall c, In c s -> OPENING c = false)).
    { intros Hall.
      destruct (ScanFacts.findStart_opening (sanitize s) Hstart)
        as (H0 & c & rest & Hat & Ho).
      assert (In c (from (sanitize s) (findStart (sanitize s))))
        by (rewrite Hat; left; reflexivity).
      clear Hat. assert (Hat : In c (sanitize s))
        by (eapply SanitizeFacts.In_skipn; eassumption).
      destruct (Hopen c Ho) as [_ Hlf].
      apply SanitizerFacts.sanitize_adds in Hat as [Hat|Hat]; [|contradiction].
      rewrite (Hall c Hat) in Ho. discriminate. }
    destruct Hx as [(e & v & He & Hv & ->)|[(e & m & He & Hm & ->)|
                   [(o & closer & v & Hat & Hp & Hv & ->)|
                   [(o & closer & m & Hat & Hp & Hm & ->)|[(i & Hi & ->)| ->]]]]];
      cbn [data raw status comments failWith initialResult];
      (split; [split; [discriminate|intros [_ Hall]; contradiction]|discriminate]).
Qed.

(** X22.  Where the [raw] of the revision without a file name comes
    from: it begins with the first opening delimiter of the sanitized
    text, and it is either a slice of that text from there on, or the
    text from there on followed by the closer of that delimiter (the
    repair that did not decode). *)
Theorem json_raw_origin (s : jsstring) :
  let content := sanitize s in
  let start := findStart content in
  exists r,
    snipJson (VString s) = Normal r /\
    forall t, raw r = VString t ->
      exists o tl,
        charAt content start = Some o /\ OPENING o = true /\ t = o :: tl /\
        ((exists e, start < e <= len content /\ t = slice content start e)
         \/ (exists closer, PAIRS o = Some closer /\
                            t = sliceFrom content start ++ [closer])).
Proof.
  intros content start.
  destruct (ExtractCases.snipJson_cases s)
    as [[_ H]|[(_ & _ & H)|(_ & Hstart & r & H & Hx)]];
    try (rewrite H; eexists; split; [reflexivity|]; simpl; discriminate).
  fold content in Hstart, Hx. fold start in Hx.
  exists r. split; [exact H|].
  destruct (ScanFacts.findStart_opening content Hstart) as (H0 & o & rest & Hfrom & Ho).
  fold start in H0, Hfrom.
  assert (Hat : charAt content start = Some o).
  { rewrite TagNameFacts.charAt_from by exact H0. rewrite Hfrom. reflexivity. }
  assert (Hlen : start < len content).
  { pose proof (JSFacts.from_length content start H0) as Hl. rewrite Hfrom in Hl.
    unfold len in Hl at 1. cbn [length] in Hl. lia. }
  assert (Hslice : forall e t, start < e <= len content ->
            VString (slice content start e) = VString t ->
            exists o0 tl,
              charAt content start = Some o0 /\ OPENING o0 = true /\ t = o0 :: tl /\
              ((exists e0, start < e0 <= len content /\ t = slice content start e0)
               \/ (exists closer, PAIRS o0 = Some closer /\
                                  t = sliceFrom content start ++ [closer]))).
  { intros e t He Ht. inversion Ht; subst t.
    destruct (JsonFeedbackFacts.slice_head content start e o rest ltac:(lia) Hfrom)
      as [tl Hsl].
    exists o, tl. repeat split; auto. left. exists e. split; [exact He|reflexivity]. }
  destruct Hx as [(e & v & He & Hv & ->)|[(e & m & He & Hm & ->)|
                 [(o' & closer & v & Hat' & Hp & Hv & ->)|
                 [(o' & closer & m & Hat' & Hp & Hm & ->)|[(i & Hi & ->)| ->]]]]];
    cbn [data raw status comments failWith initialResult];
    intros t Ht; try discriminate.
  - apply (Hslice e t He Ht).
  - inversion Ht; subst t. rewrite Hat in Hat'. inversion Hat'; subst o'.
    destruct (JsonFeedbackFacts.slice_head content start (len content) o rest
                ltac:(lia) Hfrom) as [tl Hsl].
    exists o, (tl ++ [closer]). repeat split; auto.
    + unfold sliceFrom. rewrite Hsl. reflexivity.
    + right. exists closer. split; [exact Hp|reflexivity].
  - apply (Hslice (i + 1) t ltac:(lia) Ht).
  - apply (Hslice (len content) t ltac:(lia) Ht).
Qed.

(** X15.  The structural scans of both revisions look at nothing but the
    four delimiters: erasing every other code unit of the text changes
    neither the kind of the outcome nor the delimiters left open.  In
    particular quotes do not protect a delimiter: one inside a string
    literal counts like any other. *)
Theorem scans_read_brackets_only (rest : jsstring) (stack : list N) :
  (forall i j, sameVerdict (scan rest i stack) (scan (filter isBracket rest) j stack))
  /\ (forall i j e f,
        srcSameVerdict (SrcSnipJson.scan rest i stack e)
                       (SrcSnipJson.scan (filter isBracket rest) j stack f)).
Proof.
  split.
  - revert stack. induction rest as [|c rest' IH]; intros stack i j; [reflexivity|].
    cbn [filter]. unfold isBracket at 1.
    destruct (OPENING c) eqn:Ho; cbn [orb].
    { cbn [scan]. rewrite Ho. apply IH. }
    destruct (CLOSING c) eqn:Hc.
    + cbn [scan]. rewrite Ho, Hc.
      destruct stack as [|last stack']; [exact I|].
      destruct (PAIRS last); [|exact I].
      destruct (N.eqb _ _); [|exact I].
      destruct stack'; [exact I|apply IH].
    + cbn [scan]. rewrite Ho, Hc. apply IH.
  - revert stack. induction rest as [|c rest' IH]; intros stack i j e f; [reflexivity|].
    cbn [filter]. unfold isBracket at 1.
    change (SrcSnipJson.scan (c :: rest') i stack e)
      with (let stack0 := if SrcSnipJson.opening c then c :: stack else stack in
            if SrcSnipJson.closing c then
              match stack0 with
              | [] => SrcSnipJson.Mismatch i
              | pair_ :: stack' =>
                  match SrcSnipJson.braces pair_ with
                  | Some closer =>
                      if N.eqb closer c then SrcSnipJson.scan rest' (i + 1) stack' i
                      else SrcSnipJson.Mismatch i
                  | None => SrcSnipJson.Mismatch i
                  end
              end
            else SrcSnipJson.scan rest' (i + 1) stack0 i).
    unfold SrcSnipJson.opening, SrcSnipJson.closing, SrcSnipJson.braces. cbv zeta.
    destruct (OPENING c) eqn:Ho; destruct (CLOSING c) eqn:Hc; cbn [orb].
    all: try (cbn [SrcSnipJson.scan];
              unfold SrcSnipJson.opening, SrcSnipJson.closing, SrcSnipJson.braces;
              rewrite Ho, Hc).
    + destruct (PAIRS c); [|exact I]. destruct (N.eqb _ _); [apply IH|exact I].
    + apply IH.
    + destruct stack as [|last stack']; [exact I|].
      destruct (PAIRS last); [|exact I].
      destruct (N.eqb _ _); [apply IH|exact I].
    + apply IH.
Qed.


(* ===================================================================== *)
(** * Further properties of [src/snipJson.js]                           *)
(* ===================================================================== *)

Module ParseSpanFacts.
Import JSON JSONFacts JSFacts.

(** ** What the decoder leaves unread is a suffix of its input *)


Lemma suffixOf_refl (s : jsstring) : suffixOf s s.
Proof. exists []. reflexivity. Qed.

Lemma suffixOf_cons (c : N) (r s : jsstring) : suffixOf r s -> suffixOf r (c :: s).
Proof. intros [p ->]. exists (c :: p). reflexivity. Qed.

Lemma suffixOf_trans (a b c : jsstring) : suffixOf a b -> suffixOf b c -> suffixOf a c.
Proof. intros [p ->] [q ->]. exists (q ++ p). rewrite app_assoc. reflexivity. Qed.

Lemma suffixOf_skipn (n : nat) (s : jsstring) : suffixOf (skipn n s) s.
Proof. exists (firstn n s). symmetry. apply firstn_skipn. Qed.

Lemma skipSpace_suffix (s : jsstring) : suffixOf (skipSpace s) s.
Proof.
  induction s as [|c t IH]; simpl; [apply suffixOf_refl|].
  destruct (isJsonSpace c); [apply suffixOf_cons; exact IH|apply suffixOf_refl].
Qed.

Lemma parseStringBody_suffix (n : nat) :
  forall s b r, (length s <= n)%nat -> parseStringBody s = Parsed b r -> suffixOf r s.
Proof.
  induction n as [|n IH]; intros s b r Hlen H.
  { destruct s; simpl in *; [discriminate|lia]. }
  destruct s as [|c t]; simpl in H; [discriminate|]. simpl in Hlen.
  destruct (N.eqb c 34).
  { inversion H; subst. apply suffixOf_cons, suffixOf_refl. }
  destruct (N.eqb c 92).
  - destruct t as [|e t1]; [discriminate|]. simpl in Hlen.
    destruct (N.eqb e 117).
    + destruct t1 as [|h1 [|h2 [|h3 [|h4 t2]]]]; try discriminate. simpl in Hlen.
      destruct (hex4 h1 h2 h3 h4); [|discriminate].
      apply consParsed_inv in H as (b' & H & _).
      apply IH in H; [|lia]. do 6 apply suffixOf_cons. exact H.
    + destruct (simpleEscape e); [|discriminate].
      apply consParsed_inv in H as (b' & H & _).
      apply IH in H; [|lia]. do 2 apply suffixOf_cons. exact H.
  - destruct (N.ltb c 32); [discriminate|].
    apply consParsed_inv in H as (b' & H & _).
    apply IH in H; [|lia]. apply suffixOf_cons. exact H.
Qed.

(** An array that is parsed ends with its closing bracket, an object
    with its closing brace. *)

Lemma closedBy_suffix (closer : N) (r s s' : jsstring) :
  closedBy closer r s -> suffixOf s s' -> closedBy closer r s'.
Proof. intros [p ->] [q ->]. exists (q ++ p). rewrite app_assoc. reflexivity. Qed.

Lemma closedBy_here (closer : N) (r s : jsstring) :
  suffixOf (closer :: r) s -> closedBy closer r s.
Proof. intros [p ->]. exists p. reflexivity. Qed.

Ltac suffix_step :=
  first [apply suffixOf_refl | apply suffixOf_cons; suffix_step].

Lemma parse_spans (fuel : nat) :
  (forall s v r, parseValue fuel s = Parsed v r -> suffixOf r s) /\
  (forall s acc v r, parseElements fuel s acc = Parsed v r -> closedBy 93 r s) /\
  (forall s acc v r, parseMembers fuel s acc = Parsed v r -> closedBy 125 r s).
Proof.
  induction fuel as [|f (IHv & IHe & IHm)].
  { repeat split; intros; simpl in *; discriminate. }
  assert (Hclosed : forall closer r s, closedBy closer r s -> suffixOf r s).
  { intros closer r s [p ->]. exists (p ++ [closer]). rewrite <- app_assoc. reflexivity. }
  split; [|split].
  - intros s v r H. simpl in H.
    destruct s as [|c t]; [discriminate|].
    destruct (N.eqb c 123).
    { pose proof (skipSpace_suffix t) as Hsp.
      destruct (skipSpace t) as [|d r0] eqn:Hs; [discriminate|].
      apply suffixOf_cons.
      destruct (N.eqb d 125).
      - inversion H; subst. eapply suffixOf_trans; [|exact Hsp].
        apply suffixOf_cons, suffixOf_refl.
      - apply IHm in H. eapply suffixOf_trans; [|exact Hsp].
        eapply Hclosed. exact H. }
    destruct (N.eqb c 91).
    { pose proof (skipSpace_suffix t) as Hsp.
      destruct (skipSpace t) as [|d r0] eqn:Hs; [discriminate|].
      apply suffixOf_cons.
      destruct (N.eqb d 93).
      - inversion H; subst. eapply suffixOf_trans; [|exact Hsp].
        apply suffixOf_cons, suffixOf_refl.
      - apply IHe in H. eapply suffixOf_trans; [|exact Hsp].
        eapply Hclosed. exact H. }
    destruct (N.eqb c 34).
    { destruct (parseStringBody t) eqn:Hb; inversion H; subst.
      apply suffixOf_cons. apply (parseStringBody_suffix (length t) _ _ _ (le_n _) Hb). }
    destruct (N.eqb c 45 || isDigit c)%bool.
    { unfold parseNumber in H. destruct (numberLength (c :: t)).
      - inversion H; subst. apply suffixOf_skipn.
      - destruct t; discriminate. }
    repeat break_hyp H; inversion H; subst; suffix_step.
  - intros s acc v r H. simpl in H.
    destruct (parseValue f s) as [v0 r0| |] eqn:Hv; try discriminate.
    apply IHv in Hv.
    pose proof (skipSpace_suffix r0) as Hsp.
    destruct (skipSpace r0) as [|d r1] eqn:Hs; [discriminate|].
    destruct (N.eqb_spec d 44) as [->|].
    { apply IHe in H. eapply closedBy_suffix; [exact H|].
      eapply suffixOf_trans; [apply skipSpace_suffix|].
      eapply suffixOf_trans; [|exact Hv].
      eapply suffixOf_trans; [|exact Hsp]. apply suffixOf_cons, suffixOf_refl. }
    destruct (N.eqb_spec d 93) as [->|]; inversion H; subst.
    apply closedBy_here. eapply suffixOf_trans; [exact Hsp|exact Hv].
  - intros s acc v r H. simpl in H.
    destruct s as [|q t]; [discriminate|].
    destruct (N.eqb q 34); [|discriminate].
    destruct (parseStringBody t) as [k r0| |] eqn:Hb; try discriminate.
    apply (parseStringBody_suffix (length t)) in Hb; [|lia].
    pose proof (skipSpace_suffix r0) as Hsp.
    destruct (skipSpace r0) as [|d r1] eqn:Hs; [discriminate|].
    destruct (N.eqb d 58); [|discriminate].
    destruct (parseValue f (skipSpace r1)) as [v0 r2| |] eqn:Hv; try discriminate.
    apply IHv in Hv.
    pose proof (skipSpace_suffix r2) as Hsp2.
    destruct (skipSpace r2) as [|e r3] eqn:Hs2; [discriminate|].
    assert (Hr2 : suffixOf r2 (q :: t)).
    { apply suffixOf_cons.
      eapply suffixOf_trans; [exact Hv|].
      eapply suffixOf_trans; [apply skipSpace_suffix|].
      eapply suffixOf_trans; [|exact Hb].
      eapply suffixOf_trans; [|exact Hsp]. apply suffixOf_cons, suffixOf_refl. }
    destruct (N.eqb_spec e 44) as [->|].
    { apply IHm in H. eapply closedBy_suffix; [exact H|].
      eapply suffixOf_trans; [apply skipSpace_suffix|].
      eapply suffixOf_trans; [|exact Hr2].
      eapply suffixOf_trans; [|exact Hsp2]. apply suffixOf_cons, suffixOf_refl. }
    destruct (N.eqb_spec e 125) as [->|]; inversion H; subst.
    apply closedBy_here. eapply suffixOf_trans; [exact Hsp2|exact Hr2].
Qed.

Lemma skipSpace_nil (r : jsstring) :
  skipSpace r = [] -> Forall (fun c => isJsonSpace c = true) r.
Proof.
  induction r as [|c t IH]; simpl; [constructor|].
  destruct (isJsonSpace c) eqn:E; [|discriminate].
  intros H. constructor; auto.
Qed.

Lemma isJsonSpace_isSpace (c : N) : isJsonSpace c = true -> isSpace c = true.
Proof.
  intros H. unfold isJsonSpace in H. rewrite !orb_true_iff, !N.eqb_eq in H.
  destruct H as [[[->| ->]| ->]| ->]; reflexivity.
Qed.

(** A text that starts with an opening delimiter, decodes, and does not
    end with white space, ends with the matching closing delimiter. *)
Lemma parse_closed (o closer : N) (t : jsstring) (v : Value) :
  SnipJson.PAIRS o = Some closer ->
  parse (o :: t) = Normal v ->
  isSpace (last (o :: t) 0%N) = false ->
  exists body, o :: t = o :: body ++ [closer].
Proof.
  intros Hp Hv Hlast. unfold parse in Hv.
  assert (Hns : isJsonSpace o = false /\ ((o = 123%N /\ closer = 125%N) \/
                                          (o = 91%N /\ closer = 93%N))).
  { unfold SnipJson.PAIRS in Hp.
    destruct (N.eqb_spec o 123) as [->|]; [inversion Hp; auto|].
    destruct (N.eqb_spec o 91) as [->|]; [inversion Hp; auto|discriminate]. }
  destruct Hns as [Hns Hoc].
  cbn [skipSpace] in Hv. rewrite Hns in Hv.
  destruct (parseValue _ _) as [v0 r|m|] eqn:Hpv; try discriminate.
  destruct (skipSpace r) eqn:Hr; [|discriminate].
  apply skipSpace_nil in Hr.
  assert (Hcl : closedBy closer r t).
  { cbn [parseValue] in Hpv.
    destruct (parse_spans (2 * length (o :: t))) as (_ & He & Hm).
    destruct Hoc as [[-> ->]|[-> ->]]; cbn [N.eqb Pos.eqb] in Hpv.
    - pose proof (skipSpace_suffix t) as Hsp.
      destruct (skipSpace t) as [|d r0] eqn:Hs; [discriminate|].
      destruct (N.eqb_spec d 125) as [->|].
      + inversion Hpv; subst. apply closedBy_here. exact Hsp.
      + apply Hm in Hpv. eapply closedBy_suffix; eassumption.
    - pose proof (skipSpace_suffix t) as Hsp.
      destruct (skipSpace t) as [|d r0] eqn:Hs; [discriminate|].
      destruct (N.eqb_spec d 93) as [->|].
      + inversion Hpv; subst. apply closedBy_here. exact Hsp.
      + apply He in Hpv. eapply closedBy_suffix; eassumption. }
  destruct Hcl as [p ->].
  destruct r as [|x r'] using rev_ind; [exists p; reflexivity|].
  exfalso.
  assert (Hx : isJsonSpace x = true).
  { rewrite Forall_forall in Hr. apply Hr. apply in_or_app. right. left. reflexivity. }
  replace (o :: p ++ closer :: r' ++ [x]) with ((o :: p ++ closer :: r') ++ [x]) in Hlast
    by (simpl; rewrite <- app_assoc; reflexivity).
  rewrite last_last in Hlast. apply isJsonSpace_isSpace in Hx. congruence.
Qed.

End ParseSpanFacts.

Module SrcScanFacts.
Import JSFacts ScanFacts.

(** The start index of [src/snipJson.js] is that of the other revision. *)
Lemma startingBrace_findStart (content : jsstring) (start : Z) :
  SrcSnipJson.minIndex (SrcSnipJson.orInfinity (indexOf content 123))
                       (SrcSnipJson.orInfinity (indexOf content 91)) = SrcSnipJson.Finite start ->
  start = findStart content /\ findStart content <> -1.
Proof.
  unfold SrcSnipJson.minIndex, SrcSnipJson.orInfinity, findStart.
  destruct (indexOfFrom_range 123 content 0 ltac:(lia)) as [E1|E1];
    destruct (indexOfFrom_range 91 content 0 ltac:(lia)) as [E2|E2];
    fold (indexOf content 123) in E1; fold (indexOf content 91) in E2.
  - rewrite E1, E2. discriminate.
  - rewrite E1. change (-1 >=? 0) with false. change (-1 =? -1) with true. cbv iota.
    destruct (Z.geb_spec (indexOf content 91) 0); [|lia].
    intros Hm. inversion Hm. subst. split; [reflexivity|lia].
  - rewrite E2. change (-1 >=? 0) with false. change (-1 =? -1) with true. cbv iota.
    destruct (Z.geb_spec (indexOf content 123) 0); [|lia].
    destruct (Z.eqb_spec (indexOf content 123) (-1)); [lia|].
    intros Hm. inversion Hm. subst. split; [reflexivity|lia].
  - destruct (Z.geb_spec (indexOf content 123) 0); [|lia].
    destruct (Z.geb_spec (indexOf content 91) 0); [|lia].
    destruct (Z.eqb_spec (indexOf content 123) (-1)); [lia|].
    destruct (Z.eqb_spec (indexOf content 91) (-1)); [lia|].
    intros Hm. inversion Hm. subst. split; [reflexivity|lia].
Qed.

(** The loop of [src/snipJson.js] ends at the last index of the text
    unless it returns. *)
Lemma src_scan_done (rest : jsstring) :
  forall i stack je st jsonEnd,
    SrcSnipJson.scan rest i stack je = SrcSnipJson.Done st jsonEnd ->
    rest <> [] -> jsonEnd = i + len rest - 1.
Proof.
  unfold len.
  induction rest as [|c rest' IH]; intros i stack je st jsonEnd H Hne; [congruence|].
  cbn [length]. simpl in H.
  assert (Hnext : forall stack0,
            SrcSnipJson.scan rest' (i + 1) stack0 i = SrcSnipJson.Done st jsonEnd ->
            jsonEnd = i + Z.of_nat (S (length rest')) - 1).
  { intros stack0 Hs. destruct rest' as [|d rest''].
    - simpl in Hs. inversion Hs. simpl. lia.
    - apply IH in Hs; [|discriminate]. cbn [length] in *. lia. }
  destruct (SrcSnipJson.closing c).
  - destruct (if SrcSnipJson.opening c then c :: stack else stack) as [|pair_ stack'];
      [discriminate|].
    destruct (SrcSnipJson.braces pair_); [|discriminate].
    destruct (N.eqb _ _); [|discriminate].
    eapply Hnext. exact H.
  - eapply Hnext. exact H.
Qed.

Lemma last_from (s : jsstring) (n : nat) (d : N) :
  (n < length s)%nat -> last (skipn n s) d = last s d.
Proof.
  revert s. induction n as [|n IH]; intros s Hn; [reflexivity|].
  destruct s as [|c t]; [simpl in Hn; lia|]. simpl in Hn.
  cbn [skipn]. rewrite IH by lia.
  destruct t; [simpl in Hn; lia|reflexivity].
Qed.

End SrcScanFacts.

Module SrcSuccessFacts.
Import JSFacts ScanFacts ExtractFacts ParseSpanFacts SrcScanFacts.

(** If the third parse of [src/snipJson.js] succeeds on a trimmed text,
    the first parse has succeeded on the same slice. *)
Lemma third_parse_is_first (content : jsstring) (start jsonEnd : Z) (v : Value) :
  isSpace (last content 0%N) = false ->
  findStart content <> -1 -> start = findStart content ->
  SrcSnipJson.scan (from content start) start [] (-1) = SrcSnipJson.Done [] jsonEnd ->
  JSON.parse (slice content start (jsonEnd + 1)) = Normal v ->
  slice content start (lastIndexOf content (pairText (charAt content start)) + 1)
  = slice content start (jsonEnd + 1)
  /\ start < lastIndexOf content (pairText (charAt content start)).
Proof.
  intros Hlast Hstart -> Hscan Hv.
  destruct (findStart_opening content Hstart) as (H0 & o & rest & Hfrom & Ho).
  set (start := findStart content) in *.
  assert (Hat : charAt content start = Some o).
  { rewrite TagNameFacts.charAt_from by exact H0. rewrite Hfrom. reflexivity. }
  pose proof (from_length content start H0) as Hl. rewrite Hfrom in Hl.
  unfold len in Hl at 1. cbn [length] in Hl.
  destruct (opening_pair o Ho) as (closer & Hp & Htext).
  rewrite Hat, Htext.
  apply src_scan_done in Hscan; [|rewrite Hfrom; discriminate].
  rewrite from_length in Hscan by exact H0.
  assert (Hend : jsonEnd + 1 = len content) by lia.
  rewrite Hend in *.
  assert (Hsl : slice content start (len content) = o :: rest).
  { rewrite slice_from by lia. rewrite Hfrom.
    apply firstn_all2. cbn [length]. lia. }
  rewrite Hsl in Hv.
  assert (Hlast' : isSpace (last (o :: rest) 0%N) = false).
  { rewrite <- Hfrom. unfold from. rewrite last_from; [exact Hlast|].
    unfold len in Hl. lia. }
  destruct (parse_closed o closer rest v Hp Hv Hlast') as [body Hbody].
  assert (Hcontent : content = (firstn (Z.to_nat start) content ++ o :: body) ++ [closer]).
  { rewrite <- app_assoc. cbn [app]. rewrite <- Hbody, <- Hfrom. unfold from.
    symmetry. apply firstn_skipn. }
  assert (Hidx : lastIndexOf content [closer] = len content - 1).
  { unfold lastIndexOf. rewrite Hcontent.
    rewrite JsonFeedbackFacts.lastIndexOfFrom_last by lia.
    rewrite !len_app. change (len [closer]) with 1. lia. }
  rewrite Hidx. split; [f_equal; lia|].
  inversion Hbody as [Hrest]. rewrite Hrest in Hl. rewrite length_app in Hl.
  simpl in Hl. lia.
Qed.

End SrcSuccessFacts.

Module SrcOriginFacts.

Lemma src_success_origin (s : jsstring) (r : Result) :
  SrcSnipJson.snipJson (VString s) = Normal r ->
  status r = Success ->
  let content := SrcSnipJson.sanitize s in
  exists start closer,
    SrcSnipJson.minIndex (SrcSnipJson.orInfinity (indexOf content 123))
                         (SrcSnipJson.orInfinity (indexOf content 91))
      = SrcSnipJson.Finite start /\
    pairText (charAt content start) = [closer] /\
    start < lastIndexOf content [closer] /\
    JSON.parse (slice content start (lastIndexOf content [closer] + 1))
      = Normal (data r).
Proof.
  intros Hr Hs content.
  unfold SrcSnipJson.snipJson in Hr. cbn [SrcSnipJson.sanitizeContent bind] in Hr.
  fold content in Hr. unfold SrcSnipJson.extract in Hr.
  destruct (isEmpty content); [inversion Hr; subst; discriminate|].
  destruct (SrcSnipJson.minIndex _ _) as [start|] eqn:Hmin;
    [|inversion Hr; subst; discriminate].
  destruct (SrcScanFacts.startingBrace_findStart content start Hmin) as [Hst Hstart].
  destruct (ScanFacts.findStart_opening content Hstart) as (H0 & o & rest & Hfrom & Ho).
  rewrite <- Hst in H0, Hfrom.
  assert (Hat : charAt content start = Some o).
  { rewrite TagNameFacts.charAt_from by exact H0. rewrite Hfrom. reflexivity. }
  destruct (ExtractFacts.opening_pair o Ho) as (closer & Hp & Htext).
  exists start, closer. split; [reflexivity|].
  cbn [SrcSnipJson.charAtIndex] in Hr. rewrite Hat, Htext in Hr |- *.
  split; [reflexivity|].
  destruct (_ && _)%bool eqn:Hcond; [inversion Hr; subst; discriminate|].
  destruct (SrcSnipJsonFacts.parseJson_cases
              (slice content start (lastIndexOf content [closer] + 1)))
    as [(v & Hv & H)|(m & Hm & H)]; rewrite H in Hr;
    cbn [bind SrcSnipJson.Attempt.success SrcSnipJson.Attempt.parsedData] in Hr.
  - inversion Hr; subst r. cbn [data]. split; [|exact Hv].
    (* a slice that decodes is not empty *)
    destruct (Z.ltb_spec start (lastIndexOf content [closer])) as [|Hle]; [assumption|].
    exfalso.
    assert (He : lastIndexOf content [closer] = -1).
    { unfold SrcSnipJson.leIndex in Hcond.
      destruct (Z.leb_spec (lastIndexOf content [closer]) start); [|lia].
      destruct (Z.eqb_spec (lastIndexOf content [closer]) (-1)); [assumption|discriminate]. }
    rewrite He in Hv.
    assert (Hnil : slice content start (-1 + 1) = []).
    { unfold slice, clampIndex.
      assert ((start <? 0) = false) as -> by (apply Z.ltb_ge; lia).
      change (-1 + 1 <? 0) with false. cbv iota.
      pose proof (JSFacts.len_nonneg content).
      replace (Z.to_nat (Z.min (-1 + 1) (len content) - Z.min start (len content)))
        with 0%nat by lia.
      reflexivity. }
    rewrite Hnil in Hv. vm_compute in Hv. discriminate.
  - (* the first parse has failed: Check 2 *)
    exfalso. unfold SrcSnipJson.structural in Hr.
    destruct (SrcSnipJson.scan _ _ _ _) as [je|[|last [|x more]] je] eqn:Hscan;
      try (inversion Hr; subst; discriminate).
    + destruct (SrcSnipJsonFacts.parseJson_cases (slice content start (je + 1)))
        as [(v & Hv & H3)|(m3 & Hm3 & H3)]; rewrite H3 in Hr;
        cbn [bind SrcSnipJson.Attempt.success] in Hr;
        [|inversion Hr; subst; discriminate].
      destruct (SrcSuccessFacts.third_parse_is_first content start je v) as [Heq _];
        auto.
      { apply TrimFacts.trim_last. }
      rewrite Hat, Htext in Heq. rewrite Heq in Hm. congruence.
    + destruct (SrcSnipJsonFacts.parseJson_cases
                  (slice content start (je + 1) ++ pairText (Some last)))
        as [(v & Hv & H3)|(m3 & Hm3 & H3)]; rewrite H3 in Hr;
        cbn [bind SrcSnipJson.Attempt.success] in Hr;
        inversion Hr; subst; discriminate.
Qed.


(** The value of a success of [src/snipJson.js] is an object or an
    array. *)
Lemma src_success_container (s : jsstring) (r : Result) :
  SrcSnipJson.snipJson (VString s) = Normal r ->
  status r = Success ->
  isContainer (data r) = true.
Proof.
  intros Hr Hs.
  destruct (src_success_origin s r Hr Hs) as (start & closer & Hmin & Htext & Hlt & Hv).
  destruct (SrcScanFacts.startingBrace_findStart _ start Hmin) as [Hst Hstart].
  eapply OriginFacts.decoded_container; [exact Hstart|exact Hst| |exact Hv]. lia.
Qed.

End SrcOriginFacts.

(** X18.  In [src/snipJson.js] every success comes from the first parse:
    its [data] is the decoding of the slice of the sanitized text from
    the first opening delimiter to the last occurrence of its closer.
    The loop of that file runs to the end of the text, so the candidate
    of its third parse is the text from the start index on; if that
    decodes, it ends with the closer and the first parse has decoded the
    very same slice.  The success arm of the third parse is therefore
    never taken. *)
Theorem src_success_is_simple_slice (s : jsstring) (r : Result) :
  SrcSnipJson.snipJson (VString s) = Normal r ->
  status r = Success ->
  let content := SrcSnipJson.sanitize s in
  exists start closer,
    SrcSnipJson.minIndex (SrcSnipJson.orInfinity (indexOf content 123))
                         (SrcSnipJson.orInfinity (indexOf content 91))
      = SrcSnipJson.Finite start /\
    pairText (charAt content start) = [closer] /\
    start < lastIndexOf content [closer] /\
    JSON.parse (slice content start (lastIndexOf content [closer] + 1))
      = Normal (data r).
Proof.
  intros Hr Hs content.
  destruct (SrcOriginFacts.src_success_origin s r Hr Hs)
    as (start & closer & Hmin & Htext & Hlt & Hv).
  exists start, closer. repeat split; assumption.
Qed.

Lemma src_success_is_simple_slice_witness :
  exists start closer,
    SrcSnipJson.minIndex
      (SrcSnipJson.orInfinity
         (indexOf (SrcSnipJson.sanitize (jq "so: {'a':1} ok")) 123))
      (SrcSnipJson.orInfinity
         (indexOf (SrcSnipJson.sanitize (jq "so: {'a':1} ok")) 91))
      = SrcSnipJson.Finite start /\
    pairText (charAt (SrcSnipJson.sanitize (jq "so: {'a':1} ok")) start) = [closer] /\
    start < lastIndexOf (SrcSnipJson.sanitize (jq "so: {'a':1} ok")) [closer] /\
    JSON.parse (slice (SrcSnipJson.sanitize (jq "so: {'a':1} ok")) start
                      (lastIndexOf (SrcSnipJson.sanitize (jq "so: {'a':1} ok")) [closer] + 1))
      = Normal (VObject [(js "a", VNumber (js "1"))]).
Proof.
  exact (src_success_is_simple_slice (jq "so: {'a':1} ok")
           {| status := Success;
              comments := js "JSON successfully extracted and parsed.";
              data := VObject [(js "a", VNumber (js "1"))];
              raw := VNull |}
           eq_refl eq_refl).
Defined.

Module SrcCases.
Import JSFacts ScanFacts ExtractFacts SrcScanFacts SrcSnipJsonFacts.

Lemma src_scan_mismatch (rest : jsstring) :
  forall i stack je j,
    SrcSnipJson.scan rest i stack je = SrcSnipJson.Mismatch j ->
    i <= j < i + len rest.
Proof.
  unfold len.
  induction rest as [|c rest' IH]; intros i stack je j H; [discriminate|].
  cbn [length]. simpl in H.
  assert (Hnext : forall st, SrcSnipJson.scan rest' (i + 1) st i = SrcSnipJson.Mismatch j ->
                             i <= j < i + Z.of_nat (S (length rest'))).
  { intros st Hs. apply IH in Hs. lia. }
  destruct (SrcSnipJson.closing c); [|eapply Hnext; exact H].
  destruct (if SrcSnipJson.opening c then c :: stack else stack) as [|pair_ stack'].
  { inversion H; subst. lia. }
  destruct (SrcSnipJson.braces pair_); [|inversion H; subst; lia].
  destruct (N.eqb _ _); [eapply Hnext; exact H|inversion H; subst; lia].
Qed.

Lemma src_scan_stack (rest : jsstring) :
  forall i stack je st jsonEnd,
    Forall (fun c => OPENING c = true) stack ->
    SrcSnipJson.scan rest i stack je = SrcSnipJson.Done st jsonEnd ->
    Forall (fun c => OPENING c = true) st.
Proof.
  induction rest as [|c rest' IH]; intros i stack je st jsonEnd Hall H.
  { simpl in H. inversion H; subst. exact Hall. }
  simpl in H. unfold SrcSnipJson.opening in H.
  assert (Hall' : Forall (fun c => OPENING c = true)
                         (if OPENING c then c :: stack else stack)).
  { destruct (OPENING c) eqn:Ho; [constructor; assumption|exact Hall]. }
  destruct (SrcSnipJson.closing c); [|eapply IH; eassumption].
  destruct (if OPENING c then c :: stack else stack) as [|pair_ stack'];
    [discriminate|].
  destruct (SrcSnipJson.braces pair_); [|discriminate].
  destruct (N.eqb _ _); [|discriminate].
  inversion Hall'; subst. eapply IH; eassumption.
Qed.

(** Check 2 of [src/snipJson.js] over a trimmed text on which the first
    parse has failed. *)
Lemma src_structural_cases (content : jsstring) (start : Z) (o closer : N)
      (rest : jsstring) (m : jsstring) :
  isSpace (last content 0%N) = false ->
  findStart content <> -1 -> start = findStart content ->
  from content start = o :: rest -> OPENING o = true ->
  pairText (Some o) = [closer] ->
  JSON.parse (slice content start (lastIndexOf content [closer] + 1))
    = Throw (SyntaxError m) ->
  exists r, SrcSnipJson.structural content start = Normal r /\
            srcExtraction content start r.
Proof.
  intros Hlast Hstart Hst Hfrom Ho Htext Hfirst.
  assert (H0 : 0 <= start).
  { destruct (findStart_opening content Hstart) as [H0 _]. lia. }
  assert (Hat : charAt content start = Some o).
  { rewrite TagNameFacts.charAt_from by exact H0. rewrite Hfrom. reflexivity. }
  pose proof (from_length content start H0) as Hl. rewrite Hfrom in Hl.
  unfold len in Hl at 1. cbn [length] in Hl.
  unfold SrcSnipJson.structural, srcExtraction.
  destruct (SrcSnipJson.scan (from content start) start [] (-1))
    as [je|st je] eqn:Hscan.
  - eexists; split; [reflexivity|]. do 4 right. left. exists je. split; [|reflexivity].
    rewrite Hfrom in Hscan. simpl in Hscan.
    unfold SrcSnipJson.opening, SrcSnipJson.closing in Hscan. rewrite Ho in Hscan.
    assert (Hc : CLOSING o = false).
    { unfold OPENING, CLOSING in *. apply orb_true_iff in Ho.
      rewrite !N.eqb_eq in Ho. destruct Ho as [->| ->]; reflexivity. }
    rewrite Hc in Hscan. apply src_scan_mismatch in Hscan. unfold len in Hscan. lia.
  - pose proof (src_scan_stack _ _ _ _ _ _ (Forall_nil _) Hscan) as Hall.
    pose proof (src_scan_done _ _ _ _ _ _ Hscan ltac:(rewrite Hfrom; discriminate)) as Hje.
    rewrite from_length in Hje by exact H0.
    assert (Hend : je + 1 = len content) by lia.
    rewrite Hend. fold (sliceFrom content start).
    destruct st as [|last [|x more]].
    + destruct (parseJson_cases (sliceFrom content start))
        as [(v & Hv & H)|(m3 & Hm3 & H)]; rewrite H;
        cbn [bind SrcSnipJson.Attempt.success].
      * exfalso.
        destruct (SrcSuccessFacts.third_parse_is_first content start je v) as [Heq _];
          auto.
        { rewrite Hend. exact Hv. }
        rewrite Hat, Htext, Hend in Heq. fold (sliceFrom content start) in Heq.
        rewrite Heq in Hfirst. congruence.
      * eexists; split; [reflexivity|]. right; left. exists m3. split; [exact Hm3|].
        reflexivity.
    + pose proof (Forall_inv Hall) as Hlo. cbv beta in Hlo.
      destruct (opening_pair last Hlo) as (cl & Hp & Hpt). rewrite Hpt.
      destruct (parseJson_cases (sliceFrom content start ++ [cl]))
        as [(v & Hv & H)|(m3 & Hm3 & H)]; rewrite H;
        cbn [bind SrcSnipJson.Attempt.success SrcSnipJson.Attempt.parsedData];
        (eexists; split; [reflexivity|]).
      * do 2 right; left. exists last, cl, v. auto.
      * do 3 right; left. exists last, cl, m3. auto.
    + eexists; split; [reflexivity|]. do 5 right. reflexivity.
Qed.

(** [src/snipJson.js] on a string: the input check, the dismissal of
    the candidate, or Checks 1 and 2. *)
Lemma src_snipJson_cases (s : jsstring) :
  let content := SrcSnipJson.sanitize s in
  (content = [] /\
   SrcSnipJson.snipJson (VString s) =
     Normal (failWith (js "Invalid input: content must be a string.") VNull))
  \/
  (content <> [] /\
   (findStart content = -1 \/
    exists closer,
      pairText (charAt content (findStart content)) = [closer] /\
      lastIndexOf content [closer] <> -1 /\
      lastIndexOf content [closer] <= findStart content) /\
   SrcSnipJson.snipJson (VString s) =
     Normal (failWith (js "No valid JSON structure found.") VNull))
  \/
  (content <> [] /\ findStart content <> -1 /\
   (forall closer,
      pairText (charAt content (findStart content)) = [closer] ->
      lastIndexOf content [closer] = -1 \/
      findStart content < lastIndexOf content [closer]) /\
   exists r, SrcSnipJson.snipJson (VString s) = Normal r /\
             srcExtraction content (findStart content) r).
Proof.
  intros content.
  unfold SrcSnipJson.snipJson. cbn [SrcSnipJson.sanitizeContent bind]. fold content.
  unfold SrcSnipJson.extract.
  destruct content as [|c0 t0] eqn:Ec; [left; split; reflexivity|right].
  rewrite <- Ec. cbn [isEmpty].
  assert (Hne : content <> []) by (rewrite Ec; discriminate).
  replace (isEmpty content) with false by (rewrite Ec; reflexivity).
  destruct (SrcSnipJson.minIndex _ _) as [start|] eqn:Hmin.
  2: { left. split; [exact Hne|]. split; [|reflexivity]. left.
       unfold SrcSnipJson.minIndex, SrcSnipJson.orInfinity, findStart in *.
       destruct (indexOfFrom_range 123 content 0 ltac:(lia)) as [E1|E1];
         destruct (indexOfFrom_range 91 content 0 ltac:(lia)) as [E2|E2];
         fold (indexOf content 123) in E1; fold (indexOf content 91) in E2.
       - rewrite E1, E2. reflexivity.
       - destruct (Z.geb_spec (indexOf content 91) 0); [|lia].
         destruct (indexOf content 123 >=? 0); discriminate.
       - destruct (Z.geb_spec (indexOf content 123) 0); [|lia].
         destruct (indexOf content 91 >=? 0); discriminate.
       - destruct (Z.geb_spec (indexOf content 123) 0); [|lia].
         destruct (indexOf content 91 >=? 0); discriminate. }
  destruct (startingBrace_findStart content start Hmin) as [Hst Hstart].
  destruct (findStart_opening content Hstart) as (H0 & o & rest & Hfrom & Ho).
  rewrite <- Hst in *.
  assert (Hat : charAt content start = Some o).
  { rewrite TagNameFacts.charAt_from by exact H0. rewrite Hfrom. reflexivity. }
  destruct (opening_pair o Ho) as (closer & Hp & Htext).
  cbn [SrcSnipJson.charAtIndex]. rewrite Hat, Htext.
  destruct (_ && _)%bool eqn:Hcond.
  { left. split; [exact Hne|]. split; [|reflexivity]. right.
    exists closer. apply andb_true_iff in Hcond as [Hle Hn].
    unfold SrcSnipJson.leIndex in Hle. apply Z.leb_le in Hle.
    apply negb_true_iff, Z.eqb_neq in Hn. auto. }
  right. split; [exact Hne|]. split; [exact Hstart|].
  split.
  { intros closer' Hc'. inversion Hc'; subst closer'.
    unfold SrcSnipJson.leIndex in Hcond.
    destruct (Z.leb_spec (lastIndexOf content [closer]) start); [|right; lia].
    destruct (Z.eqb_spec (lastIndexOf content [closer]) (-1)); [left; assumption|].
    discriminate. }
  destruct (parseJson_cases (slice content start (lastIndexOf content [closer] + 1)))
    as [(v & Hv & H)|(m & Hm & H)]; rewrite H;
    cbn [bind SrcSnipJson.Attempt.success SrcSnipJson.Attempt.parsedData].
  - eexists; split; [reflexivity|]. left. exists closer, v.
    split; [rewrite Hat; exact Htext|]. split; [|split; [exact Hv|reflexivity]].
    destruct (Z.ltb_spec start (lastIndexOf content [closer])) as [|Hle]; [assumption|].
    exfalso.
    assert (He : lastIndexOf content [closer] = -1).
    { unfold SrcSnipJson.leIndex in Hcond.
      destruct (Z.leb_spec (lastIndexOf content [closer]) start); [|lia].
      destruct (Z.eqb_spec (lastIndexOf content [closer]) (-1)); [assumption|discriminate]. }
    rewrite He in Hv.
    assert (Hnil : slice content start (-1 + 1) = []).
    { unfold slice, clampIndex.
      assert ((start <? 0) = false) as -> by (apply Z.ltb_ge; lia).
      change (-1 + 1 <? 0) with false. cbv iota.
      pose proof (len_nonneg content).
      replace (Z.to_nat (Z.min (-1 + 1) (len content) - Z.min start (len content)))
        with 0%nat by lia.
      reflexivity. }
    rewrite Hnil in Hv. vm_compute in Hv. discriminate.
  - apply (src_structural_cases content start o closer rest m); auto.
    + unfold content. apply TrimFacts.trim_last.
    + rewrite <- Hst. exact Hstart.
Qed.

End SrcCases.

Module SrcSlowPath.
Import JSFacts ScanFacts SrcScanFacts.

(** The start index of [src/snipJson.js], in terms of that of the other
    revision. *)
Lemma startingBrace_cases (content : jsstring) :
  SrcSnipJson.minIndex (SrcSnipJson.orInfinity (indexOf content 123))
                       (SrcSnipJson.orInfinity (indexOf content 91))
  = if findStart content =? -1 then SrcSnipJson.Infinity
    else SrcSnipJson.Finite (findStart content).
Proof.
  destruct (SrcSnipJson.minIndex _ _) as [start|] eqn:Hmin.
  - destruct (startingBrace_findStart content start Hmin) as [-> Hne].
    destruct (Z.eqb_spec (findStart content) (-1)); [contradiction|reflexivity].
  - unfold SrcSnipJson.minIndex, SrcSnipJson.orInfinity, findStart in *.
    destruct (indexOfFrom_range 123 content 0 ltac:(lia)) as [E1|E1];
      destruct (indexOfFrom_range 91 content 0 ltac:(lia)) as [E2|E2];
      fold (indexOf content 123) in E1; fold (indexOf content 91) in E2.
    + rewrite E1, E2. reflexivity.
    + destruct (Z.geb_spec (indexOf content 91) 0); [|lia].
      destruct (indexOf content 123 >=? 0); discriminate.
    + destruct (Z.geb_spec (indexOf content 123) 0); [|lia].
      destruct (indexOf content 91 >=? 0); discriminate.
    + destruct (Z.geb_spec (indexOf content 123) 0); [|lia].
      destruct (indexOf content 91 >=? 0); discriminate.
Qed.

(** [src/snipJson.js] reaches Check 2 on a text whose sanitized form has
    a start index, whose candidate is not dismissed and whose first
    parse fails. *)
Lemma src_slow_path (s : jsstring) (err : Error) :
  findStart (SrcSnipJson.sanitize s) <> -1 ->
  dismissed (SrcSnipJson.sanitize s) (findStart (SrcSnipJson.sanitize s)) = false ->
  JSON.parse (firstSlice (SrcSnipJson.sanitize s) (findStart (SrcSnipJson.sanitize s)))
    = Throw err ->
  SrcSnipJson.snipJson (VString s) =
    SrcSnipJson.structural (SrcSnipJson.sanitize s) (findStart (SrcSnipJson.sanitize s)).
Proof.
  intros Hstart Hd Hparse.
  unfold SrcSnipJson.snipJson. cbn [SrcSnipJson.sanitizeContent bind].
  set (content := SrcSnipJson.sanitize s) in *.
  unfold SrcSnipJson.extract.
  destruct content as [|c0 t0] eqn:Ec; [exfalso; apply Hstart; reflexivity|].
  rewrite <- Ec in *. replace (isEmpty content) with false by (rewrite Ec; reflexivity).
  rewrite startingBrace_cases.
  assert ((findStart content =? -1) = false) as -> by (apply Z.eqb_neq; exact Hstart).
  cbn [SrcSnipJson.charAtIndex SrcSnipJson.leIndex].
  unfold dismissed, endingBrace in Hd. rewrite Hd.
  unfold firstSlice, endingBrace in Hparse.
  unfold SrcSnipJson.parseJson. rewrite Hparse. reflexivity.
Qed.

End SrcSlowPath.

(** C3, amended.  The end of the text with delimiters left open, in
    both revisions, once the earlier steps have not returned.  With
    exactly one delimiter open, the engine decodes the text from the
    start index on followed by the closer of that delimiter: a decoded
    value gives [Check] with that value as data and no raw, a decoding
    error gives [Fail] with no data and the repaired text as raw.  With
    more than one it attempts no repair and returns [Fail] with no data
    and the text from the start index on as raw; the comment is
    "Unbalanced JSON structure." in the revision without a file name and
    "Bracket mismatch" in [src/snipJson.js], whose loop has then visited
    the whole text. *)
Theorem unresolved_end_in_both_revisions (s : jsstring) :
  (forall open_,
     let content := sanitize s in
     let start := findStart content in
     start <> -1 ->
     fastPath content start = Normal None ->
     scan (from content start) start [] = Unclosed open_ ->
     match open_ with
     | [] => False
     | [last] =>
         exists closer,
           PAIRS last = Some closer /\
           let repaired := sliceFrom content start ++ [closer] in
           (forall v, JSON.parse repaired = Normal v ->
              snipJson (VString s) =
                Normal {| status := Check;
                          comments := js "One missing closing bracket auto-added. Please verify.";
                          data := v; raw := VNull |}) /\
           (forall err, JSON.parse repaired = Throw err ->
              snipJson (VString s) =
                Normal {| status := Fail;
                          comments := js "Auto-closure attempted but parsing failed: "
                                      ++ message err;
                          data := VNull; raw := VString repaired |})
     | _ :: _ :: _ =>
         snipJson (VString s) =
           Normal {| status := Fail;
                     comments := js "Unbalanced JSON structure.";
                     data := VNull;
                     raw := VString (sliceFrom content start) |}
     end)
  /\
  (forall open_ jsonEnd err0,
     let content := SrcSnipJson.sanitize s in
     let start := findStart content in
     start <> -1 ->
     dismissed content start = false ->
     JSON.parse (firstSlice content start) = Throw err0 ->
     SrcSnipJson.scan (from content start) start [] (-1) = SrcSnipJson.Done open_ jsonEnd ->
     open_ <> [] ->
     jsonEnd + 1 = len content /\
     match open_ with
     | [] => False
     | [last] =>
         exists closer,
           PAIRS last = Some closer /\
           let repaired := sliceFrom content start ++ [closer] in
           (forall v, JSON.parse repaired = Normal v ->
              SrcSnipJson.snipJson (VString s) =
                Normal {| status := Check;
                          comments := js "Added missing closing brace. Parsing passed";
                          data := v; raw := VNull |}) /\
           (forall err, JSON.parse repaired = Throw err ->
              SrcSnipJson.snipJson (VString s) =
                Normal {| status := Fail;
                          comments := js "Added missing closing brace. But parsing failed. Error: "
                                      ++ message err;
                          data := VNull; raw := VString repaired |})
     | _ :: _ :: _ =>
         SrcSnipJson.snipJson (VString s) =
           Normal {| status := Fail;
                     comments := js "Bracket mismatch";
                     data := VNull;
                     raw := VString (sliceFrom content start) |}
     end).
Proof.
  split.
  - intros open_ content start Hstart Hfast Hscan.
    pose proof (snipJson_slow_path s Hstart Hfast) as Hslow.
    fold content in Hslow. fold start in Hslow.
    destruct (ScanFacts.findStart_opening content Hstart) as (H0 & c & rest & Hc & Ho).
    fold start in Hc, H0.
    assert (Hopen : open_ <> [] /\ Forall (fun c => OPENING c = true) open_).
    { rewrite Hc in Hscan. simpl in Hscan. rewrite Ho in Hscan.
      eapply ScanFacts.scan_unclosed; [|repeat constructor; exact Ho|exact Hscan].
      discriminate. }
    destruct Hopen as [Hne Hall].
    unfold structural in Hslow. rewrite Hscan in Hslow.
    destruct open_ as [|last [|x more]]; [congruence| |exact Hslow].
    pose proof (Forall_inv Hall) as Hlast. cbv beta in Hlast.
    destruct (ExtractFacts.opening_pair last Hlast) as (closer & Hp & Htext).
    exists closer. split; [exact Hp|].
    rewrite Htext in Hslow. cbv zeta. split.
    + intros v Hv. rewrite Hslow. unfold parseJsonSafely. rewrite Hv. reflexivity.
    + intros err He. rewrite Hslow. unfold parseJsonSafely. rewrite He. reflexivity.
  - intros open_ jsonEnd err0 content start Hstart Hd Hfirst Hscan Hne.
    pose proof (SrcSlowPath.src_slow_path s err0 Hstart Hd Hfirst) as Hslow.
    fold content in Hslow. fold start in Hslow.
    destruct (ScanFacts.findStart_opening content Hstart) as (H0 & c & rest & Hc & Ho).
    fold start in Hc, H0.
    pose proof (SrcCases.src_scan_stack _ _ _ _ _ _ (Forall_nil _) Hscan) as Hall.
    pose proof (SrcScanFacts.src_scan_done _ _ _ _ _ _ Hscan
                  ltac:(rewrite Hc; discriminate)) as Hje.
    rewrite JSFacts.from_length in Hje by exact H0.
    pose proof (JSFacts.from_length content start H0) as Hl. rewrite Hc in Hl.
    unfold len in Hl at 1. cbn [length] in Hl.
    assert (Hend : jsonEnd + 1 = len content) by lia.
    split; [exact Hend|].
    unfold SrcSnipJson.structural in Hslow. rewrite Hscan, Hend in Hslow.
    fold (sliceFrom content start) in Hslow.
    destruct open_ as [|last [|x more]]; [congruence| |exact Hslow].
    pose proof (Forall_inv Hall) as Hlast. cbv beta in Hlast.
    destruct (ExtractFacts.opening_pair last Hlast) as (closer & Hp & Htext).
    exists closer. split; [exact Hp|].
    rewrite Htext in Hslow. cbv zeta. split.
    + intros v Hv. rewrite Hslow. unfold SrcSnipJson.parseJson. rewrite Hv. reflexivity.
    + intros err He. rewrite Hslow. unfold SrcSnipJson.parseJson. rewrite He.
      reflexivity.
Qed.

(** One bracket left open, with a repair that decodes and one that
    does not, and two brackets left open. *)
Lemma unresolved_end_in_both_revisions_witness :
  (snipJson (VString (js "[1,2")) =
     Normal {| status := Check;
               comments := js "One missing closing bracket auto-added. Please verify.";
               data := VArray [VNumber (js "1"); VNumber (js "2")]; raw := VNull |}
   /\ SrcSnipJson.snipJson (VString (js "[1,2")) =
        Normal {| status := Check;
                  comments := js "Added missing closing brace. Parsing passed";
                  data := VArray [VNumber (js "1"); VNumber (js "2")]; raw := VNull |})
  /\ (exists m,
        snipJson (VString (js "[1,")) =
          Normal {| status := Fail;
                    comments := js "Auto-closure attempted but parsing failed: " ++ m;
                    data := VNull; raw := VString (js "[1,]") |}
        /\ SrcSnipJson.snipJson (VString (js "[1,")) =
             Normal {| status := Fail;
                       comments := js "Added missing closing brace. But parsing failed. Error: " ++ m;
                       data := VNull; raw := VString (js "[1,]") |})
  /\ (snipJson (VString (js "[[1,2")) =
        Normal {| status := Fail; comments := js "Unbalanced JSON structure.";
                  data := VNull; raw := VString (js "[[1,2") |}
      /\ SrcSnipJson.snipJson (VString (js "[[1,2")) =
           Normal {| status := Fail; comments := js "Bracket mismatch";
                     data := VNull; raw := VString (js "[[1,2") |}).
Proof.
  split; [|split].
  - destruct (unresolved_end_in_both_revisions (js "[1,2")) as [Hnew Hsrc]. split.
    + destruct (Hnew [91%N] ltac:(vm_compute; discriminate) eq_refl eq_refl)
        as (closer & Hp & Hok & _).
      inversion Hp; subst closer. apply Hok. reflexivity.
    + destruct (Hsrc [91%N] 3 (SyntaxError JSON.unexpectedEnd)
                  ltac:(vm_compute; discriminate) eq_refl eq_refl eq_refl
                  ltac:(discriminate))
        as (_ & closer & Hp & Hok & _).
      inversion Hp; subst closer. apply Hok. reflexivity.
  - destruct (unresolved_end_in_both_revisions (js "[1,")) as [Hnew Hsrc].
    exists JSON.unexpectedToken. split.
    + destruct (Hnew [91%N] ltac:(vm_compute; discriminate) eq_refl eq_refl)
        as (closer & Hp & _ & Hbad).
      inversion Hp; subst closer.
      apply (Hbad (SyntaxError JSON.unexpectedToken)). reflexivity.
    + destruct (Hsrc [91%N] 2 (SyntaxError JSON.unexpectedEnd)
                  ltac:(vm_compute; discriminate) eq_refl eq_refl eq_refl
                  ltac:(discriminate))
        as (_ & closer & Hp & _ & Hbad).
      inversion Hp; subst closer.
      apply (Hbad (SyntaxError JSON.unexpectedToken)). reflexivity.
  - destruct (unresolved_end_in_both_revisions (js "[[1,2")) as [Hnew Hsrc]. split.
    + exact (Hnew [91%N; 91%N] ltac:(vm_compute; discriminate) eq_refl eq_refl).
    + exact (proj2 (Hsrc [91%N; 91%N] 4 (SyntaxError JSON.unexpectedEnd)
                      ltac:(vm_compute; discriminate) eq_refl eq_refl eq_refl
                      ltac:(discriminate))).
Defined.

(** X23.  The outcomes of [snipJson] in [src/snipJson.js] on a string.
    It returns, and what it returns is a success with [data] and the
    comment "JSON successfully extracted and parsed."; a [Check] with
    [data] and the comment of the repair; a [Check] without [data], with
    [raw] and a comment that starts "Extracted candidate JSON passed
    bracket validation"; a failure with neither [data] nor [raw], from
    the input check or the dismissal of the candidate; or a failure with
    [raw], whose comment is "Bracket mismatch" (for a mismatch and for
    several delimiters left open alike) or that of a repair that does
    not decode. *)
Theorem src_outcome_table (s : jsstring) :
  exists r,
    SrcSnipJson.snipJson (VString s) = Normal r /\
    ((status r = Success /\ populated (data r) = true /\ raw r = VNull
      /\ comments r = js "JSON successfully extracted and parsed.")
     \/
     (status r = Check /\ populated (data r) = true /\ raw r = VNull
      /\ comments r = js "Added missing closing brace. Parsing passed")
     \/
     (status r = Check /\ data r = VNull /\ (exists t, raw r = VString t)
      /\ exists m, comments r =
                   js "Extracted candidate JSON passed bracket validation but failed to parse. Check result.raw. Error : " ++ m)
     \/
     (status r = Fail /\ data r = VNull /\ raw r = VNull
      /\ (comments r = js "Invalid input: content must be a string."
          \/ comments r = js "No valid JSON structure found."))
     \/
     (status r = Fail /\ data r = VNull /\ (exists t, raw r = VString t)
      /\ (comments r = js "Bracket mismatch"
          \/ exists m, comments r =
                       js "Added missing closing brace. But parsing failed. Error: " ++ m))).
Proof.
  assert (Hcont : forall v, isContainer v = true -> populated v = true)
    by (intros [] Hv; try discriminate; reflexivity).
  destruct (SrcCases.src_snipJson_cases s)
    as [[_ H]|[(_ & _ & H)|(_ & Hstart & _ & r & H & Hx)]]; rewrite H;
    (eexists; split; [reflexivity|]);
    try solve [do 3 right; left; simpl; auto 10].
  destruct Hx as [(closer & v & Htext & Hlt & Hv & ->)|[(m & Hm & ->)|
                 [(last & closer & v & Hp & Hv & ->)|
                 [(last & closer & m & Hp & Hm & ->)|[(i & Hi & ->)| ->]]]]];
    cbn [data raw status comments failWith initialResult].
  - left. repeat split.
    apply Hcont.
    apply (OriginFacts.decoded_container (SrcSnipJson.sanitize s)
             (findStart (SrcSnipJson.sanitize s))
             (lastIndexOf (SrcSnipJson.sanitize s) [closer] + 1) v Hstart eq_refl);
      [lia|exact Hv].
  - right; right; left. repeat split; eauto.
  - right; left. repeat split. apply Hcont.
    destruct (ScanFacts.findStart_opening _ Hstart) as (H0 & o & rest & Hfrom & Ho).
    assert (Hat : charAt (SrcSnipJson.sanitize s) (findStart (SrcSnipJson.sanitize s))
                  = Some o).
    { rewrite TagNameFacts.charAt_from by exact H0. rewrite Hfrom. reflexivity. }
    eapply OriginFacts.repaired_container; eauto.
  - do 4 right. repeat split; eauto.
  - do 4 right. repeat split; eauto.
  - do 4 right. repeat split; eauto.
Qed.

(** X24.  The two early returns of [src/snipJson.js] on a string.  The
    start index it computes with [Math.min] and [Infinity] is the one of
    the other revision.  It answers "Invalid input: content must be a
    string." exactly when the sanitized text is empty (a string of white
    space or a bare code fence), and "No valid JSON structure found."
    exactly when the sanitized text is not empty and either has no
    opening delimiter or has the last occurrence of the closer of its
    first opening delimiter before that delimiter. *)
Theorem src_early_returns (s : jsstring) :
  let content := SrcSnipJson.sanitize s in
  SrcSnipJson.minIndex (SrcSnipJson.orInfinity (indexOf content 123))
                       (SrcSnipJson.orInfinity (indexOf content 91))
    = (if findStart content =? -1 then SrcSnipJson.Infinity
       else SrcSnipJson.Finite (findStart content))
  /\ exists r,
       SrcSnipJson.snipJson (VString s) = Normal r /\
       (comments r = js "Invalid input: content must be a string." <-> content = []) /\
       (comments r = js "No valid JSON structure found." <->
          content <> [] /\
          (findStart content = -1 \/
           exists closer,
             pairText (charAt content (findStart content)) = [closer] /\
             lastIndexOf content [closer] <> -1 /\
             lastIndexOf content [closer] <= findStart content)).
Proof.
  intros content. split.
  { destruct (SrcSnipJson.minIndex _ _) as [start|] eqn:Hmin.
    - destruct (SrcScanFacts.startingBrace_findStart content start Hmin) as [-> Hne].
      destruct (Z.eqb_spec (findStart content) (-1)); [contradiction|reflexivity].
    - unfold SrcSnipJson.minIndex, SrcSnipJson.orInfinity, findStart in *.
      destruct (ScanFacts.indexOfFrom_range 123 content 0 ltac:(lia)) as [E1|E1];
        destruct (ScanFacts.indexOfFrom_range 91 content 0 ltac:(lia)) as [E2|E2];
        fold (indexOf content 123) in E1; fold (indexOf content 91) in E2.
      + rewrite E1, E2. reflexivity.
      + destruct (Z.geb_spec (indexOf content 91) 0); [|lia].
        destruct (indexOf content 123 >=? 0); discriminate.
      + destruct (Z.geb_spec (indexOf content 123) 0); [|lia].
        destruct (indexOf content 91 >=? 0); discriminate.
      + destruct (Z.geb_spec (indexOf content 123) 0); [|lia].
        destruct (indexOf content 91 >=? 0); discriminate. }
  destruct (SrcCases.src_snipJson_cases s)
    as [[Hc H]|[(Hc & Hwhy & H)|(Hc & Hstart & Hkept & r & H & Hx)]];
    cbv zeta in *; fold content in Hc; try fold content in Hwhy;
    try fold content in Hstart, Hkept, Hx.
  - rewrite H. eexists; split; [reflexivity|]. simpl. split; split; auto.
    + discriminate.
    + intros [Hne _]. contradiction.
  - rewrite H. eexists; split; [reflexivity|]. simpl. split; split; auto.
    + discriminate.
    + intros E. contradiction.
  - exists r. split; [exact H|].
    assert (Hnot : ~ (findStart content = -1 \/
                      exists closer,
                        pairText (charAt content (findStart content)) = [closer] /\
                        lastIndexOf content [closer] <> -1 /\
                        lastIndexOf content [closer] <= findStart content)).
    { intros [E|(closer & Ht & Hn & Hle)]; [contradiction|].
      destruct (Hkept closer Ht); [contradiction|lia]. }
    destruct Hx as [(closer & v & Htext & Hlt & Hv & ->)|[(m & Hm & ->)|
                   [(last & closer & v & Hp & Hv & ->)|
                   [(last & closer & m & Hp & Hm & ->)|[(i & Hi & ->)| ->]]]]];
      cbn [data raw status comments failWith initialResult];
      (split; split; [discriminate|intros E; contradiction
                     |discriminate|intros [_ E]; contradiction]).
Qed.

(** X25.  On a string that both revisions sanitize to the same text,
    every success of [src/snipJson.js] is returned by the other revision
    as well, through its fast path, as the same result. *)
Theorem revisions_agree_on_success (s : jsstring) (r : Result) :
  SnipJson.sanitize s = SrcSnipJson.sanitize s ->
  SrcSnipJson.snipJson (VString s) = Normal r ->
  status r = Success ->
  SnipJson.snipJson (VString s) = Normal r.
Proof.
  intros Hsan Hr Hs.
  destruct (SrcOriginFacts.src_success_origin s r Hr Hs)
    as (start & closer & Hmin & Htext & Hlt & Hv).
  destruct (SrcScanFacts.startingBrace_findStart _ start Hmin) as [Hst Hstart].
  rewrite <- Hsan in *.
  (* the result of the shipped revision *)
  assert (Hres : r = {| status := Success;
                        comments := js "JSON successfully extracted and parsed.";
                        data := data r; raw := VNull |}).
  { destruct (SrcCases.src_snipJson_cases s)
      as [[_ H]|[(_ & _ & H)|(_ & _ & _ & r' & H & Hx)]];
      rewrite H in Hr; inversion Hr; subst; try discriminate.
    destruct Hx as [(c' & v' & _ & _ & _ & ->)|[(m & _ & ->)|
                   [(l & c' & v' & _ & _ & ->)|
                   [(l & c' & m & _ & _ & ->)|[(i & _ & ->)| ->]]]]];
      try discriminate. reflexivity. }
  (* the fast path of the other revision *)
  unfold SnipJson.snipJson.
  destruct s as [|c0 t0].
  { vm_compute in Hr. inversion Hr; subst; discriminate. }
  cbn [isEmpty sanitizeContent bind]. unfold extract.
  rewrite <- Hst.
  assert ((start =? -1) = false) as -> by (apply Z.eqb_neq; lia).
  unfold fastPath. rewrite Htext.
  assert ((lastIndexOf (sanitize (c0 :: t0)) [closer] >? start) = true) as ->
      by (apply Z.gtb_lt; lia).
  unfold parseJsonSafely. rewrite Hv. cbn [bind Attempt.success Attempt.data].
  rewrite Hres at 2. reflexivity.
Qed.

Lemma revisions_agree_on_success_witness :
  SnipJson.snipJson (VString (jq "so: {'a':1} ok")) =
    Normal {| status := Success;
              comments := js "JSON successfully extracted and parsed.";
              data := VObject [(js "a", VNumber (js "1"))];
              raw := VNull |}.
Proof.
  exact (revisions_agree_on_success (jq "so: {'a':1} ok")
           {| status := Success;
              comments := js "JSON successfully extracted and parsed.";
              data := VObject [(js "a", VNumber (js "1"))];
              raw := VNull |}
           eq_refl eq_refl eq_refl).
Defined.


(* ===================================================================== *)
(** * Further properties of the dispatcher                              *)
(* ===================================================================== *)

(** X20.  The outcomes of [snipSmartOrThrow].  It returns exactly when
    [snipSmart] returns a success, and then it returns its [data], which
    is an object, an array, or a string that begins with [<]; never
    [null].  On every other result, a [Check] that carries [data]
    included, it throws a [SnipSmartError] that holds the result and
    whose message is the non-empty comment of the result.  The only
    other error is the [TypeError] of [src/snipJson.js] on a content
    that is not a string under the format "json". *)
Theorem or_throw_outcomes (content : Value) (options : Index.OptionsArg) :
  match Index.snipSmartOrThrow content options with
  | Normal v =>
      (exists r, Index.snipSmart content options = Normal r /\
                 status r = Success /\ v = data r)
      /\ (isContainer v = true \/ exists tl, v = VString (60%N :: tl))
  | Throw (SnipSmartError m r) =>
      Index.snipSmart content options = Normal r /\
      status r <> Success /\ m = comments r /\ m <> []
  | Throw (TypeError _) =>
      (forall s, content <> VString s) /\ Index.formatOf options = js "json"
  | Throw (SyntaxError _) => False
  | Diverge => False
  end.
Proof.
  assert (Hfinal : forall r : Result,
            Index.snipSmart content options = Normal r ->
            (status r <> Success -> comments r <> []) ->
            (status r = Success ->
             isContainer (data r) = true \/ exists tl, data r = VString (60%N :: tl)) ->
            match Index.snipSmartOrThrow content options with
            | Normal v =>
                (exists r, Index.snipSmart content options = Normal r /\
                           status r = Success /\ v = data r)
                /\ (isContainer v = true \/ exists tl, v = VString (60%N :: tl))
            | Throw (SnipSmartError m r) =>
                Index.snipSmart content options = Normal r /\
                status r <> Success /\ m = comments r /\ m <> []
            | Throw (TypeError _) =>
                (forall s, content <> VString s) /\ Index.formatOf options = js "json"
            | Throw (SyntaxError _) => False
            | Diverge => False
            end).
  { intros r Hr Hexp Hdata. unfold Index.snipSmartOrThrow. rewrite Hr. cbn [bind].
    destruct (status r) eqn:Est.
    - split; [exists r; auto|]. apply Hdata. reflexivity.
    - split; [reflexivity|]. split; [rewrite Est; discriminate|].
      split; [reflexivity|]. apply Hexp. discriminate.
    - split; [reflexivity|]. split; [rewrite Est; discriminate|].
      split; [reflexivity|]. apply Hexp. discriminate. }
  unfold Index.snipSmart, Index.dispatch in *.
  destruct (jsstring_eqb (Index.formatOf options) (js "json")) eqn:Ejson.
  - (* the JSON engine *)
    assert (Hfmt : Index.formatOf options = js "json").
    { unfold jsstring_eqb in Ejson.
      destruct (list_eq_dec N.eq_dec _ _); [assumption|discriminate]. }
    destruct content as [| |b|lit|s|items|props];
      try (unfold Index.snipSmartOrThrow, Index.snipSmart, Index.dispatch;
           rewrite Ejson; cbn; split; [discriminate|exact Hfmt]).
    destruct (SrcSnipJsonFacts.src_snipJson_returns_on_strings s) as (r & Hr & Hres).
    apply (Hfinal r Hr).
    + apply Hres.
    + intros Hs. left. eapply SrcOriginFacts.src_success_container; eassumption.
  - destruct (jsstring_eqb (Index.formatOf options) (js "tag")) eqn:Etag.
    + (* the tag engine *)
      destruct (SnipByTagFacts.snipByTag_returns content None) as (r & Hr & Hres).
      apply (Hfinal r Hr).
      * apply Hres.
      * intros Hs. right.
        destruct content as [| |b|lit|s|items|props];
          try (inversion Hr; subst; discriminate).
        destruct s as [|c0 s0]; [inversion Hr; subst; discriminate|].
        destruct (TagResultFacts.snipByTag_finish (c0 :: s0) None ltac:(discriminate))
          as [Hfin _].
        rewrite Hfin in Hr.
        pose proof (TagResultFacts.snipByTag_outcome (c0 :: s0) None) as Hout.
        destruct (TagRun.tagRun _ _ _ _ _ _) as [ss j|ss j|last name ss j|st ss|];
          unfold finish in Hr; cbn [TagRun.render] in Hr;
          try (inversion Hr; subst; discriminate).
        -- destruct (TagResultFacts.anchored_slice _ _ _ Hout) as (_ & _ & tl & Hsl).
           inversion Hr; subst r. cbn [data]. rewrite Hsl. eauto.
        -- inversion Hr; subst r. unfold endOfInput in Hs.
           destruct st; [destruct (negb _)|]; discriminate.
    + (* any other format *)
      eapply Hfinal; [reflexivity| |]; cbn [status comments].
      * intros _. discriminate.
      * discriminate.
Qed.

